(** * Lead monitor: scan cycle, classification batcher and dedup store

    A shallow embedding of the Python sources of the lead monitor
    ([src/main.py], [src/processing/analyzer.py], [src/processing/filter.py],
    [src/db/repository.py], [src/db/models.py], [src/telegram/userbot.py],
    [src/telegram/bot.py]) together with the properties of the design
    document that they decide.

    Conventions of the embedding.
    - A Python [str] is a Rocq [string] holding its UTF-8 encoding.  Searching,
      splitting and comparing commute with the encoding.  [strip] removes the
      ASCII white space (9-13, 28-32); [lower] maps the capital letters of
      ASCII, Latin-1 and the Cyrillic block and leaves every other character
      as it is.
    - A Python [int] is a [Z]; a list is a [list]; [None] is [None].
    - A JSON number with a fraction or an exponent is kept as the exact decimal
      [m * 10^e]; rounding to binary64 is not modelled.
    - Code that talks to the outside (Telegram, the language model, the
      database engine, the clock) reads its answers from a [World] record.
      A call of the notification bot is recorded when it reaches a method of
      the bot; whether Telegram then delivers the message is not modelled,
      nor is logging. *)

From Stdlib Require Import ZArith Ascii String List Bool Lia DecimalString.
From stdpp Require Import gmap strings list fin_maps sorting.

Local Open Scope string_scope.
Local Open Scope Z_scope.

#[local] Set Warnings "-register-all,-clear-no-such-hyp".

(** ** Results of code that can raise *)

(** A raised exception: the name of its class and [str(e)]. *)
Record exn : Type := Exn { exn_class : string; exn_str : string }.

Inductive Result (A : Type) : Type :=
| Ok (a : A)
| Raise (e : exn).
Arguments Ok {A} a.
Arguments Raise {A} e.

(** ** Python string operations *)

Module PyStr.

(** [c.isspace()] on the ASCII range. *)
Definition is_space (c : ascii) : bool :=
  let n := nat_of_ascii c in
  ((9 <=? n)%nat && (n <=? 13)%nat) || ((28 <=? n)%nat && (n <=? 32)%nat).

Fixpoint lstrip (s : string) : string :=
  match s with
  | String c s' => if is_space c then lstrip s' else s
  | EmptyString => EmptyString
  end.

Fixpoint rev_acc (s acc : string) : string :=
  match s with
  | String c s' => rev_acc s' (String c acc)
  | EmptyString => acc
  end.

Definition rev (s : string) : string := rev_acc s EmptyString.

Definition rstrip (s : string) : string := rev (lstrip (rev s)).

(** [s.strip()] *)
Definition strip (s : string) : string := rstrip (lstrip s).

Definition lower_char (c : ascii) : ascii :=
  let n := nat_of_ascii c in
  if ((65 <=? n)%nat && (n <=? 90)%nat) then ascii_of_nat (n + 32) else c.

(** The lower case of the two-byte character [a b], for the capital letters
    of Latin-1 (U+00C0 to U+00DE without U+00D7) and of the Cyrillic block
    (U+0400 to U+042F). *)
Definition lower_pair (a b : ascii) : ascii * ascii :=
  let x := nat_of_ascii a in
  let y := nat_of_ascii b in
  if (x =? 195)%nat && (128 <=? y)%nat && (y <=? 158)%nat && negb (y =? 151)%nat
  then (a, ascii_of_nat (y + 32))
  else if (x =? 208)%nat && (128 <=? y)%nat && (y <=? 143)%nat
  then (ascii_of_nat 209, ascii_of_nat (y + 16))
  else if (x =? 208)%nat && (144 <=? y)%nat && (y <=? 159)%nat
  then (a, ascii_of_nat (y + 32))
  else if (x =? 208)%nat && (160 <=? y)%nat && (y <=? 175)%nat
  then (ascii_of_nat 209, ascii_of_nat (y - 32))
  else (a, b).

(** [s.lower()] *)
Fixpoint lower (s : string) : string :=
  match s with
  | String a (String b s' as rest) =>
      let x := nat_of_ascii a in
      if (x =? 195)%nat || (x =? 208)%nat
      then let '(a', b') := lower_pair a b in String a' (String b' (lower s'))
      else String (lower_char a) (lower rest)
  | String c s' => String (lower_char c) (lower s')
  | EmptyString => EmptyString
  end.

(** [s.startswith(p)] *)
Fixpoint startswith (p s : string) : bool :=
  match p with
  | EmptyString => true
  | String a p' =>
      match s with
      | String b s' => if Ascii.eqb a b then startswith p' s' else false
      | EmptyString => false
      end
  end.

(** [s.find(sub)]; Python's [-1] is [None]. *)
Fixpoint find_from (sub s : string) (i : nat) : option nat :=
  if startswith sub s then Some i
  else match s with
       | String _ s' => find_from sub s' (S i)
       | EmptyString => None
       end.

Definition find (sub s : string) : option nat := find_from sub s 0%nat.

(** [s.rfind(sub)] *)
Fixpoint rfind (sub s : string) : option nat :=
  match s with
  | EmptyString => if startswith sub s then Some 0%nat else None
  | String _ s' =>
      match rfind sub s' with
      | Some j => Some (S j)
      | None => if startswith sub s then Some 0%nat else None
      end
  end.

(** [sub in s] *)
Definition contains (sub s : string) : bool :=
  match find sub s with Some _ => true | None => false end.

(** [s[n:]] *)
Fixpoint drop (n : nat) (s : string) : string :=
  match n, s with
  | S k, String _ s' => drop k s'
  | _, _ => s
  end.

(** [s[:n]] *)
Fixpoint take (n : nat) (s : string) : string :=
  match n, s with
  | S k, String c s' => String c (take k s')
  | _, _ => EmptyString
  end.

(** [s[a:b]] for [0 <= a] *)
Definition slice (a b : nat) (s : string) : string := take (b - a) (drop a s).

(** [s.split(sep)] for a non-empty [sep]: the pieces between the
    non-overlapping occurrences of [sep], scanning from the left. *)
Fixpoint split_go (sep s : string) (skip : nat) (cur : string) : list string :=
  match s with
  | EmptyString => [rev cur]
  | String c s' =>
      match skip with
      | S k => split_go sep s' k cur
      | O =>
          if startswith sep s
          then rev cur :: split_go sep s' (String.length sep - 1) EmptyString
          else split_go sep s' O (String c cur)
      end
  end.

Definition split (sep s : string) : list string := split_go sep s O EmptyString.

(** [sep.join(l)] *)
Fixpoint join (sep : string) (l : list string) : string :=
  match l with
  | [] => EmptyString
  | [x] => x
  | x :: rest => x ++ sep ++ join sep rest
  end.

(** [str(z)] for an integer. *)
Definition of_Z (z : Z) : string := NilZero.string_of_int (Z.to_int z).

(** [s.replace(a, b)] for a one-character [a]. *)
Fixpoint replace_char (a : ascii) (b : string) (s : string) : string :=
  match s with
  | EmptyString => EmptyString
  | String c s' =>
      if Ascii.eqb c a then b ++ replace_char a b s'
      else String c (replace_char a b s')
  end.

End PyStr.

(** ** JSON values and [json.loads] *)

Module Json.

Inductive json : Type :=
| JNull
| JBool (b : bool)
| JInt (z : Z)
| JFloat (m e : Z)          (* the decimal m * 10^e *)
| JNaN
| JInf (negative : bool)
| JStr (s : string)
| JList (l : list json)
| JDict (kv : list (string * json)).

Definition dquote : ascii := "034"%char.
Definition backslash : ascii := "092"%char.

(** The white space of the JSON grammar: space, tab, line feed, return. *)
Definition is_ws (c : ascii) : bool :=
  Ascii.eqb c " "%char || Ascii.eqb c "009"%char
  || Ascii.eqb c "010"%char || Ascii.eqb c "013"%char.

Fixpoint skip_ws (s : string) : string :=
  match s with
  | String c s' => if is_ws c then skip_ws s' else s
  | EmptyString => s
  end.

Definition digit_val (c : ascii) : option Z :=
  let n := Z.of_nat (nat_of_ascii c) in
  if (48 <=? n) && (n <=? 57) then Some (n - 48) else None.

Definition hex_val (c : ascii) : option Z :=
  let n := Z.of_nat (nat_of_ascii c) in
  if (48 <=? n) && (n <=? 57) then Some (n - 48)
  else if (97 <=? n) && (n <=? 102) then Some (n - 87)
  else if (65 <=? n) && (n <=? 70) then Some (n - 55)
  else None.

(** The longest run of decimal digits at the head of [s]: its value, its
    length and what follows it. *)
Fixpoint span_digits (s : string) (acc : Z) (len : nat) : Z * nat * string :=
  match s with
  | String c s' =>
      match digit_val c with
      | Some d => span_digits s' (10 * acc + d) (S len)
      | None => (acc, len, s)
      end
  | EmptyString => (acc, len, s)
  end.

(** The optional fraction: a dot and at least one digit. *)
Definition scan_frac (m : Z) (s : string) : Z * nat * string :=
  match s with
  | String "."%char r =>
      match span_digits r m O with
      | (_, O, _) => (m, O, s)
      | res => res
      end
  | _ => (m, O, s)
  end.

(** The optional exponent: e or E, an optional sign, at least one digit. *)
Definition scan_exp (s : string) : option Z * string :=
  match s with
  | String c r =>
      if Ascii.eqb c "e"%char || Ascii.eqb c "E"%char then
        let '(neg, r1) :=
          match r with
          | String "-"%char r' => (true, r')
          | String "+"%char r' => (false, r')
          | _ => (false, r)
          end in
        match span_digits r1 0 O with
        | (_, O, _) => (None, s)
        | (v, _, r2) => (Some (if neg then - v else v), r2)
        end
      else (None, s)
  | EmptyString => (None, s)
  end.

(** An optional minus sign, then 0 or a run of digits that does not start
    with 0, then the optional fraction and exponent; an integer literal
    gives [JInt], any other [JFloat]. *)
Definition scan_number (s : string) : option (json * string) :=
  let '(neg, s1) :=
    match s with
    | String "-"%char r => (true, r)
    | _ => (false, s)
    end in
  let int_part :=
    match s1 with
    | String "0"%char r => Some (0, r)
    | String c _ =>
        match digit_val c with
        | Some _ => let '(v, _, r) := span_digits s1 0 O in Some (v, r)
        | None => None
        end
    | EmptyString => None
    end in
  match int_part with
  | None => None
  | Some (i, r) =>
      let '(m, flen, r1) := scan_frac i r in
      let '(ex, r2) := scan_exp r1 in
      let sign (v : Z) := if neg then - v else v in
      match flen, ex with
      | O, None => Some (JInt (sign i), r2)
      | _, _ =>
          Some (JFloat (sign m) (match ex with Some e => e | None => 0 end
                                 - Z.of_nat flen), r2)
      end
  end.

(** UTF-8 encoding of a code point. *)
Definition byte (z : Z) : ascii := ascii_of_N (Z.to_N z).

Definition utf8 (cp : Z) : string :=
  if cp <? 128 then String (byte cp) EmptyString
  else if cp <? 2048 then
    String (byte (192 + cp / 64)) (String (byte (128 + cp mod 64)) EmptyString)
  else if cp <? 65536 then
    String (byte (224 + cp / 4096))
      (String (byte (128 + (cp / 64) mod 64))
         (String (byte (128 + cp mod 64)) EmptyString))
  else
    String (byte (240 + cp / 262144))
      (String (byte (128 + (cp / 4096) mod 64))
         (String (byte (128 + (cp / 64) mod 64))
            (String (byte (128 + cp mod 64)) EmptyString))).

Definition hex4 (a b c d : ascii) : option Z :=
  match hex_val a, hex_val b, hex_val c, hex_val d with
  | Some x, Some y, Some z, Some w => Some (((x * 16 + y) * 16 + z) * 16 + w)
  | _, _, _, _ => None
  end.

(** The body of a string literal, after the opening quote, in strict mode:
    a control character is an error.  [acc] is the text so far, reversed. *)
Fixpoint scanstring (s : string) (acc : string) : option (string * string) :=
  match s with
  | EmptyString => None
  | String c r =>
      if Ascii.eqb c dquote then Some (PyStr.rev acc, r)
      else if Ascii.eqb c backslash then
        match r with
        | String e r' =>
            let simple (x : ascii) := scanstring r' (String x acc) in
            if Ascii.eqb e dquote then simple dquote
            else if Ascii.eqb e backslash then simple backslash
            else if Ascii.eqb e "/"%char then simple "/"%char
            else if Ascii.eqb e "b"%char then simple "008"%char
            else if Ascii.eqb e "f"%char then simple "012"%char
            else if Ascii.eqb e "n"%char then simple "010"%char
            else if Ascii.eqb e "r"%char then simple "013"%char
            else if Ascii.eqb e "t"%char then simple "009"%char
            else if Ascii.eqb e "u"%char then
              match r' with
              | String h1 (String h2 (String h3 (String h4 r2))) =>
                  match hex4 h1 h2 h3 h4 with
                  | None => None
                  | Some hi =>
                      let single := scanstring r2 (PyStr.rev_acc (utf8 hi) acc) in
                      if (55296 <=? hi) && (hi <=? 56319) then
                        match r2 with
                        | String b1 (String u1 (String l1 (String l2 (String l3 (String l4 r3))))) =>
                            if Ascii.eqb b1 backslash && Ascii.eqb u1 "u"%char then
                              match hex4 l1 l2 l3 l4 with
                              | Some lo =>
                                  if (56320 <=? lo) && (lo <=? 57343) then
                                    scanstring r3
                                      (PyStr.rev_acc
                                         (utf8 (65536 + (hi - 55296) * 1024 + (lo - 56320)))
                                         acc)
                                  else single
                              | None => single
                              end
                            else single
                        | _ => single
                        end
                      else single
                  end
              | _ => None
              end
            else None
        | EmptyString => None
        end
      else if (nat_of_ascii c <? 32)%nat then None
      else scanstring r (String c acc)
  end.

(** [dict] keeps the first position of a repeated key and its last value. *)
Fixpoint dict_put (k : string) (v : json) (kv : list (string * json))
  : list (string * json) :=
  match kv with
  | [] => [(k, v)]
  | (k', v') :: rest =>
      if String.eqb k k' then (k', v) :: rest else (k', v') :: dict_put k v rest
  end.

Fixpoint scan_value (fuel : nat) (s : string) : option (json * string) :=
  match fuel with
  | O => None
  | S n =>
      match s with
      | EmptyString => None
      | String c r =>
          if Ascii.eqb c dquote then
            match scanstring r EmptyString with
            | Some (t, r') => Some (JStr t, r')
            | None => None
            end
          else if Ascii.eqb c "{"%char then
            match skip_ws r with
            | String "}"%char r' => Some (JDict [], r')
            | r' => scan_members n r' []
            end
          else if Ascii.eqb c "["%char then
            match skip_ws r with
            | String "]"%char r' => Some (JList [], r')
            | r' => scan_elems n r' []
            end
          else if PyStr.startswith "null" s then Some (JNull, PyStr.drop 4 s)
          else if PyStr.startswith "true" s then Some (JBool true, PyStr.drop 4 s)
          else if PyStr.startswith "false" s then Some (JBool false, PyStr.drop 5 s)
          else
            match scan_number s with
            | Some res => Some res
            | None =>
                if PyStr.startswith "NaN" s then Some (JNaN, PyStr.drop 3 s)
                else if PyStr.startswith "Infinity" s
                     then Some (JInf false, PyStr.drop 8 s)
                else if PyStr.startswith "-Infinity" s
                     then Some (JInf true, PyStr.drop 9 s)
                else None
            end
      end
  end

with scan_members (fuel : nat) (s : string) (acc : list (string * json))
  : option (json * string) :=
  match fuel with
  | O => None
  | S n =>
      match s with
      | String c r =>
          if Ascii.eqb c dquote then
            match scanstring r EmptyString with
            | None => None
            | Some (k, r1) =>
                match skip_ws r1 with
                | String ":"%char r2 =>
                    match scan_value n (skip_ws r2) with
                    | None => None
                    | Some (v, r3) =>
                        let acc' := dict_put k v acc in
                        match skip_ws r3 with
                        | String "}"%char r4 => Some (JDict acc', r4)
                        | String ","%char r4 => scan_members n (skip_ws r4) acc'
                        | _ => None
                        end
                    end
                | _ => None
                end
            end
          else None
      | EmptyString => None
      end
  end

with scan_elems (fuel : nat) (s : string) (acc : list json)
  : option (json * string) :=
  match fuel with
  | O => None
  | S n =>
      match scan_value n s with
      | None => None
      | Some (v, r1) =>
          match skip_ws r1 with
          | String "]"%char r2 => Some (JList (acc ++ [v]), r2)
          | String ","%char r2 => scan_elems n (skip_ws r2) (acc ++ [v])
          | _ => None
          end
      end
  end.

(** [json.loads(s)]: one value between optional white space; [None] stands
    for [json.JSONDecodeError].  The limits of the interpreter (depth of
    recursion, digits of an integer) are not modelled. *)
Definition loads (s : string) : option json :=
  match scan_value (2 * String.length s + 2) (skip_ws s) with
  | Some (v, r) =>
      match skip_ws r with
      | EmptyString => Some v
      | _ => None
      end
  | None => None
  end.

End Json.

(** ** [src/processing/analyzer.py] *)

Module Analyzer.
Import Json.

(** One entry of the list given to the analyzer: [(idx, user_id, text)] in
    the Telegram cycle, [(idx, text)] in the Facebook cycle. *)
Inductive item : Type :=
| Item3 (idx user_id : Z) (text : string)
| Item2 (idx : Z) (text : string).

(** A key of the result dictionary, up to Python's equality of keys:
    [True == 1 == 1.0]. *)
Inductive pykey : Type :=
| KInt (z : Z)
| KFloat (m e : Z)
| KNaN
| KInf (negative : bool)
| KStr (s : string)
| KNone.

#[global] Instance pykey_eq_dec : EqDecision pykey.
Proof. solve_decision. Defined.

(** [(is_lead, reason, confidence, lead_type)] *)
Definition verdict : Type := bool * json * json * json.

(** The result dictionary, in insertion order. *)
Definition pydict : Type := list (pykey * verdict).

Fixpoint dict_set (k : pykey) (v : verdict) (d : pydict) : pydict :=
  match d with
  | [] => [(k, v)]
  | (k', v') :: rest =>
      if decide (k = k') then (k', v) :: rest else (k', v') :: dict_set k v rest
  end.

(** [d.update(other)] *)
Definition dict_update (d other : pydict) : pydict :=
  fold_left (fun acc kv => dict_set (fst kv) (snd kv) acc) other d.

Fixpoint dict_lookup (k : pykey) (d : pydict) : option verdict :=
  match d with
  | [] => None
  | (k', v) :: rest => if decide (k = k') then Some v else dict_lookup k rest
  end.

(** [d.get(i)] for an integer [i] *)
Definition dict_get (d : pydict) (i : Z) : option verdict := dict_lookup (KInt i) d.

(** Removes the factors 10 of the mantissa of a decimal that is not an
    integer, so that equal decimals are equal keys. *)
Fixpoint normalize (fuel : nat) (m e : Z) : Z * Z :=
  match fuel with
  | O => (m, e)
  | S k => if (m mod 10 =? 0) && (e <? 0) then normalize k (m / 10) (e + 1) else (m, e)
  end.

(** The key a JSON value hashes to; a list or a dictionary is unhashable. *)
Definition key_of (v : json) : Result pykey :=
  match v with
  | JNull => Ok KNone
  | JBool b => Ok (KInt (if b then 1 else 0))
  | JInt z => Ok (KInt z)
  | JFloat m e =>
      if 0 <=? e then Ok (KInt (m * 10 ^ e))
      else if m mod 10 ^ (- e) =? 0 then Ok (KInt (m / 10 ^ (- e)))
      else let '(m', e') := normalize (Z.to_nat (- e)) m e in Ok (KFloat m' e')
  | JNaN => Ok KNaN
  | JInf n => Ok (KInf n)
  | JStr s => Ok (KStr s)
  | JList _ => Raise (Exn "TypeError" "unhashable type: 'list'")
  | JDict _ => Raise (Exn "TypeError" "unhashable type: 'dict'")
  end.

Definition type_name (v : json) : string :=
  match v with
  | JNull => "NoneType"
  | JBool _ => "bool"
  | JInt _ => "int"
  | JFloat _ _ | JNaN | JInf _ => "float"
  | JStr _ => "str"
  | JList _ => "list"
  | JDict _ => "dict"
  end.

Fixpoint chars (s : string) : list json :=
  match s with
  | EmptyString => []
  | String c s' => JStr (String c EmptyString) :: chars s'
  end.

(** [for r in results]: the elements of a list, the keys of a dictionary,
    the characters of a string; any other value is not iterable. *)
Definition py_iter (v : json) : Result (list json) :=
  match v with
  | JList l => Ok l
  | JDict kv => Ok (map (fun p => JStr (fst p)) kv)
  | JStr s => Ok (chars s)
  | _ => Raise (Exn "TypeError" ("'" ++ type_name v ++ "' object is not iterable"))
  end.

Fixpoint assoc (k : string) (kv : list (string * json)) : option json :=
  match kv with
  | [] => None
  | (k', v) :: rest => if String.eqb k k' then Some v else assoc k rest
  end.

(** [r.get(k, default)] *)
Definition py_get (r : json) (k : string) (default : json) : Result json :=
  match r with
  | JDict kv => Ok (match assoc k kv with Some v => v | None => default end)
  | _ => Raise (Exn "AttributeError"
                  ("'" ++ type_name r ++ "' object has no attribute 'get'"))
  end.

(** [r[k]] for a string [k] *)
Definition py_index (r : json) (k : string) : Result json :=
  match r with
  | JDict kv =>
      match assoc k kv with
      | Some v => Ok v
      | None => Raise (Exn "KeyError" ("'" ++ k ++ "'"))
      end
  | JList _ => Raise (Exn "TypeError" "list indices must be integers or slices, not str")
  | JStr _ => Raise (Exn "TypeError" "string indices must be integers, not 'str'")
  | _ => Raise (Exn "TypeError" ("'" ++ type_name r ++ "' object is not subscriptable"))
  end.

(** [f"{confidence:.0%}"]: a number is formatted, an integer after its
    conversion to a float; anything else raises. *)
Definition format_percent (c : json) : Result unit :=
  match c with
  | JInt z =>
      if Z.abs z <? 2 ^ 1024 - 2 ^ 970 then Ok tt
      else Raise (Exn "OverflowError" "int too large to convert to float")
  | JBool _ | JFloat _ _ | JNaN | JInf _ => Ok tt
  | JStr _ => Raise (Exn "ValueError" "Unknown format code '%' for object of type 'str'")
  | _ => Raise (Exn "TypeError"
                  ("unsupported format string passed to " ++ type_name c ++ ".__format__"))
  end.

(** [parse_response] *)

(** The loop over the pieces between code fences: the first piece that,
    stripped and without a leading [json], starts with a bracket replaces
    the text. *)
Fixpoint fenced (parts : list string) (text : string) : string :=
  match parts with
  | [] => text
  | part :: rest =>
      let part := PyStr.strip part in
      let part := if PyStr.startswith "json" part
                  then PyStr.strip (PyStr.drop 4 part) else part in
      if PyStr.startswith "[" part then part else fenced rest text
  end.

Definition parse_response (result_text : string) : json :=
  let text := PyStr.strip result_text in
  if String.eqb text "" then JList []
  else
    let text :=
      if PyStr.contains "```" text then fenced (PyStr.split "```" text) text
      else text in
    let text :=
      match PyStr.find "[" text, PyStr.rfind "]" text with
      | Some start, Some end_ =>
          if (start <? end_)%nat then PyStr.slice start (end_ + 1) text else text
      | _, _ => text
      end in
    match loads text with
    | Some v => v
    | None => JList []
    end.

(** [analyze_batch] *)

Definition format_item (it : item) : string :=
  match it with
  | Item3 idx user_id text =>
      "[" ++ PyStr.of_Z idx ++ "] (user:" ++ PyStr.of_Z user_id ++ ") " ++ text
  | Item2 idx text => "[" ++ PyStr.of_Z idx ++ "] " ++ text
  end.

Definition newline : string := String "010"%char EmptyString.

(** The first loop over the results, which logs each lead. *)
Fixpoint log_leads (rs : list json) : Result unit :=
  match rs with
  | [] => Ok tt
  | r :: rest =>
      match py_get r "type" (JStr "property") with
      | Raise e => Raise e
      | Ok _ =>
          match py_get r "confidence" (JFloat 5 (-1)) with
          | Raise e => Raise e
          | Ok c =>
              match format_percent c with
              | Raise e => Raise e
              | Ok _ => log_leads rest
              end
          end
      end
  end.

(** The dictionary comprehension over the results. *)
Fixpoint comprehension (rs : list json) (acc : pydict) : Result pydict :=
  match rs with
  | [] => Ok acc
  | r :: rest =>
      match py_index r "id" with
      | Raise e => Raise e
      | Ok id =>
          match key_of id, py_get r "reason" (JStr ""),
                py_get r "confidence" (JFloat 5 (-1)),
                py_get r "type" (JStr "property") with
          | Ok k, Ok reason, Ok confidence, Ok lead_type =>
              comprehension rest (dict_set k (true, reason, confidence, lead_type) acc)
          | Raise e, _, _, _ => Raise e
          | _, Raise e, _, _ => Raise e
          | _, _, Raise e, _ => Raise e
          | _, _, _, Raise e => Raise e
          end
      end
  end.

(** What one attempt makes of the text the model returned. *)
Definition leads_of_response (result_text : string) : Result pydict :=
  match py_iter (parse_response result_text) with
  | Raise e => Raise e
  | Ok rs =>
      match log_leads rs with
      | Raise e => Raise e
      | Ok _ => comprehension rs []
      end
  end.

(** The test for a rate limit on [str(e)]. *)
Definition rate_limited (error_str : string) : bool :=
  PyStr.contains "429" error_str
  || PyStr.contains "quota" (PyStr.lower error_str)
  || PyStr.contains "rate" (PyStr.lower error_str).

(** The loop [for attempt in range(max_retries)], from [attempt] on, with
    [remaining] iterations left.  [call_llm attempt prompt] is the answer of
    the provider to this attempt; an error of the provider stands for an
    exception of class [Exception], which the handler catches.  The sleep
    before a retry and a cancellation of the task are not modelled. *)
Fixpoint attempts (call_llm : nat -> string -> Result string) (prompt : string)
    (max_retries : nat) (remaining attempt : nat) : Result pydict :=
  match remaining with
  | O => Raise (Exn "AnalysisError" "Max retries exceeded")
  | S k =>
      let outcome :=
        match call_llm attempt prompt with
        | Raise e => Raise e
        | Ok result_text => leads_of_response result_text
        end in
      match outcome with
      | Ok d => Ok d
      | Raise e =>
          if rate_limited (exn_str e) && (attempt <? max_retries - 1)%nat
          then attempts call_llm prompt max_retries k (S attempt)
          else Raise (Exn "AnalysisError" ("Failed to analyze batch: " ++ exn_str e))
      end
  end.

Definition analyze_batch (BATCH_PROMPT : string -> string)
    (call_llm : nat -> string -> Result string)
    (messages : list item) (max_retries : nat) : Result pydict :=
  match messages with
  | [] => Ok []
  | _ =>
      let formatted := PyStr.join (newline ++ newline) (map format_item messages) in
      let prompt := BATCH_PROMPT formatted in
      attempts call_llm prompt max_retries max_retries O
  end.

(** [analyze_messages_batch] *)

(** [l[i:i + n] for i in range(0, len(l), n)], for [n > 0]. *)
Fixpoint chunks_go {A : Type} (fuel n : nat) (l : list A) : list (list A) :=
  match fuel, l with
  | _, [] => []
  | O, _ => []
  | S k, _ => firstn n l :: chunks_go k n (skipn n l)
  end.

Definition chunks {A : Type} (n : nat) (l : list A) : list (list A) :=
  chunks_go (length l) n l.

(** The loop over the results of one wave: a dictionary is merged, an
    exception is logged. *)
Definition merge (all_results : pydict) (results : list (Result pydict)) : pydict :=
  fold_left
    (fun acc result => match result with Ok d => dict_update acc d | Raise _ => acc end)
    results all_results.

(** [asyncio.gather] over the batches of one wave; the batch at position
    [idx] of the wave that starts at [group_start] is batch number
    [group_start + idx] of the call, counted from 0. *)
Fixpoint gather (BATCH_PROMPT : string -> string)
    (llm : nat -> nat -> string -> Result string)
    (group : list (list item)) (num : nat) : list (Result pydict) :=
  match group with
  | [] => []
  | batch :: rest =>
      analyze_batch BATCH_PROMPT (llm num) batch 3 :: gather BATCH_PROMPT llm rest (S num)
  end.

(** The loop [for group_start in range(0, total_batches, max_parallel)],
    over the waves [batches[group_start:group_start + max_parallel]]. *)
Fixpoint waves (BATCH_PROMPT : string -> string)
    (llm : nat -> nat -> string -> Result string)
    (groups : list (list (list item))) (group_start max_parallel : nat)
    (all_results : pydict) : pydict :=
  match groups with
  | [] => all_results
  | group :: rest =>
      let results := gather BATCH_PROMPT llm group group_start in
      waves BATCH_PROMPT llm rest (group_start + max_parallel)%nat max_parallel
        (merge all_results results)
  end.

(** Returns the merged dictionary and the success flag.  [batch_size] and
    [max_parallel] are positive (the callers leave the defaults 100 and 3). *)
Definition analyze_messages_batch (BATCH_PROMPT : string -> string)
    (llm : nat -> nat -> string -> Result string)
    (texts : list item) (batch_size max_parallel : nat) : pydict * bool :=
  let batches := chunks batch_size texts in
  let all_results :=
    waves BATCH_PROMPT llm (chunks max_parallel batches) O max_parallel [] in
  (all_results, true).

End Analyzer.

(** ** The outside world and the state of a run *)

(** [src/db/models.py] *)
Record ProcessedUser : Type := {
  pu_id : Z;
  pu_telegram_user_id : Z;
  pu_username : option string;
  pu_first_name : option string;
}.

Record Message : Type := {
  msg_id : Z;
  msg_telegram_message_id : Z;
  msg_chat_id : Z;
  msg_chat_title : option string;
  msg_chat_username : option string;
  msg_user_id : Z;
  msg_text : string;
  msg_is_lead : option bool;
  msg_confidence : option Json.json;
  msg_reason : option Json.json;
  msg_created_at : Z;
  msg_analyzed_at : option Z;
  msg_source : string;
}.

Record ChatState : Type := {
  last_message_id : Z;
  updated_at : Z;
}.

Record FacebookProcessedPost : Type := {
  fp_group_id : string;
  fp_processed_at : Z;
}.

(** The tables; [chat_state] and [facebook_processed_posts] are keyed by
    their primary keys [chat_id] and [post_id]. *)
Record DB : Type := {
  processed_users : list ProcessedUser;
  messages : list Message;
  chat_state : gmap Z ChatState;
  facebook_processed_posts : gmap string FacebookProcessedPost;
}.

(** [src/telegram/userbot.py]: [ParsedMessage] *)
Record ParsedMessage : Type := {
  message_id : Z;
  chat_id : Z;
  chat_title : option string;
  chat_username : option string;
  user_id : Z;
  username : option string;
  first_name : option string;
  text : string;
  date : Z;                          (* microseconds since the epoch, UTC *)
  topic_id : option Z;
  reply_to_text : option string;
}.

(** What Telegram holds. *)
Record Sender : Type := {
  sender_user_id : Z;
  sender_username : option string;
  sender_first_name : option string;
}.

Record ReplyHeader : Type := {
  reply_to_top_id : option Z;
  reply_to_msg_id : option Z;
  (** the text of the message replied to, when fetching it gives one *)
  replied_text : option string;
}.

Record RawMessage : Type := {
  raw_id : Z;
  raw_text : option string;
  raw_sender_id : option Z;
  raw_sender : option Sender;        (* [await msg.get_sender()] *)
  raw_date : Z;
  raw_reply_to : option ReplyHeader;
}.

Record Entity : Type := {
  title : option string;
  entity_username : option string;
  forum : bool;
}.

(** A member of the list [get_folder_chats] returns: a peer reference of a
    folder, or the entity of a dialog. *)
Inductive peer : Type :=
| PeerChannel (channel_id : Z)
| PeerChat (chat_id : Z)
| ChatEntity (id : Z).

Record ChatInfo : Type := {
  (** [client.get_entity(peer)]; an entity resolves to itself *)
  entity : Result Entity;
  (** the messages of the chat, newest first *)
  history : list RawMessage;
  (** [Some k]: the iteration raises once [k] messages have been handled *)
  interrupted : option nat;
}.

Record Config : Type := {
  exclude_words : list string;       (* lower-cased when the file is read *)
  BATCH_PROMPT : string -> string;   (* [BATCH_PROMPT.format(messages=...)] *)
}.

Record World : Type := {
  config : Config;
  folder_chats : Result (list peer); (* [userbot.get_folder_chats(...)] *)
  chat_of : peer -> ChatInfo;
  (** the n-th reading of the clock, in microseconds *)
  clock : nat -> Z;
  (** whether the n-th call of a repository method fails *)
  db_fails : nat -> bool;
  (** the answer to attempt [a] of batch [k] of the cycle for a prompt *)
  llm : nat -> nat -> string -> Result string;
}.

(** One entry of the batched lead notification. *)
Record lead : Type := {
  contact : string;
  chat_link : string;
  lead_text : string;
  lead_confidence : Json.json;
  lead_reason : Json.json;
  lead_type : Json.json;
}.

(** A call of the notification bot that reaches one of its methods. *)
Inductive notification : Type :=
| SendStats (total filtered analyzed leads : Z) (source : string).

Record St : Type := {
  db : DB;
  db_calls : nat;                     (* repository calls made so far *)
  clock_reads : nat;                  (* clock readings made so far *)
  sent : list notification;           (* calls of the bot, oldest first *)
}.

(** Computations that read and write the state and can raise. *)
Definition M (A : Type) : Type := St -> Result A * St.

Definition ret {A : Type} (a : A) : M A := fun st => (Ok a, st).

Definition raise {A : Type} (e : exn) : M A := fun st => (Raise e, st).

Definition bind {A B : Type} (c : M A) (k : A -> M B) : M B :=
  fun st =>
    match c st with
    | (Ok a, st') => k a st'
    | (Raise e, st') => (Raise e, st')
    end.

Declare Scope cycle_scope.
Delimit Scope cycle_scope with cycle.
Notation "x <- c ;; k" := (bind c (fun x => k))
  (at level 100, c at next level, right associativity) : cycle_scope.
Notation "c ;;; k" := (bind c (fun _ => k))
  (at level 100, right associativity) : cycle_scope.
Local Open Scope cycle_scope.

(** [datetime.utcnow()] and [datetime.now(timezone.utc)] *)
Definition now (w : World) : M Z :=
  fun st =>
    (Ok (clock w (clock_reads st)),
     {| db := db st; db_calls := db_calls st;
        clock_reads := S (clock_reads st); sent := sent st |}).

Definition notify (n : notification) : M unit :=
  fun st =>
    (Ok tt,
     {| db := db st; db_calls := db_calls st;
        clock_reads := clock_reads st; sent := sent st ++ [n] |}).

Definition get_db : M DB := fun st => (Ok (db st), st).

Definition put_db (d : DB) : M unit :=
  fun st =>
    (Ok tt,
     {| db := d; db_calls := db_calls st;
        clock_reads := clock_reads st; sent := sent st |}).

(** Entering a repository method: the call is counted, and raises when the
    database fails on it. *)
Definition db_call (w : World) : M unit :=
  fun st =>
    let st' := {| db := db st; db_calls := S (db_calls st);
                  clock_reads := clock_reads st; sent := sent st |} in
    if db_fails w (db_calls st)
    then (Raise (Exn "OperationalError" "database error"), st')
    else (Ok tt, st').

(** ** [src/db/repository.py] *)

Module Repository.

Definition set_chat_state (cs : gmap Z ChatState) (d : DB) : DB :=
  {| processed_users := processed_users d; messages := messages d;
     chat_state := cs;
     facebook_processed_posts := facebook_processed_posts d |}.

Definition set_messages (ms : list Message) (d : DB) : DB :=
  {| processed_users := processed_users d; messages := ms;
     chat_state := chat_state d;
     facebook_processed_posts := facebook_processed_posts d |}.

Definition set_processed_users (us : list ProcessedUser) (d : DB) : DB :=
  {| processed_users := us; messages := messages d;
     chat_state := chat_state d;
     facebook_processed_posts := facebook_processed_posts d |}.

Definition set_facebook_processed_posts (ps : gmap string FacebookProcessedPost)
    (d : DB) : DB :=
  {| processed_users := processed_users d; messages := messages d;
     chat_state := chat_state d;
     facebook_processed_posts := ps |}.

Definition find_user (telegram_user_id : Z) (us : list ProcessedUser)
  : option ProcessedUser :=
  List.find (fun u => pu_telegram_user_id u =? telegram_user_id) us.

Definition get_or_create_user (w : World) (telegram_user_id : Z)
    (username first_name : option string) : M ProcessedUser :=
  db_call w ;;;
  d <- get_db ;;
  match find_user telegram_user_id (processed_users d) with
  | Some user => ret user
  | None =>
      let user := {| pu_id := Z.of_nat (length (processed_users d)) + 1;
                     pu_telegram_user_id := telegram_user_id;
                     pu_username := username;
                     pu_first_name := first_name |} in
      put_db (set_processed_users (processed_users d ++ [user]) d) ;;;
      ret user
  end.

Definition save_message (w : World) (telegram_message_id chat_id : Z)
    (chat_title chat_username : option string) (user : ProcessedUser)
    (text : string) (created_at : Z) (source : string) : M Message :=
  db_call w ;;;
  d <- get_db ;;
  let msg := {| msg_id := Z.of_nat (length (messages d)) + 1;
                msg_telegram_message_id := telegram_message_id;
                msg_chat_id := chat_id;
                msg_chat_title := chat_title;
                msg_chat_username := chat_username;
                msg_user_id := pu_id user;
                msg_text := text;
                msg_is_lead := None;
                msg_confidence := None;
                msg_reason := None;
                msg_created_at := created_at;
                msg_analyzed_at := None;
                msg_source := source |} in
  put_db (set_messages (messages d ++ [msg]) d) ;;;
  ret msg.

Definition with_lead_status (is_lead : bool) (confidence reason : Json.json)
    (analyzed_at : Z) (m : Message) : Message :=
  {| msg_id := msg_id m;
     msg_telegram_message_id := msg_telegram_message_id m;
     msg_chat_id := msg_chat_id m;
     msg_chat_title := msg_chat_title m;
     msg_chat_username := msg_chat_username m;
     msg_user_id := msg_user_id m;
     msg_text := msg_text m;
     msg_is_lead := Some is_lead;
     msg_confidence := Some confidence;
     msg_reason := Some reason;
     msg_created_at := msg_created_at m;
     msg_analyzed_at := Some analyzed_at;
     msg_source := msg_source m |}.

Definition update_message_lead_status (w : World) (message_id : Z)
    (is_lead : bool) (confidence reason : Json.json) : M unit :=
  db_call w ;;;
  d <- get_db ;;
  if existsb (fun m => msg_id m =? message_id) (messages d) then
    t <- now w ;;
    put_db (set_messages
              (map (fun m => if msg_id m =? message_id
                             then with_lead_status is_lead confidence reason t m
                             else m)
                   (messages d)) d)
  else ret tt.

Definition get_last_message_id (w : World) (chat_id : Z) : M (option Z) :=
  db_call w ;;;
  d <- get_db ;;
  ret (last_message_id <$> chat_state d !! chat_id).

Definition update_last_message_id (w : World) (chat_id message_id : Z) : M unit :=
  db_call w ;;;
  d <- get_db ;;
  match chat_state d !! chat_id with
  | Some state =>
      t <- now w ;;
      put_db (set_chat_state
                (<[chat_id := {| last_message_id := message_id; updated_at := t |}]>
                   (chat_state d)) d)
  | None =>
      t <- now w ;;
      let state := {| last_message_id := message_id; updated_at := t |} in
      put_db (set_chat_state (<[chat_id := state]> (chat_state d)) d)
  end.

Definition is_facebook_post_processed (w : World) (post_id : string) : M bool :=
  db_call w ;;;
  d <- get_db ;;
  ret (bool_decide (is_Some (facebook_processed_posts d !! post_id))).

Definition mark_facebook_post_processed (w : World) (post_id group_id : string)
  : M unit :=
  db_call w ;;;
  d <- get_db ;;
  match facebook_processed_posts d !! post_id with
  | Some _ => ret tt
  | None =>
      t <- now w ;;
      put_db (set_facebook_processed_posts
                (<[post_id := {| fp_group_id := group_id; fp_processed_at := t |}]>
                   (facebook_processed_posts d)) d)
  end.

(** The loop of [mark_facebook_posts_batch]; the rows are added to the
    session and committed together at the end. *)
Fixpoint mark_all (t : Z) (posts : list (string * string))
    (ps : gmap string FacebookProcessedPost) : gmap string FacebookProcessedPost :=
  match posts with
  | [] => ps
  | (post_id, group_id) :: rest =>
      match ps !! post_id with
      | Some _ => mark_all t rest ps
      | None =>
          mark_all t rest
            (<[post_id := {| fp_group_id := group_id; fp_processed_at := t |}]> ps)
      end
  end.

Definition mark_facebook_posts_batch (w : World) (posts : list (string * string))
  : M unit :=
  db_call w ;;;
  d <- get_db ;;
  t <- now w ;;
  put_db (set_facebook_processed_posts
            (mark_all t posts (facebook_processed_posts d)) d).

(** The attributes of the class [Repository]: [__init__], [close] and the
    methods above, as the class body lists them. *)
Definition attributes : list string :=
  [ "__init__"; "close"; "get_or_create_user"; "is_user_processed";
    "save_message"; "update_message_lead_status"; "get_last_message_id";
    "update_last_message_id"; "get_facebook_group_state";
    "update_facebook_group_state"; "is_facebook_post_processed";
    "mark_facebook_post_processed"; "mark_facebook_posts_batch"; "session" ].

(** [repo.name()] for a call without arguments: [close] (and [__init__])
    return [None], [session] is not callable, the other methods miss their
    arguments; a name that the instance and its class do not have raises
    [AttributeError] when it is looked up. *)
Definition call0 (name : string) : M Json.json :=
  if String.eqb name "close" || String.eqb name "__init__" then ret Json.JNull
  else if String.eqb name "session" then
    raise (Exn "TypeError" "'Session' object is not callable")
  else if existsb (String.eqb name) attributes then
    raise (Exn "TypeError"
             ("Repository." ++ name ++ "() missing required positional arguments"))
  else
    raise (Exn "AttributeError"
             ("'Repository' object has no attribute '" ++ name ++ "'")).

End Repository.

(** ** Truth values of Python objects *)

Definition truthy_str (o : option string) : bool :=
  match o with Some s => negb (String.eqb s "") | None => false end.

Definition truthy_Z (o : option Z) : bool :=
  match o with Some z => negb (z =? 0) | None => false end.

(** [a or b] on optional integers *)
Definition or_Z (a b : option Z) : option Z := if truthy_Z a then a else b.

(** ** [src/telegram/userbot.py] *)

Module UserBot.

(** [s[:n]] counted in characters: a continuation byte belongs to the
    character before it. *)
Fixpoint take_chars (n : nat) (s : string) : string :=
  match s with
  | EmptyString => EmptyString
  | String c s' =>
      let b := nat_of_ascii c in
      if ((128 <=? b)%nat && (b <? 192)%nat) then String c (take_chars n s')
      else match n with
           | O => EmptyString
           | S k => String c (take_chars k s')
           end
  end.

(** [client.iter_messages(entity, min_id=min_id, limit=limit)]: the messages
    with an id above [min_id], newest first, at most [limit] of them. *)
Definition iter_messages (history : list RawMessage) (min_id : Z) (limit : nat)
  : list RawMessage :=
  firstn limit (List.filter (fun m => min_id <? raw_id m) history).

Definition peer_chat_id (p : peer) : Z :=
  match p with
  | PeerChannel channel_id => channel_id
  | PeerChat chat_id => chat_id
  | ChatEntity id => id
  end.

(** The body of the loop over the messages: [None] is [continue]. *)
Definition parse_message (chat_id : Z) (e : Entity) (msg : RawMessage)
  : option ParsedMessage :=
  if negb (truthy_str (raw_text msg)) || negb (truthy_Z (raw_sender_id msg)) then None
  else
    match raw_sender msg, raw_text msg with
    | Some sender, Some msg_text =>
        let topic_id :=
          match raw_reply_to msg with
          | Some r => if forum e then or_Z (reply_to_top_id r) (reply_to_msg_id r)
                      else None
          | None => None
          end in
        let reply_to_text :=
          match raw_reply_to msg with
          | Some r =>
              if negb (forum e) && truthy_Z (reply_to_msg_id r) then
                if truthy_str (replied_text r)
                then take_chars 200 <$> replied_text r
                else None
              else None
          | None => None
          end in
        Some {| message_id := raw_id msg;
                chat_id := chat_id;
                chat_title := title e;
                chat_username := entity_username e;
                user_id := sender_user_id sender;
                username := sender_username sender;
                first_name := sender_first_name sender;
                text := msg_text;
                date := raw_date msg;
                topic_id := topic_id;
                reply_to_text := reply_to_text |}
    | _, _ => None
    end.

(** [get_new_messages(peer, min_id)].  An error while the entity is resolved
    or while the messages are read is caught and logged; the messages
    gathered until then are returned. *)
Definition get_new_messages (w : World) (p : peer) (min_id : option Z)
  : list ParsedMessage :=
  let chat_id := peer_chat_id p in
  let info := chat_of w p in
  match entity info with
  | Raise _ => []
  | Ok e =>
      let fetched :=
        iter_messages (history info) (match min_id with Some n => n | None => 0 end) 100 in
      let handled :=
        match interrupted info with
        | Some k => firstn k fetched
        | None => fetched
        end in
      omap (parse_message chat_id e) handled
  end.

End UserBot.

(** ** [src/processing/filter.py] *)

Module Filter.

(** The inner loop: whether one of the words occurs in [text_lower]. *)
Fixpoint excluded (words : list string) (text_lower : string) : bool :=
  match words with
  | [] => false
  | word :: rest =>
      if PyStr.contains word text_lower then true else excluded rest text_lower
  end.

Definition filter_messages (cfg : Config) (messages : list ParsedMessage)
  : list ParsedMessage :=
  List.filter
    (fun msg => negb (excluded (exclude_words cfg) (PyStr.lower (text msg))))
    messages.

End Filter.

(** ** [src/telegram/bot.py]: what the cycle uses of the bot *)

Module Bot.

Definition special : list ascii :=
  [ "_"; "*"; "["; "]"; "("; ")"; "~"; "`"; ">"; "#"; "+"; "-"; "=";
    "|"; "{"; "}"; "."; "!" ]%char.

Definition escape_markdown (text : string) : string :=
  if String.eqb text "" then ""
  else
    let bs := String Json.backslash EmptyString in
    fold_left
      (fun t c => PyStr.replace_char c (bs ++ String c EmptyString) t)
      special
      (PyStr.replace_char Json.backslash (bs ++ bs) text).

(** [send_stats] catches and logs its own errors. *)
Definition send_stats (total filtered analyzed leads : Z) : M unit :=
  notify (SendStats total filtered analyzed leads "telegram").

(** The attributes of the class [NotificationBot], as [__init__] and the
    class body list them. *)
Definition attributes : list string :=
  [ "app"; "bot"; "chat_id"; "_process_callback"; "_facebook_callback";
    "_reset_callback"; "is_paused"; "is_facebook_paused"; "last_scan_time";
    "last_facebook_scan_time"; "__init__"; "set_process_callback";
    "set_facebook_callback"; "set_reset_callback"; "start"; "stop";
    "_handle_start"; "_handle_scan"; "_handle_scanfb"; "_handle_callback";
    "_handle_pause"; "_handle_pausefb"; "_handle_resume"; "_handle_resumefb";
    "_handle_status"; "_handle_reset"; "_handle_help"; "send_lead";
    "send_stats"; "send_facebook_lead"; "send_facebook_leads_batch" ].

(** [bot.name]: a name that the instance and its class do not have raises
    [AttributeError]. *)
Definition getattr (name : string) : M unit :=
  if existsb (String.eqb name) attributes then ret tt
  else raise (Exn "AttributeError"
                ("'NotificationBot' object has no attribute '" ++ name ++ "'")).

(** [bot.send_leads_batch(leads_list, source=...)]: the class has no method
    of this name, so the call ends when the attribute is looked up. *)
Definition send_leads_batch (leads_list : list lead) (source : string) : M unit :=
  getattr "send_leads_batch".

End Bot.

(** ** [src/main.py] *)

Module Main.
Import Analyzer.

(** Where a cycle ends. *)
Inductive outcome : Type :=
| NoChats                 (* no chat in the folder *)
| NoMessages              (* nothing fetched *)
| NothingToAnalyze        (* nothing left after the filter *)
| AnalysisIncomplete      (* the analyzer reported a failure *)
| Complete                (* the results were processed and committed *)
| Failed (e : exn).       (* an exception reached the handler of the cycle *)

(** [max(m.message_id for m in messages)] for a non-empty list; 0 stands
    for the [ValueError] on an empty one, which the callers exclude. *)
Definition max_message_id (messages : list ParsedMessage) : Z :=
  match messages with
  | [] => 0
  | m :: rest => fold_left (fun acc x => Z.max acc (message_id x)) rest (message_id m)
  end.

Definition day : Z := 24 * 3600 * 1000000.

(** Step 2: the loop over the peers. *)
Fixpoint collect (w : World) (peers : list peer)
    (all_messages : list ParsedMessage) (chats_to_update : list (Z * Z))
  : M (list ParsedMessage * list (Z * Z)) :=
  match peers with
  | [] => ret (all_messages, chats_to_update)
  | p :: rest =>
      let chat_id := UserBot.peer_chat_id p in
      min_id <- Repository.get_last_message_id w chat_id ;;
      match min_id with
      | None =>
          let messages := UserBot.get_new_messages w p (Some 0) in
          match messages with
          | [] => collect w rest all_messages chats_to_update
          | _ =>
              t <- now w ;;
              let cutoff := t - day in
              let recent_messages :=
                List.filter (fun m => cutoff <? date m) messages in
              let max_msg_id := max_message_id messages in
              collect w rest (all_messages ++ recent_messages)
                (chats_to_update ++ [(chat_id, max_msg_id)])
          end
      | Some _ =>
          let messages := UserBot.get_new_messages w p min_id in
          match messages with
          | [] => collect w rest all_messages chats_to_update
          | _ =>
              let max_msg_id := max_message_id messages in
              collect w rest (all_messages ++ messages)
                (chats_to_update ++ [(chat_id, max_msg_id)])
          end
      end
  end.

(** Step 3: the loop that drops a text already seen. *)
Fixpoint deduplicate (filtered : list ParsedMessage) (seen_texts : gset string)
  : list ParsedMessage :=
  match filtered with
  | [] => []
  | msg :: rest =>
      if decide (text msg ∈ seen_texts) then deduplicate rest seen_texts
      else msg :: deduplicate rest ({[text msg]} ∪ seen_texts)
  end.

(** The filter stage of the cycle: the exclusion words, then the texts
    already seen. *)
Definition filter_stage (cfg : Config) (all_messages : list ParsedMessage)
  : list ParsedMessage :=
  deduplicate (Filter.filter_messages cfg all_messages) ∅.

(** The loop that saves the filtered messages. *)
Fixpoint save_all (w : World) (filtered : list ParsedMessage)
  : M (list (ParsedMessage * Message * ProcessedUser)) :=
  match filtered with
  | [] => ret []
  | msg :: rest =>
      user <- Repository.get_or_create_user w (user_id msg) (username msg)
                (first_name msg) ;;
      db_msg <- Repository.save_message w (message_id msg) (chat_id msg)
                  (chat_title msg) (chat_username msg) user (text msg) (date msg)
                  "telegram" ;;
      saved <- save_all w rest ;;
      ret ((msg, db_msg, user) :: saved)
  end.

Definition format_text_for_analysis (msg : ParsedMessage) : string :=
  if truthy_str (reply_to_text msg) then
    let q := String Json.dquote EmptyString in
    "(↩ " ++ q ++ default "" (reply_to_text msg) ++ q ++ ") " ++ text msg
  else text msg.

(** [[(i, msg.user_id, format(msg)) for i, (msg, _, _) in enumerate(...)]] *)
Fixpoint texts_from (i : Z) (l : list (ParsedMessage * Message * ProcessedUser))
  : list item :=
  match l with
  | [] => []
  | (msg, _, _) :: rest =>
      Item3 i (user_id msg) (format_text_for_analysis msg) :: texts_from (i + 1) rest
  end.

Definition make_lead (msg : ParsedMessage) (confidence reason lead_type : Json.json)
  : lead :=
  let contact :=
    if truthy_str (username msg) then "@" ++ default "" (username msg)
    else
      let name := if truthy_str (first_name msg) then default "" (first_name msg)
                  else "Пользователь" in
      "[" ++ Bot.escape_markdown name ++ "](tg://user?id="
          ++ PyStr.of_Z (user_id msg) ++ ")" in
  let tail :=
    if truthy_Z (topic_id msg)
    then PyStr.of_Z (default 0 (topic_id msg)) ++ "/" ++ PyStr.of_Z (message_id msg)
    else PyStr.of_Z (message_id msg) in
  let msg_link :=
    if truthy_str (chat_username msg)
    then "https://t.me/" ++ default "" (chat_username msg) ++ "/" ++ tail
    else
      let chat_id_positive := Z.abs (chat_id msg) mod 10 ^ 10 in
      "https://t.me/c/" ++ PyStr.of_Z chat_id_positive ++ "/" ++ tail in
  let chat_title_safe :=
    Bot.escape_markdown
      (if truthy_str (chat_title msg) then default "" (chat_title msg) else "Чат") in
  {| contact := contact;
     chat_link := "[" ++ chat_title_safe ++ "](" ++ msg_link ++ ")";
     lead_text := text msg;
     lead_confidence := confidence;
     lead_reason := reason;
     lead_type := lead_type |}.

Definition raise_of {A : Type} (r : Result A) : M A :=
  match r with Ok a => ret a | Raise e => raise e end.

(** Step 5: the loop over the saved messages and their results. *)
Fixpoint process_results (w : World) (i : Z)
    (filtered_messages : list (ParsedMessage * Message * ProcessedUser))
    (analysis_results : pydict) (leads_list : list lead) (leads_found : Z)
  : M (list lead * Z) :=
  match filtered_messages with
  | [] => ret (leads_list, leads_found)
  | (msg, db_msg, user) :: rest =>
      match dict_get analysis_results i with
      | None => process_results w (i + 1) rest analysis_results leads_list leads_found
      | Some (is_lead, reason, confidence, lead_type) =>
          Repository.update_message_lead_status w (msg_id db_msg) is_lead
            confidence reason ;;;
          if is_lead then
            raise_of (format_percent confidence) ;;;
            process_results w (i + 1) rest analysis_results
              (leads_list ++ [make_lead msg confidence reason lead_type])
              (leads_found + 1)
          else
            process_results w (i + 1) rest analysis_results leads_list leads_found
      end
  end.

(** Step 6: the loop over [chats_to_update]. *)
Fixpoint update_chat_states (w : World) (chats_to_update : list (Z * Z)) : M unit :=
  match chats_to_update with
  | [] => ret tt
  | (chat_id, max_msg_id) :: rest =>
      Repository.update_last_message_id w chat_id max_msg_id ;;;
      update_chat_states w rest
  end.

Definition len {A : Type} (l : list A) : Z := Z.of_nat (length l).

(** The statements of [process_cycle] that follow the call of the analyzer
    (the test of the flag and steps 5 to 7), given what the analyzer
    returns, [(analysis_results, analysis_success)]: give up, or process the
    results and commit. *)
Definition after_analysis (w : World) (total_messages : Z)
    (filtered_messages : list (ParsedMessage * Message * ProcessedUser))
    (chats_to_update : list (Z * Z)) (analysis : pydict * bool) : M outcome :=
  let '(analysis_results, analysis_success) := analysis in
  if negb analysis_success then
    Bot.send_stats total_messages (len filtered_messages) 0 0 ;;;
    ret AnalysisIncomplete
  else
    processed <-
      process_results w 0 filtered_messages analysis_results [] 0 ;;
    let '(leads_list, leads_found) := processed in
    match leads_list with
    | [] => ret tt
    | _ => Bot.send_leads_batch leads_list "telegram"
    end ;;;
    update_chat_states w chats_to_update ;;;
    Bot.send_stats total_messages (len filtered_messages)
      (len filtered_messages) leads_found ;;;
    ret Complete.

(** The callback of the [/reset] command. *)
Definition reset_chat_states (w : World) (st : St) : Result Json.json * St :=
  let body := count <- Repository.call0 "reset_telegram_chat_states" ;; ret count in
  body st.

End Main.

(** ** [src/main.py]: the two cycles *)

(** [analyze_messages_batch(texts_to_analyze, prompt_type=prompt_type)], the
    call of both cycles: the function takes [texts], [batch_size] and
    [max_parallel], so the call raises [TypeError] before its body is
    entered. *)
Definition analyze_with_prompt_type {A : Type} : M A :=
  raise (Exn "TypeError"
           "analyze_messages_batch() got an unexpected keyword argument 'prompt_type'").

Module Telegram.
Import Main.

(** The body of the [try] block of [process_cycle].  The statements after
    the call of the analyzer (steps 5 to 7, [Main.after_analysis]) are not
    reached. *)
Definition cycle_body (w : World) : M outcome :=
  peers <- raise_of (folder_chats w) ;;
  match peers with
  | [] => Bot.send_stats 0 0 0 0 ;;; ret NoChats
  | _ =>
      collected <- collect w peers [] [] ;;
      let '(all_messages, chats_to_update) := collected in
      let total_messages := len all_messages in
      match all_messages with
      | [] => Bot.send_stats 0 0 0 0 ;;; ret NoMessages
      | _ =>
          let filtered := filter_stage (config w) all_messages in
          filtered_messages <- save_all w filtered ;;
          match filtered_messages with
          | [] => Bot.send_stats total_messages 0 0 0 ;;; ret NothingToAnalyze
          | _ => analyze_with_prompt_type
          end
      end
  end.

(** [process_cycle]: the handler logs an exception, and [finally] closes
    the session. *)
Definition process_cycle (w : World) (st : St) : outcome * St :=
  match cycle_body w st with
  | (Ok o, st') => (o, st')
  | (Raise e, st') => (Failed e, st')
  end.

End Telegram.

(** ** [src/main.py]: the Facebook cycle *)

Module Facebook.
Import Main.

(** [src/facebook/scraper.py]: [ParsedPost] *)
Record ParsedPost : Type := {
  post_id : string;
  group_id : string;
  group_name : string;
  author_name : string;
  author_id : option string;
  post_text : string;
  timestamp : Z;
  post_url : string;
}.

(** A member of the list [get_user_groups] returns: a dictionary with the
    keys [id], [name] and [url]. *)
Record Group : Type := {
  g_id : string;
  g_name : string;
  g_url : string;
}.

(** What the browser and the environment give. *)
Record Scraper : Type := {
  get_user_groups : Result (list Group);
  (** [get_groups_posts_parallel(groups, limit_per_group, max_workers,
      processed_ids)], the limit being the one of the configuration *)
  get_groups_posts_parallel :
    list Group -> nat -> gset string -> Result (list ParsedPost);
  (** whether [os.environ.get("TEST_MODE")] is true *)
  TEST_MODE : bool;
}.

(** Where a Facebook cycle ends. *)
Inductive outcome : Type :=
| NoGroups                (* the user is in no group *)
| NoPosts                 (* nothing fetched *)
| NothingNew              (* every fetched post is processed already *)
| AllExcluded             (* nothing left after the exclusion words *)
| Failed (e : exn).       (* an exception reached the handler of the cycle *)

(** [try: c except Exception as e: handler(e)] *)
Definition try_except {A : Type} (c : M A) (handler : exn -> M A) : M A :=
  fun st =>
    match c st with
    | (Ok a, st') => (Ok a, st')
    | (Raise e, st') => handler e st'
    end.

(** [bot.send_stats(total, filtered, analyzed, leads, source="facebook")] *)
Definition send_stats (total filtered analyzed leads : Z) : M unit :=
  notify (SendStats total filtered analyzed leads "facebook").

(** The ids of the processed posts, for the early stop of the scraper: a
    query of the session, counted like a call of a repository method; when
    it fails the set stays empty. *)
Definition load_processed_ids (w : World) : M (gset string) :=
  try_except
    (db_call w ;;;
     d <- get_db ;;
     ret (dom (facebook_processed_posts d)))
    (fun _ => ret ∅).

Definition max_workers (fb : Scraper) : nat := if TEST_MODE fb then 1%nat else 3%nat.

Definition scanned (fb : Scraper) (groups : list Group) : list Group :=
  if TEST_MODE fb then firstn 3 groups else groups.

(** Step 3: the loop that keeps the posts not processed yet. *)
Fixpoint select_new (w : World) (all_posts : list ParsedPost)
  : M (list ParsedPost) :=
  match all_posts with
  | [] => ret []
  | post :: rest =>
      processed <- Repository.is_facebook_post_processed w (post_id post) ;;
      new_posts <- select_new w rest ;;
      ret (if processed then new_posts else post :: new_posts)
  end.

(** Step 4: the exclusion words. *)
Definition filter_posts (cfg : Config) (new_posts : list ParsedPost)
  : list ParsedPost :=
  List.filter
    (fun post =>
       negb (Filter.excluded (exclude_words cfg) (PyStr.lower (post_text post))))
    new_posts.

(** The body of the [try] block of [process_facebook_cycle].  The statements
    after the call of the analyzer (steps 6 to 11) are not reached. *)
Definition cycle_body (w : World) (fb : Scraper) : M outcome :=
  groups <- raise_of (get_user_groups fb) ;;
  match groups with
  | [] => send_stats 0 0 0 0 ;;; ret NoGroups
  | _ =>
      processed_ids <- load_processed_ids w ;;
      all_posts <- raise_of (get_groups_posts_parallel fb (scanned fb groups)
                               (max_workers fb) processed_ids) ;;
      let total_posts := len all_posts in
      match all_posts with
      | [] => send_stats 0 0 0 0 ;;; ret NoPosts
      | _ =>
          new_posts <- select_new w all_posts ;;
          match new_posts with
          | [] => send_stats total_posts 0 0 0 ;;; ret NothingNew
          | _ =>
              match filter_posts (config w) new_posts with
              | [] =>
                  Repository.mark_facebook_posts_batch w
                    (map (fun p => (post_id p, group_id p)) new_posts) ;;;
                  send_stats total_posts 0 0 0 ;;;
                  ret AllExcluded
              | _ => analyze_with_prompt_type
              end
          end
      end
  end.

(** [process_facebook_cycle]: the start time is read, the handler logs an
    exception, and [finally] closes the session. *)
Definition process_facebook_cycle (w : World) (fb : Scraper) (st : St)
  : outcome * St :=
  match (now w ;;; cycle_body w fb) st with
  | (Ok o, st') => (o, st')
  | (Raise e, st') => (Failed e, st')
  end.

End Facebook.

(** ** Observations on a state, and sample worlds *)

(** The stored watermark of a chat: [get_last_message_id] without the call. *)
Definition watermark (st : St) (chat_id : Z) : option Z :=
  last_message_id <$> chat_state (db st) !! chat_id.

Definition is_stats (n : notification) : bool :=
  match n with SendStats _ _ _ _ _ => true end.

(** The number of stats summaries among the calls of the bot. *)
Definition stats_count (l : list notification) : nat :=
  length (List.filter is_stats l).

(** A computation relates the state it starts in to the state it ends in. *)
Definition preserves {A : Type} (P : St -> St -> Prop) (c : M A) : Prop :=
  forall st r st', c st = (r, st') -> P st st'.

(** A relation between states that only looks at some component. *)
Definition respects {X : Type} (f : St -> X) (st st' : St) : Prop := f st' = f st.

(** An observation that depends on nothing but the calls of the bot, the
    watermarks and the processed posts. *)
Definition stable {X : Type} (f : St -> X) : Prop :=
  forall st d n k,
    chat_state d = chat_state (db st) ->
    facebook_processed_posts d = facebook_processed_posts (db st) ->
    f {| db := d; db_calls := n; clock_reads := k; sent := sent st |} = f st.

(** The chat ids under which the cycle files the peers. *)
Definition chat_ids (peers : list peer) : list Z := map UserBot.peer_chat_id peers.

(** The fetch the cycle makes for a peer, given the stored watermark: from 0
    for a new chat, from the watermark otherwise. *)
Definition fetched (w : World) (st : St) (p : peer) : list ParsedMessage :=
  match watermark st (UserBot.peer_chat_id p) with
  | None => UserBot.get_new_messages w p (Some 0)
  | Some n => UserBot.get_new_messages w p (Some n)
  end.

(** The entries of [chats_to_update] that the fetch stage gathers: one for
    each peer whose fetch is not empty. *)
Definition updates_of (w : World) (st : St) (peers : list peer) : list (Z * Z) :=
  flat_map
    (fun p => match fetched w st p with
              | [] => []
              | m :: ms => [(UserBot.peer_chat_id p, Main.max_message_id (m :: ms))]
              end)
    peers.

(** The ids of a history go down strictly: newest first. *)
Fixpoint descending (history : list RawMessage) : bool :=
  match history with
  | a :: (b :: _) as rest => (raw_id b <? raw_id a) && descending rest
  | _ => true
  end.

(** The state after a call of [update_last_message_id]. *)
Definition advance (w : World) (chat_id message_id : Z) (st : St) : St :=
  snd (Repository.update_last_message_id w chat_id message_id st).

Module Sample.

Definition empty_db : DB :=
  {| processed_users := []; messages := []; chat_state := ∅;
     facebook_processed_posts := ∅ |}.

Definition st0 : St :=
  {| db := empty_db; db_calls := 0; clock_reads := 0; sent := [] |}.

Definition bob : Sender :=
  {| sender_user_id := 77; sender_username := Some "bob";
     sender_first_name := None |}.

Definition raw (id : Z) (t : string) (d : Z) : RawMessage :=
  {| raw_id := id; raw_text := Some t; raw_sender_id := Some 77;
     raw_sender := Some bob; raw_date := d; raw_reply_to := None |}.

Definition flats : Entity :=
  {| title := Some "Flats"; entity_username := None; forum := false |}.

Definition cfg : Config :=
  {| exclude_words := []; BATCH_PROMPT := fun m => "Classify: " ++ m |}.

Definition noon : Z := 100 * Main.day.

(** One chat, new to the database, with a message of this day and one that
    is ten days old; the provider answers every call with [answer]. *)
Definition world (answer : Result string) : World :=
  {| config := cfg;
     folder_chats := Ok [PeerChannel 1];
     chat_of := fun _ =>
       {| entity := Ok flats;
          history := [raw 12 "Selling car" (noon - 5);
                      raw 11 "old flat" (noon - 10 * Main.day)];
          interrupted := None |};
     clock := fun _ => noon;
     db_fails := fun _ => false;
     llm := fun _ _ _ => answer |}.

Definition q : string := String Json.dquote EmptyString.

(** A provider that is down, one that finds nothing, one that finds a lead. *)
Definition down : Result string := Raise (Exn "HTTPStatusError" "500 Internal Server Error").
Definition nothing : Result string := Ok "[]".
Definition one_lead : Result string :=
  Ok ("[{" ++ q ++ "id" ++ q ++ ": 0, " ++ q ++ "confidence" ++ q ++ ": 0.9}]").

(** Telegram cannot be reached. *)
Definition offline : World :=
  {| config := cfg;
     folder_chats := Raise (Exn "ConnectionError" "Cannot send requests while disconnected");
     chat_of := chat_of (world nothing);
     clock := fun _ => noon;
     db_fails := fun _ => false;
     llm := fun _ _ _ => nothing |}.

(** Three batches of one item; the provider fails on the second batch and
    reports the item of any other batch as a lead. *)
Definition second_fails (k attempt : nat) (prompt : string) : Result string :=
  if (k =? 1)%nat then down
  else Ok ("[{" ++ q ++ "id" ++ q ++ ": " ++ PyStr.of_Z (Z.of_nat k) ++ "}]").

Definition three_items : list Analyzer.item :=
  [Analyzer.Item2 0 "flat for sale"; Analyzer.Item2 1 "car for sale";
   Analyzer.Item2 2 "house for sale"].

(** A chat, new to the database, with 150 messages of this day, numbered
    from 150 down to 1. *)
Definition busy : World :=
  {| config := cfg;
     folder_chats := Ok [PeerChannel 1];
     chat_of := fun _ =>
       {| entity := Ok flats;
          history := map (fun i => raw (Z.of_nat i) "Selling car" (noon - 5))
                       (List.rev (seq 1 150));
          interrupted := None |};
     clock := fun _ => noon;
     db_fails := fun _ => false;
     llm := fun _ _ _ => nothing |}.

Definition parsed (id : Z) (t : string) : ParsedMessage :=
  {| message_id := id; chat_id := 1; chat_title := Some "Flats";
     chat_username := None; user_id := 77; username := Some "bob";
     first_name := None; text := t; date := noon; topic_id := None;
     reply_to_text := None |}.

Definition four_texts : list ParsedMessage :=
  [parsed 1 "Selling car"; parsed 2 "selling car"; parsed 3 "Selling CAR";
   parsed 4 "House for rent"].

End Sample.

(** ** Further observations *)

(** What attempt [j] of a batch comes to: the error of the provider, or what
    the answer yields. *)
Definition attempt_outcome (call_llm : nat -> string -> Result string)
    (prompt : string) (j : nat) : Result Analyzer.pydict :=
  match call_llm j prompt with
  | Raise e => Raise e
  | Ok result_text => Analyzer.leads_of_response result_text
  end.

(** An attempt that ends in an error taken for a rate limit. *)
Definition throttled (call_llm : nat -> string -> Result string)
    (prompt : string) (j : nat) : bool :=
  match attempt_outcome call_llm prompt j with
  | Raise e => Analyzer.rate_limited (exn_str e)
  | Ok _ => false
  end.

(** The prompt of a batch. *)
Definition prompt_for (BATCH_PROMPT : string -> string)
    (messages : list Analyzer.item) : string :=
  BATCH_PROMPT
    (PyStr.join (Analyzer.newline ++ Analyzer.newline)
       (map Analyzer.format_item messages)).

(** The lead flag of a verdict. *)
Definition verdict_is_lead (v : Analyzer.verdict) : bool :=
  let '(is_lead, _, _, _) := v in is_lead.

(** Every verdict of a dictionary says lead. *)
Definition all_leads (d : Analyzer.pydict) : Prop :=
  Forall (fun kv => verdict_is_lead (snd kv) = true) d.

Module Provider.

(** A provider that answers the first [k] attempts with a rate-limit error
    and the later ones with an empty list. *)
Definition throttled_until (k : nat) (attempt : nat) (prompt : string)
  : Result string :=
  if (attempt <? k)%nat
  then Raise (Exn "ResourceExhausted" "429 Too Many Requests, retry in 20s")
  else Ok "[]".

Definition one_item : list Analyzer.item := [Analyzer.Item2 0 "flat for sale"].

End Provider.

(** [len(s)]: the characters of [s], a continuation byte belonging to the
    character before it. *)
Fixpoint char_length (s : string) : nat :=
  match s with
  | EmptyString => 0%nat
  | String c s' =>
      let b := nat_of_ascii c in
      if ((128 <=? b)%nat && (b <? 192)%nat) then char_length s'
      else S (char_length s')
  end.

Module Exclusions.

(** A configuration whose list of exclusion words holds an empty line. *)
Definition with_blank : Config :=
  {| exclude_words := ["spam"; ""]; BATCH_PROMPT := BATCH_PROMPT Sample.cfg |}.

(** A configuration that excludes advertisements. *)
Definition adverts : Config :=
  {| exclude_words := ["реклама"; "promo"]; BATCH_PROMPT := BATCH_PROMPT Sample.cfg |}.

End Exclusions.

Module Replies.

(** A chat in which the newest message answers the one before it. *)
Definition header : ReplyHeader :=
  {| reply_to_top_id := None; reply_to_msg_id := Some 11;
     replied_text := Some "old flat" |}.

Definition answer : RawMessage :=
  {| raw_id := 12; raw_text := Some "I take it"; raw_sender_id := Some 77;
     raw_sender := Some Sample.bob; raw_date := Sample.noon;
     raw_reply_to := Some header |}.

Definition world : World :=
  {| config := Sample.cfg;
     folder_chats := Ok [PeerChannel 1];
     chat_of := fun _ =>
       {| entity := Ok Sample.flats;
          history := [answer; Sample.raw 11 "old flat" (Sample.noon - 5)];
          interrupted := None |};
     clock := fun _ => Sample.noon;
     db_fails := fun _ => false;
     llm := fun _ _ _ => Sample.nothing |}.

(** What the fetch makes of [answer]. *)
Definition parsed_answer : ParsedMessage :=
  {| message_id := 12; chat_id := 1; chat_title := Some "Flats";
     chat_username := None; user_id := 77; username := Some "bob";
     first_name := None; text := "I take it"; date := Sample.noon;
     topic_id := None; reply_to_text := Some "old flat" |}.

End Replies.

(** Marking the posts of a list one call at a time. *)
Fixpoint mark_each (w : World) (posts : list (string * string)) : M unit :=
  match posts with
  | [] => ret tt
  | (post_id, group_id) :: rest =>
      Repository.mark_facebook_post_processed w post_id group_id ;;;
      mark_each w rest
  end.

(** The group each processed post is filed under. *)
Definition groups_of (st : St) : gmap string string :=
  fp_group_id <$> facebook_processed_posts (db st).

(** A stored message without what the analysis writes to it. *)
Definition unanalysed (m : Message) : Message :=
  {| msg_id := msg_id m;
     msg_telegram_message_id := msg_telegram_message_id m;
     msg_chat_id := msg_chat_id m;
     msg_chat_title := msg_chat_title m;
     msg_chat_username := msg_chat_username m;
     msg_user_id := msg_user_id m;
     msg_text := msg_text m;
     msg_is_lead := None;
     msg_confidence := None;
     msg_reason := None;
     msg_created_at := msg_created_at m;
     msg_analyzed_at := None;
     msg_source := msg_source m |}.

(** The Telegram ids of the stored users. *)
Definition telegram_ids (st : St) : list Z :=
  map pu_telegram_user_id (processed_users (db st)).

Module Users.

Definition w : World := Sample.world Sample.nothing.

(** The row of the first user of an empty database. *)
Definition bob_row : ProcessedUser :=
  {| pu_id := 1; pu_telegram_user_id := 77; pu_username := Some "bob";
     pu_first_name := None |}.

(** The user 77 is stored, and looked up again under other names. *)
Definition first : Result ProcessedUser * St :=
  Repository.get_or_create_user w 77 (Some "bob") None Sample.st0.

Definition second : Result ProcessedUser * St :=
  Repository.get_or_create_user w 77 (Some "robert") (Some "Rob") (snd first).

(** The state after one message was saved, without a verdict. *)
Definition saved : St :=
  snd (Main.save_all w [Sample.parsed 12 "Selling car"] Sample.st0).

(** What the fetch stage gathers in an empty database. *)
Definition collected : list ParsedMessage * list (Z * Z) :=
  ([{| message_id := 12; chat_id := 1; chat_title := Some "Flats";
       chat_username := None; user_id := 77; username := Some "bob";
       first_name := None; text := "Selling car"; date := Sample.noon - 5;
       topic_id := None; reply_to_text := None |}],
   [(1, 12)]).

Definition after_collect : St :=
  snd (Main.collect w [PeerChannel 1] [] [] Sample.st0).

(** The row saved for that message, with the message and its user. *)
Definition saved_rows : list (ParsedMessage * Message * ProcessedUser) :=
  match fst (Main.save_all w [Sample.parsed 12 "Selling car"] Sample.st0) with
  | Ok rows => rows
  | Raise _ => []
  end.

(** An analysis that found the message to be no lead. *)
Definition no_lead : Analyzer.pydict :=
  [(Analyzer.KInt 0, (false, Json.JStr "", Json.JFloat 1 (-1), Json.JStr "property"))].

Definition judged : Result unit * St :=
  Repository.update_message_lead_status w 1 true (Json.JFloat 9 (-1))
    (Json.JStr "sells a car") saved.

End Users.

Module Posts.

(** Three entries for two posts; the post [p1] is listed under two groups. *)
Definition listed : list (string * string) :=
  [("p1", "g1"); ("p2", "g1"); ("p1", "g2")].

Definition batch : Result unit * St :=
  Repository.mark_facebook_posts_batch Users.w listed Sample.st0.

Definition each : Result unit * St := mark_each Users.w listed Sample.st0.

Definition once : Result unit * St :=
  Repository.mark_facebook_post_processed Users.w "p1" "g1" Sample.st0.

Definition twice : Result unit * St :=
  Repository.mark_facebook_post_processed Users.w "p1" "g1" (snd once).

End Posts.

Module Outage.

(** The world of [Users.w] with a provider that is down. *)
Definition w : World := Sample.world Sample.down.

Definition after_collect : St :=
  snd (Main.collect w [PeerChannel 1] [] [] Sample.st0).

(** The filtered messages are saved. *)
Definition saved : Result (list (ParsedMessage * Message * ProcessedUser)) * St :=
  Main.save_all w (Main.filter_stage (config w) (fst Users.collected))
    after_collect.

Definition rows : list (ParsedMessage * Message * ProcessedUser) :=
  match fst saved with
  | Ok rows => rows
  | Raise _ => []
  end.

End Outage.

(** From [st] to [st'] rows are only added, at the end, and the Telegram
    ids of the users stay distinct. *)
Definition extends (st st' : St) : Prop :=
  processed_users (db st) `prefix_of` processed_users (db st')
  /\ messages (db st) `prefix_of` messages (db st')
  /\ (NoDup (telegram_ids st) -> NoDup (telegram_ids st')).

(** Escaping in one pass: a backslash before each character of [cs]. *)
Fixpoint escape_chars (cs : list ascii) (s : string) : string :=
  match s with
  | EmptyString => EmptyString
  | String c s' =>
      if existsb (Ascii.eqb c) cs
      then String Json.backslash (String c (escape_chars cs s'))
      else String c (escape_chars cs s')
  end.

(** Reading an escaped text back: the character after a backslash stands
    for itself. *)
Fixpoint unescape (s : string) : string :=
  match s with
  | String a (String b rest as tl) =>
      if Ascii.eqb a Json.backslash then String b (unescape rest)
      else String a (unescape tl)
  | String a EmptyString => String a EmptyString
  | EmptyString => EmptyString
  end.

(** The posts the scraper returns in a cycle that starts in [st], when the
    groups are [groups] and the processed ids can be read. *)
Definition scraped (fb : Facebook.Scraper) (st : St) (groups : list Facebook.Group)
  : Result (list Facebook.ParsedPost) :=
  Facebook.get_groups_posts_parallel fb (Facebook.scanned fb groups)
    (Facebook.max_workers fb) (dom (facebook_processed_posts (db st))).

Module Groups.

Definition flats : Facebook.Group :=
  {| Facebook.g_id := "1001"; Facebook.g_name := "Flats";
     Facebook.g_url := "https://web.facebook.com/groups/1001" |}.

Definition post (id text : string) : Facebook.ParsedPost :=
  {| Facebook.post_id := id; Facebook.group_id := "1001";
     Facebook.group_name := "Flats"; Facebook.author_name := "Ann";
     Facebook.author_id := None; Facebook.post_text := text;
     Facebook.timestamp := Sample.noon;
     Facebook.post_url := "https://web.facebook.com/groups/1001/posts/" ++ id |}.

(** A world whose configuration excludes advertisements. *)
Definition w : World :=
  {| config := Exclusions.adverts;
     folder_chats := Ok [];
     chat_of := chat_of (Sample.world Sample.nothing);
     clock := fun _ => Sample.noon;
     db_fails := fun _ => false;
     llm := fun _ _ _ => Sample.nothing |}.

(** A scraper that finds one group with an advertisement and an offer. *)
Definition fb : Facebook.Scraper :=
  {| Facebook.get_user_groups := Ok [flats];
     Facebook.get_groups_posts_parallel := fun _ _ _ =>
       Ok [post "p1" "PROMO: cheap loans"; post "p2" "Selling my flat"];
     Facebook.TEST_MODE := false |}.

(** A scraper that finds nothing but an advertisement. *)
Definition fb_adverts : Facebook.Scraper :=
  {| Facebook.get_user_groups := Ok [flats];
     Facebook.get_groups_posts_parallel := fun _ _ _ =>
       Ok [post "p1" "PROMO: cheap loans"];
     Facebook.TEST_MODE := false |}.

End Groups.

(** From [st] to [st'] nothing is sent and the database stays as it is. *)
Definition quiet (st st' : St) : Prop := sent st' = sent st /\ db st' = db st.

(** * Properties *)

(** ** The classification batcher *)

Section Batcher.
Import Analyzer.

Variable prompt_of : string -> string.
Variable provider : nat -> nat -> string -> Result string.

Lemma success_flag_constant (texts : list item) (batch_size max_parallel : nat) :
  snd (analyze_messages_batch prompt_of provider texts batch_size max_parallel) = true.
Proof. reflexivity. Qed.

Lemma dict_lookup_set_eq (k : pykey) (v : verdict) (d : pydict) :
  is_Some (dict_lookup k (dict_set k v d)).
Proof.
  induction d as [|[k' v'] d IH]; simpl.
  - rewrite decide_True by reflexivity. eauto.
  - destruct (decide (k = k')) as [->|Hne]; simpl.
    + rewrite decide_True by reflexivity. eauto.
    + rewrite decide_False by assumption. exact IH.
Qed.

Lemma dict_lookup_set_keeps (k k0 : pykey) (v : verdict) (d : pydict) :
  is_Some (dict_lookup k d) -> is_Some (dict_lookup k (dict_set k0 v d)).
Proof.
  induction d as [|[k' v'] d IH]; simpl.
  - intros [x Hx]. discriminate.
  - destruct (decide (k0 = k')) as [->|Hne]; simpl.
    + destruct (decide (k = k')); eauto.
    + destruct (decide (k = k')); eauto.
Qed.

Lemma dict_lookup_set_ne (k k0 : pykey) (v : verdict) (d : pydict) :
  k <> k0 -> dict_lookup k (dict_set k0 v d) = dict_lookup k d.
Proof.
  intros Hne. induction d as [|[k' v'] d IH]; simpl.
  - rewrite decide_False by assumption. reflexivity.
  - destruct (decide (k0 = k')) as [->|Hne']; simpl.
    + rewrite !decide_False by assumption. reflexivity.
    + destruct (decide (k = k')); [reflexivity | exact IH].
Qed.

Lemma dict_update_keeps (k : pykey) (other d : pydict) :
  is_Some (dict_lookup k d) -> is_Some (dict_lookup k (dict_update d other)).
Proof.
  unfold dict_update. revert d.
  induction other as [|[k0 v0] other IH]; simpl; intros d Hd; [exact Hd|].
  apply IH, dict_lookup_set_keeps, Hd.
Qed.

Lemma dict_update_adds (k : pykey) (other d : pydict) :
  is_Some (dict_lookup k other) -> is_Some (dict_lookup k (dict_update d other)).
Proof.
  unfold dict_update. revert d.
  induction other as [|[k0 v0] other IH]; simpl; intros d.
  - intros [x Hx]. discriminate.
  - destruct (decide (k = k0)) as [->|Hne]; intros Hk.
    + apply (dict_update_keeps k0 other), dict_lookup_set_eq.
    + apply IH, Hk.
Qed.

Lemma merge_keeps (k : pykey) (results : list (Result pydict)) (d : pydict) :
  is_Some (dict_lookup k d) -> is_Some (dict_lookup k (merge d results)).
Proof.
  unfold merge. revert d.
  induction results as [|r results IH]; simpl; intros d Hd; [exact Hd|].
  apply IH. destruct r; [apply dict_update_keeps|]; exact Hd.
Qed.

Lemma merge_adds (k : pykey) (results : list (Result pydict)) (d other : pydict) :
  In (Ok other) results -> is_Some (dict_lookup k other) ->
  is_Some (dict_lookup k (merge d results)).
Proof.
  unfold merge. revert d.
  induction results as [|r results IH]; simpl; intros d Hin Hk; [contradiction|].
  destruct Hin as [->|Hin].
  - apply (merge_keeps k results), dict_update_adds, Hk.
  - apply IH; assumption.
Qed.

Lemma waves_keeps (k : pykey) (groups : list (list (list item)))
    (start max_parallel : nat) (d : pydict) :
  is_Some (dict_lookup k d) ->
  is_Some (dict_lookup k (waves prompt_of provider groups start max_parallel d)).
Proof.
  revert start d.
  induction groups as [|g groups IH]; simpl; intros start d Hd; [exact Hd|].
  apply IH, merge_keeps, Hd.
Qed.

Lemma gather_lookup (group : list (list item)) (num idx : nat) (batch : list item) :
  group !! idx = Some batch ->
  In (analyze_batch prompt_of (provider (num + idx)%nat) batch 3)
     (gather prompt_of provider group num).
Proof.
  revert num idx.
  induction group as [|b group IH]; intros num idx Hl; [discriminate|].
  destruct idx as [|idx]; simpl in *.
  - injection Hl as ->. left. f_equal. f_equal. lia.
  - right. replace (num + S idx)%nat with (S num + idx)%nat by lia.
    apply IH, Hl.
Qed.

End Batcher.

Section Chunks.
Import Analyzer.
Context {A : Type}.

Lemma chunks_go_lookup (fuel n : nat) (l : list A) (k : nat) :
  (0 < n)%nat -> (length l <= fuel)%nat -> (k * n < length l)%nat ->
  chunks_go fuel n l !! k = Some (firstn n (skipn (k * n) l)).
Proof.
  intros Hn. revert l k.
  induction fuel as [|fuel IH]; intros l k Hlen Hk; [lia|].
  destruct l as [|x l]; [simpl in Hk; lia|].
  destruct k as [|k].
  - reflexivity.
  - cbn [chunks_go]. rewrite lookup_cons. cbn [Nat.mul].
    rewrite IH.
    + rewrite skipn_skipn. replace (k * n + n)%nat with (n + k * n)%nat by lia.
      reflexivity.
    + rewrite length_skipn. simpl in *. lia.
    + rewrite length_skipn. simpl in *. lia.
Qed.

Lemma chunks_go_lookup_inv (fuel n : nat) (l : list A) (k : nat) (b : list A) :
  (0 < n)%nat -> (length l <= fuel)%nat ->
  chunks_go fuel n l !! k = Some b ->
  (k * n < length l)%nat /\ b = firstn n (skipn (k * n) l).
Proof.
  intros Hn. revert l k.
  induction fuel as [|fuel IH]; intros l k Hlen Hb.
  - destruct l; discriminate.
  - destruct l as [|x l]; [discriminate|].
    destruct k as [|k].
    + injection Hb as <-. simpl. split; [lia | reflexivity].
    + cbn [chunks_go] in Hb. rewrite lookup_cons in Hb.
      apply IH in Hb.
      * rewrite length_skipn in Hb. destruct Hb as [Hk ->].
        split; [simpl in *; lia|]. rewrite skipn_skipn.
        cbn [Nat.mul]. replace (k * n + n)%nat with (n + k * n)%nat by lia.
        reflexivity.
      * rewrite length_skipn. simpl in *. lia.
Qed.

Lemma chunks_lookup (n : nat) (l : list A) (k : nat) (b : list A) :
  (0 < n)%nat ->
  chunks n l !! k = Some b <->
  (k * n < length l)%nat /\ b = firstn n (skipn (k * n) l).
Proof.
  intros Hn. unfold chunks. split.
  - apply chunks_go_lookup_inv; [assumption | lia].
  - intros [Hk ->]. apply chunks_go_lookup; [assumption | lia | assumption].
Qed.

(** The element at position [idx] of wave [g] is element [g * n + idx] of the
    list that was cut into waves. *)
Lemma chunks_index (n : nat) (l : list A) (i : nat) (x : A) :
  (0 < n)%nat -> l !! i = Some x ->
  exists group, chunks n l !! (i / n)%nat = Some group
                /\ group !! (i mod n)%nat = Some x.
Proof.
  intros Hn Hx.
  assert (Hi : (i < length l)%nat) by (eapply lookup_lt_Some; eassumption).
  pose proof (Nat.div_mod_eq i n) as Hdm.
  pose proof (Nat.mod_upper_bound i n ltac:(lia)) as Hmod.
  exists (firstn n (skipn (i / n * n) l)). split.
  - apply chunks_lookup; [assumption|]. split; [nia | reflexivity].
  - rewrite lookup_take_lt by assumption. rewrite lookup_drop.
    replace (i / n * n + i mod n)%nat with i by nia. exact Hx.
Qed.

End Chunks.

Section BatcherResults.
Import Analyzer.

Variable prompt_of : string -> string.
Variable provider : nat -> nat -> string -> Result string.

Lemma waves_adds (k : pykey) (max_parallel : nat)
    (groups : list (list (list item))) (start : nat) (d other : pydict)
    (g idx : nat) (group : list (list item)) (batch : list item) :
  groups !! g = Some group -> group !! idx = Some batch ->
  analyze_batch prompt_of (provider (start + g * max_parallel + idx)%nat) batch 3
    = Ok other ->
  is_Some (dict_lookup k other) ->
  is_Some (dict_lookup k (waves prompt_of provider groups start max_parallel d)).
Proof.
  revert start d g.
  induction groups as [|g0 groups IH]; intros start d g Hg Hidx Hres Hk;
    [discriminate|].
  destruct g as [|g]; simpl in *.
  - injection Hg as ->.
    apply waves_keeps. apply (merge_adds k _ d other); [|exact Hk].
    rewrite <- Hres. replace (start + 0 + idx)%nat with (start + idx)%nat by lia.
    apply gather_lookup, Hidx.
  - eapply IH; [exact Hg | exact Hidx | | exact Hk].
    rewrite <- Hres. do 2 f_equal. lia.
Qed.

(** The verdicts of a batch that succeeded are in the dictionary the call
    returns, whatever happened to the other batches. *)
Lemma successful_batch_kept (texts : list item) (batch_size max_parallel : nat)
    (i : nat) (batch : list item) (d : pydict) (k : pykey) :
  (0 < max_parallel)%nat ->
  chunks batch_size texts !! i = Some batch ->
  analyze_batch prompt_of (provider i) batch 3 = Ok d ->
  is_Some (dict_lookup k d) ->
  is_Some (dict_lookup k
             (fst (analyze_messages_batch prompt_of provider texts
                     batch_size max_parallel))).
Proof.
  intros Hmp Hb Hres Hk. unfold analyze_messages_batch. simpl.
  destruct (chunks_index max_parallel _ i batch Hmp Hb) as (group & Hg & Hidx).
  eapply waves_adds; [exact Hg | exact Hidx | | exact Hk].
  rewrite <- Hres. do 2 f_equal.
  pose proof (Nat.div_mod_eq i max_parallel). simpl. nia.
Qed.

End BatcherResults.

(** C1 (defect).  With three batches of which the second raises an analysis
    error, the call still returns the success flag [true]; the verdicts of
    the first and the third batch are in the returned dictionary. *)
Theorem failed_batch_reported_as_success :
  Analyzer.analyze_batch (BATCH_PROMPT Sample.cfg) (Sample.second_fails 1)
    [Analyzer.Item2 1 "car for sale"] 3
  = Raise (Exn "AnalysisError" "Failed to analyze batch: 500 Internal Server Error")
  /\ Analyzer.analyze_messages_batch (BATCH_PROMPT Sample.cfg) Sample.second_fails
       Sample.three_items 1 3
     = ([(Analyzer.KInt 0,
          (true, Json.JStr "", Json.JFloat 5 (-1), Json.JStr "property"));
         (Analyzer.KInt 2,
          (true, Json.JStr "", Json.JFloat 5 (-1), Json.JStr "property"))],
        true).
Proof. split; vm_compute; reflexivity. Qed.

(** ** Parsing the answer of the provider *)

Section ParseResponse.
Import Json Analyzer.

Lemma parse_response_blank (result_text : string) :
  PyStr.strip result_text = "" -> parse_response result_text = JList [].
Proof. intros H. unfold parse_response. rewrite H. reflexivity. Qed.

(** The result is the empty list or a value that [json.loads] decoded. *)
Lemma parse_response_cases (result_text : string) :
  parse_response result_text = JList []
  \/ exists s, loads s = Some (parse_response result_text).
Proof.
  unfold parse_response.
  destruct (String.eqb (PyStr.strip result_text) ""); [left; reflexivity|].
  match goal with |- context [loads ?s] => destruct (loads s) eqn:E end.
  - right. eexists. exact E.
  - left. reflexivity.
Qed.

Lemma leads_of_empty_list (result_text : string) :
  parse_response result_text = JList [] -> leads_of_response result_text = Ok [].
Proof. intros H. unfold leads_of_response. rewrite H. reflexivity. Qed.

(** A batch whose first answer parses to the empty list succeeds with an
    empty dictionary. *)
Lemma analyze_batch_empty_answer (prompt_of : string -> string)
    (call_llm : nat -> string -> Result string) (messages : list item)
    (result_text : string) :
  messages <> [] ->
  call_llm O (prompt_of (PyStr.join (newline ++ newline) (map format_item messages)))
    = Ok result_text ->
  parse_response result_text = JList [] ->
  analyze_batch prompt_of call_llm messages 3 = Ok [].
Proof.
  intros Hne Hcall Hparse. unfold analyze_batch.
  destruct messages as [|m ms]; [contradiction|].
  cbn [attempts]. rewrite Hcall, (leads_of_empty_list _ Hparse). reflexivity.
Qed.

End ParseResponse.

(** C9 (defect).  The answer [5] is valid JSON without an array:
    [parse_response] returns the number 5, not a list, and the batch then
    fails with an analysis error instead of counting as a success without
    leads. *)
Theorem non_array_answer_breaks_batch :
  Analyzer.parse_response "5" = Json.JInt 5
  /\ Analyzer.leads_of_response "5"
     = Raise (Exn "TypeError" "'int' object is not iterable")
  /\ Analyzer.analyze_batch (BATCH_PROMPT Sample.cfg) (fun _ _ => Ok "5")
       [Analyzer.Item2 0 "flat for sale"] 3
     = Raise (Exn "AnalysisError"
                "Failed to analyze batch: 'int' object is not iterable").
Proof. repeat split; vm_compute; reflexivity. Qed.

(** ** The reset command *)

(** C8 (defect).  The callback of [/reset] calls a method that the class
    [Repository] does not have: it raises [AttributeError], returns no count
    and leaves every stored watermark as it was. *)
Theorem reset_chat_states_raises (w : World) (st : St) :
  Main.reset_chat_states w st
  = (Raise (Exn "AttributeError"
              "'Repository' object has no attribute 'reset_telegram_chat_states'"),
     st).
Proof. reflexivity. Qed.

(** ** The watermark *)

Section Watermark.

Variable w : World.

Lemma advance_sets (s n : Z) (st : St) :
  db_fails w (db_calls st) = false ->
  watermark (advance w s n st) s = Some n
  /\ (forall s', s' <> s -> watermark (advance w s n st) s' = watermark st s')
  /\ db_calls (advance w s n st) = S (db_calls st).
Proof.
  intros Hok. unfold advance, Repository.update_last_message_id, bind, db_call,
    get_db, now, put_db, watermark. rewrite Hok. cbn.
  destruct (chat_state (db st) !! s); cbn.
  - repeat split.
    + rewrite lookup_insert_eq. reflexivity.
    + intros s' Hs'. rewrite lookup_insert_ne by congruence. reflexivity.
  - repeat split.
    + rewrite lookup_insert_eq. reflexivity.
    + intros s' Hs'. rewrite lookup_insert_ne by congruence. reflexivity.
Qed.

(** C3 (amended).  [update_last_message_id] stores the id it is given: after
    advancing a source to [n] and then to [m] the watermark is [m], also
    when [m < n]; the other sources keep their watermark, and repeating an
    advance changes no watermark. *)
Theorem watermark_last_write_wins (s n m : Z) (st : St) :
  db_fails w (db_calls st) = false ->
  db_fails w (S (db_calls st)) = false ->
  watermark (advance w s m (advance w s n st)) s = Some m
  /\ (forall s', s' <> s ->
        watermark (advance w s m (advance w s n st)) s' = watermark st s')
  /\ (forall s', watermark (advance w s n (advance w s n st)) s'
                 = watermark (advance w s n st) s').
Proof.
  intros H0 H1.
  destruct (advance_sets s n st H0) as (Hn & Hframe & Hcalls).
  assert (H1' : db_fails w (db_calls (advance w s n st)) = false)
    by (rewrite Hcalls; exact H1).
  destruct (advance_sets s m _ H1') as (Hm & Hframe' & _).
  destruct (advance_sets s n _ H1') as (Hn' & Hframe'' & _).
  repeat split.
  - exact Hm.
  - intros s' Hs'. rewrite Hframe', Hframe by assumption. reflexivity.
  - intros s'. destruct (decide (s' = s)) as [->|Hs'].
    + rewrite Hn', Hn. reflexivity.
    + apply Hframe''. exact Hs'.
Qed.

End Watermark.

Lemma watermark_last_write_wins_witness :
  db_fails (Sample.world Sample.nothing) (db_calls Sample.st0) = false
  /\ db_fails (Sample.world Sample.nothing) (S (db_calls Sample.st0)) = false
  /\ watermark (advance (Sample.world Sample.nothing) 1 3
                  (advance (Sample.world Sample.nothing) 1 5 Sample.st0)) 1
     = Some 3.
Proof.
  split; [reflexivity|]. split; [reflexivity|].
  apply (watermark_last_write_wins (Sample.world Sample.nothing) 1 5 3 Sample.st0);
    reflexivity.
Defined.

(** C3 (as stated) fails: advancing source 1 to 5 and then to 3 leaves the
    watermark at 3, not at 5. *)
Lemma watermark_regresses :
  3 < 5
  /\ watermark (advance (Sample.world Sample.nothing) 1 3
                  (advance (Sample.world Sample.nothing) 1 5 Sample.st0)) 1
     = Some 3
  /\ watermark (advance (Sample.world Sample.nothing) 1 3
                  (advance (Sample.world Sample.nothing) 1 5 Sample.st0)) 1
     <> Some 5.
Proof. split; [lia|]. split; [reflexivity|]. vm_compute. discriminate. Qed.

(** ** The content filter *)

Section ContentFilter.
Import Main.

Lemma filter_sublist {A : Type} (f : A -> bool) (l : list A) :
  sublist (List.filter f l) l.
Proof.
  induction l as [|x l IH]; simpl; [constructor|].
  destruct (f x); constructor; exact IH.
Qed.

Lemma deduplicate_sublist (l : list ParsedMessage) (seen : gset string) :
  sublist (deduplicate l seen) l.
Proof.
  revert seen. induction l as [|m l IH]; intros seen; simpl; [constructor|].
  destruct (decide (text m ∈ seen)); constructor; apply IH.
Qed.

Lemma deduplicate_fresh (l : list ParsedMessage) (seen : gset string) (x : string) :
  x ∈ map text (deduplicate l seen) -> x ∉ seen.
Proof.
  revert seen. induction l as [|m l IH]; intros seen; simpl.
  - intros H. inversion H.
  - destruct (decide (text m ∈ seen)) as [Hin|Hout]; simpl.
    + apply IH.
    + intros H. apply elem_of_cons in H as [->|H]; [exact Hout|].
      apply IH in H. set_solver.
Qed.

Lemma deduplicate_NoDup (l : list ParsedMessage) (seen : gset string) :
  NoDup (map text (deduplicate l seen)).
Proof.
  revert seen. induction l as [|m l IH]; intros seen; simpl; [constructor|].
  destruct (decide (text m ∈ seen)); simpl; [apply IH|].
  constructor; [|apply IH].
  intros H. apply deduplicate_fresh in H. set_solver.
Qed.

Lemma deduplicate_covers (l : list ParsedMessage) (seen : gset string) (x : string) :
  x ∈ map text l -> x ∈ seen \/ x ∈ map text (deduplicate l seen).
Proof.
  revert seen. induction l as [|m l IH]; intros seen; simpl.
  - intros H. inversion H.
  - intros H. apply elem_of_cons in H as [->|H].
    + destruct (decide (text m ∈ seen)); [left; assumption|].
      right. simpl. apply elem_of_cons. left. reflexivity.
    + destruct (decide (text m ∈ seen)); [apply IH, H|].
      destruct (IH ({[text m]} ∪ seen) H) as [Hs|Hd].
      * apply elem_of_union in Hs as [Hs|Hs]; [|left; exact Hs].
        apply elem_of_singleton in Hs as ->.
        right. simpl. apply elem_of_cons. left. reflexivity.
      * right. simpl. apply elem_of_cons. right. exact Hd.
Qed.

Lemma deduplicate_app (l1 l2 : list ParsedMessage) (seen : gset string) :
  deduplicate (l1 ++ l2) seen
  = (deduplicate l1 seen ++ deduplicate l2 (list_to_set (map text l1) ∪ seen))%list.
Proof.
  revert seen. induction l1 as [|m l1 IH]; intros seen; simpl.
  - replace (∅ ∪ seen) with seen by (apply set_eq; set_solver). reflexivity.
  - destruct (decide (text m ∈ seen)) as [Hin|Hout].
    + rewrite IH.
      replace ({[text m]} ∪ list_to_set (map text l1) ∪ seen)
        with (list_to_set (map text l1) ∪ seen : gset string)
        by (apply set_eq; set_solver).
      reflexivity.
    + simpl. rewrite IH.
      replace ({[text m]} ∪ list_to_set (map text l1) ∪ seen)
        with (list_to_set (map text l1) ∪ ({[text m]} ∪ seen) : gset string)
        by (apply set_eq; set_solver).
      reflexivity.
Qed.

Lemma filter_messages_app (cfg : Config) (l1 l2 : list ParsedMessage) :
  Filter.filter_messages cfg (l1 ++ l2)
  = (Filter.filter_messages cfg l1 ++ Filter.filter_messages cfg l2)%list.
Proof. unfold Filter.filter_messages. apply List.filter_app. Qed.

Lemma filter_messages_single (cfg : Config) (m : ParsedMessage) :
  Filter.filter_messages cfg [m]
  = if Filter.excluded (exclude_words cfg) (PyStr.lower (text m)) then [] else [m].
Proof.
  unfold Filter.filter_messages. simpl.
  destruct (Filter.excluded _ _); reflexivity.
Qed.

(** C5 (amended).  Texts are compared as they are, without trimming and
    with their case: the four sample items all survive an empty exclusion
    list.  In general the stage keeps, in the original order, the first item
    of each text among the items that no exclusion word removes: it yields
    nothing on nothing, and an item added at the end is kept exactly when no
    exclusion word occurs in it and no earlier surviving item has its text. *)
Theorem filter_stage_first_occurrences (cfg : Config) (l : list ParsedMessage)
    (m : ParsedMessage) :
  filter_stage Sample.cfg Sample.four_texts = Sample.four_texts
  /\ filter_stage cfg [] = []
  /\ filter_stage cfg (l ++ [m])
     = (filter_stage cfg l
        ++ (if Filter.excluded (exclude_words cfg) (PyStr.lower (text m))
               || bool_decide (text m ∈ map text (Filter.filter_messages cfg l))
            then [] else [m]))%list
  /\ sublist (filter_stage cfg l) l
  /\ NoDup (map text (filter_stage cfg l))
  /\ (forall x, x ∈ l ->
        Filter.excluded (exclude_words cfg) (PyStr.lower (text x)) = false ->
        text x ∈ map text (filter_stage cfg l)).
Proof.
  split; [vm_compute; reflexivity|].
  split; [reflexivity|].
  split; [|split; [|split]].
  - unfold filter_stage. rewrite filter_messages_app, deduplicate_app.
    f_equal. rewrite filter_messages_single.
    destruct (Filter.excluded (exclude_words cfg) (PyStr.lower (text m)));
      simpl; [reflexivity|].
    case_decide as Hin.
    + rewrite bool_decide_eq_true_2; [reflexivity|].
      apply elem_of_union in Hin as [Hin|Hin]; [|set_solver].
      apply elem_of_list_to_set in Hin. exact Hin.
    + rewrite bool_decide_eq_false_2; [reflexivity|].
      intros Hin'. apply Hin, elem_of_union. left.
      apply elem_of_list_to_set. exact Hin'.
  - unfold filter_stage. etransitivity; [apply deduplicate_sublist|].
    apply filter_sublist.
  - apply deduplicate_NoDup.
  - intros x Hx Hex. unfold filter_stage.
    assert (Hf : text x ∈ map text (Filter.filter_messages cfg l)).
    { apply list_elem_of_In, in_map, List.filter_In. split.
      - apply list_elem_of_In, Hx.
      - rewrite Hex. reflexivity. }
    destruct (deduplicate_covers _ ∅ _ Hf) as [Hs|Hd]; [set_solver | exact Hd].
Qed.

End ContentFilter.

(** C5 (as stated) fails: with no exclusion word the stage yields the four
    sample items, not two; the three spellings of the first text differ as
    texts. *)
Lemma filter_stage_keeps_case_variants :
  length (Main.filter_stage Sample.cfg Sample.four_texts) = 4%nat
  /\ map text (Main.filter_stage Sample.cfg Sample.four_texts)
     = ["Selling car"; "selling car"; "Selling CAR"; "House for rent"]
  /\ length (Main.filter_stage Sample.cfg Sample.four_texts) <> 2%nat.
Proof.
  split; [vm_compute; reflexivity|]. split; [vm_compute; reflexivity|].
  vm_compute. discriminate.
Qed.

(** ** Reasoning about computations *)

Lemma bind_inv {A B : Type} (c : M A) (k : A -> M B) (st : St) (r : Result B)
    (st' : St) :
  bind c k st = (r, st') ->
  (exists a st1, c st = (Ok a, st1) /\ k a st1 = (r, st'))
  \/ (exists e, c st = (Raise e, st') /\ r = Raise e).
Proof.
  unfold bind. destruct (c st) as [[a|e] st1]; intros H.
  - left. eauto.
  - right. injection H as <- <-. eauto.
Qed.

Section Preserves.

Variable P : St -> St -> Prop.
Hypothesis P_refl : forall st, P st st.
Hypothesis P_trans : forall a b c, P a b -> P b c -> P a c.

Lemma preserves_ret {A : Type} (a : A) : preserves P (ret a).
Proof. intros st r st' H. injection H as <- <-. apply P_refl. Qed.

Lemma preserves_raise {A : Type} (e : exn) : preserves P (@raise A e).
Proof. intros st r st' H. injection H as <- <-. apply P_refl. Qed.

Lemma preserves_bind {A B : Type} (c : M A) (k : A -> M B) :
  preserves P c -> (forall a, preserves P (k a)) -> preserves P (bind c k).
Proof.
  intros Hc Hk st r st' H.
  apply bind_inv in H as [(a & st1 & H1 & H2)|(e & H1 & _)].
  - eapply P_trans; [eapply Hc, H1 | eapply Hk, H2].
  - eapply Hc, H1.
Qed.

Lemma preserves_raise_of {A : Type} (r : Result A) : preserves P (Main.raise_of r).
Proof. destruct r; [apply preserves_ret | apply preserves_raise]. Qed.

End Preserves.

Lemma respects_refl {X : Type} (f : St -> X) (st : St) : respects f st st.
Proof. reflexivity. Qed.

Lemma respects_trans {X : Type} (f : St -> X) (a b c : St) :
  respects f a b -> respects f b c -> respects f a c.
Proof. unfold respects. congruence. Qed.

Ltac preserve :=
  repeat lazymatch goal with
    | |- preserves _ (ret _) => apply preserves_ret; apply respects_refl
    | |- preserves _ (raise _) => apply preserves_raise; apply respects_refl
    | |- preserves _ (Main.raise_of _) => apply preserves_raise_of; apply respects_refl
    | |- preserves _ (bind _ _) =>
        apply preserves_bind; [apply respects_trans | | intros ?]
    end.

Section Frames.

Variable w : World.

Lemma now_frame {X : Type} (f : St -> X) :
  (forall st, f {| db := db st; db_calls := db_calls st;
                   clock_reads := S (clock_reads st); sent := sent st |} = f st) ->
  preserves (respects f) (now w).
Proof. intros Hf st r st' H. injection H as <- <-. apply Hf. Qed.

Lemma db_call_frame {X : Type} (f : St -> X) :
  (forall st, f {| db := db st; db_calls := S (db_calls st);
                   clock_reads := clock_reads st; sent := sent st |} = f st) ->
  preserves (respects f) (db_call w).
Proof.
  intros Hf st r st' H. unfold db_call in H.
  destruct (db_fails w (db_calls st)); injection H as <- <-; apply Hf.
Qed.

Lemma get_db_frame {X : Type} (f : St -> X) : preserves (respects f) get_db.
Proof. intros st r st' H. injection H as <- <-. reflexivity. Qed.

Context {X : Type} (f : St -> X) (Hf : stable f).

Lemma stable_now : preserves (respects f) (now w).
Proof. apply now_frame. intros st. apply Hf; reflexivity. Qed.

Lemma stable_db_call : preserves (respects f) (db_call w).
Proof. apply db_call_frame. intros st. apply Hf; reflexivity. Qed.

(** Reading a watermark, saving a user or a message and recording a verdict
    leave the watermarks, the processed posts and the calls of the bot as
    they are. *)
Lemma get_last_message_id_stable (c : Z) :
  preserves (respects f) (Repository.get_last_message_id w c).
Proof.
  unfold Repository.get_last_message_id. preserve.
  - apply stable_db_call.
  - apply get_db_frame.
Qed.

Lemma get_or_create_user_stable (u : Z) (n fn : option string) :
  preserves (respects f) (Repository.get_or_create_user w u n fn).
Proof.
  unfold Repository.get_or_create_user.
  apply preserves_bind; [apply respects_trans | apply stable_db_call | intros _].
  intros st r st' H. unfold bind, get_db in H.
  destruct (Repository.find_user _ _).
  - injection H as <- <-. reflexivity.
  - cbn in H. injection H as <- <-. apply Hf; reflexivity.
Qed.

Lemma save_message_stable (i c : Z) (t u : option string) (user : ProcessedUser)
    (x : string) (d : Z) (s : string) :
  preserves (respects f) (Repository.save_message w i c t u user x d s).
Proof.
  unfold Repository.save_message.
  apply preserves_bind; [apply respects_trans | apply stable_db_call | intros _].
  intros st r st' H. cbn in H. injection H as <- <-. apply Hf; reflexivity.
Qed.

Lemma update_message_lead_status_stable (i : Z) (b : bool) (c r : Json.json) :
  preserves (respects f) (Repository.update_message_lead_status w i b c r).
Proof.
  unfold Repository.update_message_lead_status.
  apply preserves_bind; [apply respects_trans | apply stable_db_call | intros _].
  intros st r0 st' H. unfold bind, get_db in H.
  destruct (existsb _ _).
  - cbn in H. injection H as <- <-. apply Hf; reflexivity.
  - injection H as <- <-. reflexivity.
Qed.

End Frames.

Lemma stable_sent : stable sent.
Proof. intros st d n k _ _. reflexivity. Qed.

Lemma stable_processed_posts : stable (fun st => facebook_processed_posts (db st)).
Proof. intros st d n k _ H. exact H. Qed.

Lemma update_last_message_id_sent (w : World) (c m : Z) :
  preserves (respects sent) (Repository.update_last_message_id w c m).
Proof.
  intros st r st' H. unfold Repository.update_last_message_id, bind, db_call,
    get_db, now, put_db in H.
  destruct (db_fails w (db_calls st)); [injection H as <- <-; reflexivity|].
  cbn in H. destruct (chat_state (db st) !! c); cbn in H;
    injection H as <- <-; reflexivity.
Qed.

Lemma update_last_message_id_posts (w : World) (c m : Z) :
  preserves (respects (fun st => facebook_processed_posts (db st)))
    (Repository.update_last_message_id w c m).
Proof.
  intros st r st' H. unfold Repository.update_last_message_id, bind, db_call,
    get_db, now, put_db in H.
  destruct (db_fails w (db_calls st)); [injection H as <- <-; reflexivity|].
  cbn in H. destruct (chat_state (db st) !! c); cbn in H;
    injection H as <- <-; reflexivity.
Qed.

(** ** The stages of the cycle *)

Section Stages.
Import Analyzer Main.

Variable w : World.

Section StableStages.

Context {X : Type} (f : St -> X) (Hf : stable f).

Lemma collect_stable (peers : list peer) (all : list ParsedMessage)
    (upd : list (Z * Z)) :
  preserves (respects f) (collect w peers all upd).
Proof.
  revert all upd. induction peers as [|p peers IH]; intros all upd; cbn [collect].
  - preserve.
  - apply preserves_bind;
      [apply respects_trans | apply get_last_message_id_stable, Hf | intros min_id].
    destruct min_id as [n|].
    + destruct (UserBot.get_new_messages w p (Some n)); apply IH.
    + destruct (UserBot.get_new_messages w p (Some 0)); [apply IH|].
      apply preserves_bind;
        [apply respects_trans | apply stable_now, Hf | intros t; apply IH].
Qed.

Lemma save_all_stable (filtered : list ParsedMessage) :
  preserves (respects f) (save_all w filtered).
Proof.
  induction filtered as [|m filtered IH]; cbn [save_all]; preserve.
  - apply get_or_create_user_stable, Hf.
  - apply save_message_stable, Hf.
  - apply IH.
Qed.

Lemma process_results_stable (i : Z)
    (fm : list (ParsedMessage * Message * ProcessedUser)) (res : pydict)
    (leads_list : list lead) (found : Z) :
  preserves (respects f) (process_results w i fm res leads_list found).
Proof.
  revert i leads_list found.
  induction fm as [|[[m dm] u] fm IH]; intros i leads_list found;
    cbn [process_results].
  - preserve.
  - destruct (dict_get res i) as [[[[is_lead reason] confidence] lt]|]; [|apply IH].
    apply preserves_bind;
      [apply respects_trans | apply update_message_lead_status_stable, Hf | intros _].
    destruct is_lead; [|apply IH].
    apply preserves_bind;
      [apply respects_trans | apply preserves_raise_of, respects_refl | intros _].
    apply IH.
Qed.

End StableStages.

Lemma update_chat_states_sent (upd : list (Z * Z)) :
  preserves (respects sent) (update_chat_states w upd).
Proof.
  induction upd as [|[c m] upd IH]; cbn [update_chat_states]; preserve.
  - apply update_last_message_id_sent.
  - apply IH.
Qed.

Lemma update_chat_states_posts (upd : list (Z * Z)) :
  preserves (respects (fun st => facebook_processed_posts (db st)))
    (update_chat_states w upd).
Proof.
  induction upd as [|[c m] upd IH]; cbn [update_chat_states]; preserve.
  - apply update_last_message_id_posts.
  - apply IH.
Qed.

End Stages.

Section CycleStats.
Import Analyzer Main.

Variable w : World.

Lemma notify_sent (n : notification) (st : St) (r : Result unit) (st' : St) :
  notify n st = (r, st') -> r = Ok tt /\ sent st' = (sent st ++ [n])%list.
Proof. intros H. injection H as <- <-. split; reflexivity. Qed.

(** When the analyzer reports a failure, the cycle leaves the database as it
    is: no watermark moves and no row is added or changed. *)
Lemma reported_failure_commits_nothing (total : Z)
    (fm : list (ParsedMessage * Message * ProcessedUser)) (upd : list (Z * Z))
    (res : pydict) :
  preserves (respects db) (after_analysis w total fm upd (res, false)).
Proof.
  intros st r st' H. cbn in H. injection H as <- <-. reflexivity.
Qed.

End CycleStats.

(** ** Zero results *)

Section ZeroResults.
Import Json Analyzer Main.

Lemma dict_lookup_set_absent (k k0 : pykey) (v : verdict) (d : pydict) :
  k <> k0 -> dict_lookup k d = None -> dict_lookup k (dict_set k0 v d) = None.
Proof. intros Hne Hd. rewrite dict_lookup_set_ne by assumption. exact Hd. Qed.

Lemma comprehension_absent (i : Z) (rs : list json) (acc d : pydict) :
  (forall r id, r ∈ rs -> py_index r "id" = Ok id -> key_of id <> Ok (KInt i)) ->
  dict_lookup (KInt i) acc = None ->
  comprehension rs acc = Ok d ->
  dict_lookup (KInt i) d = None.
Proof.
  revert acc. induction rs as [|r rs IH]; intros acc Habs Hacc H; cbn in H.
  - injection H as <-. exact Hacc.
  - destruct (py_index r "id") as [id|e] eqn:Hid; [|discriminate].
    destruct (key_of id) as [k|e] eqn:Hk; [|discriminate].
    destruct (py_get r "reason" (JStr "")) as [reason|e]; [|discriminate].
    destruct (py_get r "confidence" (JFloat 5 (-1))) as [confidence|e]; [|discriminate].
    destruct (py_get r "type" (JStr "property")) as [lead_type|e]; [|discriminate].
    eapply IH; [| |exact H].
    + intros r' id' Hr'. apply Habs. apply elem_of_cons. right. exact Hr'.
    + apply dict_lookup_set_absent; [|exact Hacc].
      intros <-. eapply Habs; [apply elem_of_cons; left; reflexivity | exact Hid|].
      exact Hk.
Qed.

(** With an empty dictionary the loop over the saved messages passes over
    every item: it changes nothing and adds no lead. *)
Lemma process_results_empty (w : World) (i : Z)
    (fm : list (ParsedMessage * Message * ProcessedUser))
    (leads_list : list lead) (leads_found : Z) (st : St) :
  process_results w i fm [] leads_list leads_found st
  = (Ok (leads_list, leads_found), st).
Proof.
  revert i. induction fm as [|[[m dm] u] fm IH]; intros i; [reflexivity|].
  cbn [process_results dict_get dict_lookup]. apply IH.
Qed.

(** C6.  When the answer of the provider to a batch parses to a list of
    results, an index that no result names is not in the dictionary of the
    batch, and the cycle passes over the item with that index: no verdict is
    written and no lead is added.  When the list is empty the batch succeeds
    with an empty dictionary, and the cycle passes over every item. *)
Theorem absent_index_is_not_a_lead (w : World) (prompt_of : string -> string)
    (call_llm : nat -> string -> Result string) (messages : list item)
    (result_text : string) (rs : list json) (i : Z)
    (saved : ParsedMessage * Message * ProcessedUser)
    (rest : list (ParsedMessage * Message * ProcessedUser))
    (leads_list : list lead) (leads_found : Z) (st : St) :
  messages <> [] ->
  call_llm O (prompt_of (PyStr.join (newline ++ newline) (map format_item messages)))
    = Ok result_text ->
  parse_response result_text = JList rs ->
  (forall r id, r ∈ rs -> py_index r "id" = Ok id -> key_of id <> Ok (KInt i)) ->
  (rs = [] ->
   analyze_batch prompt_of call_llm messages 3 = Ok []
   /\ forall j fm,
        process_results w j fm [] leads_list leads_found st
        = (Ok (leads_list, leads_found), st))
  /\ (forall d, leads_of_response result_text = Ok d ->
        analyze_batch prompt_of call_llm messages 3 = Ok d
        /\ dict_get d i = None
        /\ process_results w i (saved :: rest) d leads_list leads_found st
           = process_results w (i + 1) rest d leads_list leads_found st).
Proof.
  intros Hne Hcall Hparse Habs. split.
  - intros ->. split.
    + eapply analyze_batch_empty_answer; eassumption.
    + intros j fm. apply process_results_empty.
  - intros d Hd.
    assert (Hget : dict_get d i = None).
    { unfold leads_of_response in Hd. rewrite Hparse in Hd. cbn [py_iter] in Hd.
      destruct (log_leads rs); [|discriminate].
      exact (comprehension_absent i rs [] d Habs eq_refl Hd). }
    split; [|split; [exact Hget|]].
    + unfold analyze_batch. destruct messages as [|m ms]; [contradiction|].
      cbn [attempts]. rewrite Hcall, Hd. reflexivity.
    + destruct saved as [[m dm] u]. cbn [process_results]. rewrite Hget. reflexivity.
Qed.

End ZeroResults.

Lemma absent_index_is_not_a_lead_witness :
  Analyzer.analyze_batch (BATCH_PROMPT Sample.cfg) (fun _ _ => Sample.nothing)
    [Analyzer.Item2 0 "a"; Analyzer.Item2 1 "b"; Analyzer.Item2 2 "c";
     Analyzer.Item2 3 "d"; Analyzer.Item2 4 "e"] 3 = Ok []
  /\ Analyzer.dict_get [] 3 = None.
Proof.
  pose proof (absent_index_is_not_a_lead (Sample.world Sample.nothing)
                (BATCH_PROMPT Sample.cfg) (fun _ _ => Sample.nothing)
                [Analyzer.Item2 0 "a"; Analyzer.Item2 1 "b"; Analyzer.Item2 2 "c";
                 Analyzer.Item2 3 "d"; Analyzer.Item2 4 "e"]
                "[]" [] 3
                (Sample.parsed 4 "d",
                 {| msg_id := 4; msg_telegram_message_id := 4; msg_chat_id := 1;
                    msg_chat_title := None; msg_chat_username := None;
                    msg_user_id := 1; msg_text := "d"; msg_is_lead := None;
                    msg_confidence := None; msg_reason := None;
                    msg_created_at := 0; msg_analyzed_at := None;
                    msg_source := "telegram" |},
                 {| pu_id := 1; pu_telegram_user_id := 77;
                    pu_username := None; pu_first_name := None |})
                [] [] 0 Sample.st0
                ltac:(discriminate) ltac:(reflexivity) ltac:(reflexivity)
                ltac:(intros r id Hr; inversion Hr)) as [Hempty Hany].
  split.
  - apply Hempty. reflexivity.
  - apply (Hany []). reflexivity.
Defined.

(** ** The fetch stage and the commit *)

Section FetchAndCommit.
Import Main.

Variable w : World.

Lemma get_last_message_id_spec (c : Z) (st : St) (r : Result (option Z)) (st' : St) :
  Repository.get_last_message_id w c st = (r, st') ->
  db st' = db st /\ forall v, r = Ok v -> v = watermark st c.
Proof.
  unfold Repository.get_last_message_id, bind, db_call, get_db, ret.
  destruct (db_fails w (db_calls st)); intros H; injection H as <- <-.
  - split; [reflexivity | discriminate].
  - split; [reflexivity|]. intros v Hv. injection Hv as <-. reflexivity.
Qed.

Lemma now_spec (st : St) (r : Result Z) (st' : St) :
  now w st = (r, st') -> db st' = db st /\ r = Ok (clock w (clock_reads st)).
Proof. intros H. injection H as <- <-. split; reflexivity. Qed.

Lemma fetched_db (st st1 : St) (p : peer) :
  db st1 = db st -> fetched w st1 p = fetched w st p.
Proof. intros H. unfold fetched, watermark. rewrite H. reflexivity. Qed.

Lemma updates_of_db (st st1 : St) (peers : list peer) :
  db st1 = db st -> updates_of w st1 peers = updates_of w st peers.
Proof.
  intros H. unfold updates_of. induction peers as [|p peers IH]; [reflexivity|].
  cbn [flat_map]. rewrite (fetched_db st st1 p H), IH. reflexivity.
Qed.

Lemma updates_of_cons (st : St) (p : peer) (peers : list peer) :
  updates_of w st (p :: peers)
  = (match fetched w st p with
     | [] => []
     | m :: ms => [(UserBot.peer_chat_id p, max_message_id (m :: ms))]
     end ++ updates_of w st peers)%list.
Proof. reflexivity. Qed.

(** The fetch stage reads the database and leaves it as it is; it files one
    update for each peer with a non-empty fetch, and every message it passes
    on was fetched for a peer and, for a peer without a watermark, is less
    than a day older than a reading of the clock. *)
Lemma collect_spec (peers : list peer) (all : list ParsedMessage)
    (upd : list (Z * Z)) (st : St) (r : Result (list ParsedMessage * list (Z * Z)))
    (st' : St) :
  collect w peers all upd st = (r, st') ->
  db st' = db st
  /\ forall all' upd', r = Ok (all', upd') ->
       upd' = (upd ++ updates_of w st peers)%list
       /\ forall m, m ∈ all' ->
            m ∈ all
            \/ exists p, p ∈ peers /\ m ∈ fetched w st p
                         /\ (watermark st (UserBot.peer_chat_id p) = None ->
                             exists n, clock w n - day < date m).
Proof.
  revert all upd st.
  induction peers as [|p peers IH]; intros all upd st H; cbn [collect] in H.
  - injection H as <- <-. split; [reflexivity|].
    intros all' upd' Hr. injection Hr as <- <-. split.
    + unfold updates_of. cbn [flat_map]. rewrite app_nil_r. reflexivity.
    + intros m Hm. left. exact Hm.
  - apply bind_inv in H as [(min_id & st1 & Hg & H)|(e & Hg & ->)];
      apply get_last_message_id_spec in Hg as [Hdb Hmin].
    2: { split; [exact Hdb | discriminate]. }
    specialize (Hmin _ eq_refl).
    assert (Hf : fetched w st p
                 = UserBot.get_new_messages w p
                     (Some (match min_id with Some n => n | None => 0 end))).
    { unfold fetched. rewrite <- Hmin. destruct min_id; reflexivity. }
    destruct min_id as [n|].
    + destruct (UserBot.get_new_messages w p (Some n)) as [|m0 ms] eqn:Hfetch.
      * apply IH in H as [Hdb' Hres]. split; [congruence|].
        intros all' upd' Hr. destruct (Hres _ _ Hr) as [-> Hall]. split.
        -- rewrite updates_of_cons, Hf. rewrite (updates_of_db st st1 peers Hdb). reflexivity.
        -- intros m Hm. destruct (Hall m Hm) as [Hin|(p' & Hp' & Hm' & Hnew)];
             [left; exact Hin|].
           right. exists p'. split; [apply elem_of_cons; right; exact Hp'|].
           rewrite (fetched_db st st1 p' Hdb) in Hm'. split; [exact Hm'|].
           unfold watermark in *. rewrite <- Hdb. exact Hnew.
      * apply IH in H as [Hdb' Hres]. split; [congruence|].
        intros all' upd' Hr. destruct (Hres _ _ Hr) as [-> Hall]. split.
        -- rewrite updates_of_cons, Hf. rewrite (updates_of_db st st1 peers Hdb).
           rewrite <- app_assoc. reflexivity.
        -- intros m Hm. destruct (Hall m Hm) as [Hin|(p' & Hp' & Hm' & Hnew)].
           ++ apply elem_of_app in Hin as [Hin|Hin]; [left; exact Hin|].
              right. exists p. split; [apply elem_of_cons; left; reflexivity|].
              rewrite Hf. split; [exact Hin|]. intros Hnone.
              rewrite Hnone in Hmin. discriminate.
           ++ right. exists p'. split; [apply elem_of_cons; right; exact Hp'|].
              rewrite (fetched_db st st1 p' Hdb) in Hm'. split; [exact Hm'|].
              unfold watermark in *. rewrite <- Hdb. exact Hnew.
    + destruct (UserBot.get_new_messages w p (Some 0)) as [|m0 ms] eqn:Hfetch.
      * apply IH in H as [Hdb' Hres]. split; [congruence|].
        intros all' upd' Hr. destruct (Hres _ _ Hr) as [-> Hall]. split.
        -- rewrite updates_of_cons, Hf. rewrite (updates_of_db st st1 peers Hdb). reflexivity.
        -- intros m Hm. destruct (Hall m Hm) as [Hin|(p' & Hp' & Hm' & Hnew)];
             [left; exact Hin|].
           right. exists p'. split; [apply elem_of_cons; right; exact Hp'|].
           rewrite (fetched_db st st1 p' Hdb) in Hm'. split; [exact Hm'|].
           unfold watermark in *. rewrite <- Hdb. exact Hnew.
      * apply bind_inv in H as [(t & st2 & Hn & H)|(e & Hn & ->)];
          apply now_spec in Hn as [Hdb2 Ht]; [|discriminate].
        injection Ht as ->.
        apply IH in H as [Hdb' Hres]. split; [congruence|].
        assert (Hdb12 : db st2 = db st) by congruence.
        intros all' upd' Hr. destruct (Hres _ _ Hr) as [-> Hall]. split.
        -- rewrite updates_of_cons, Hf. rewrite (updates_of_db st st2 peers Hdb12).
           rewrite <- app_assoc. reflexivity.
        -- intros m Hm. destruct (Hall m Hm) as [Hin|(p' & Hp' & Hm' & Hnew)].
           ++ apply elem_of_app in Hin as [Hin|Hin]; [left; exact Hin|].
              apply list_elem_of_In, List.filter_In in Hin as [Hin Hdate].
              right. exists p. split; [apply elem_of_cons; left; reflexivity|].
              rewrite Hf. split; [apply list_elem_of_In, Hin|]. intros _.
              exists (clock_reads st1). apply Z.ltb_lt, Hdate.
           ++ right. exists p'. split; [apply elem_of_cons; right; exact Hp'|].
              rewrite (fetched_db st st2 p' Hdb12) in Hm'. split; [exact Hm'|].
              unfold watermark in *. rewrite <- Hdb12. exact Hnew.
Qed.

End FetchAndCommit.

Section Commit.
Import Analyzer Main.

Variable w : World.

Lemma update_last_message_id_ok (c m : Z) (st st' : St) (x : unit) :
  Repository.update_last_message_id w c m st = (Ok x, st') ->
  watermark st' c = Some m
  /\ forall c', c' <> c -> watermark st' c' = watermark st c'.
Proof.
  unfold Repository.update_last_message_id, bind, db_call, get_db, now, put_db,
    watermark.
  destruct (db_fails w (db_calls st)); [discriminate|]. cbn.
  destruct (chat_state (db st) !! c); cbn; intros H; injection H as _ <-; cbn;
    (split; [rewrite lookup_insert_eq; reflexivity|]);
    intros c' Hc'; rewrite lookup_insert_ne by congruence; reflexivity.
Qed.

(** A commit that goes through sets the watermark of each chat it lists and
    leaves the others. *)
Lemma update_chat_states_ok (upd : list (Z * Z)) (st st' : St) (x : unit) :
  update_chat_states w upd st = (Ok x, st') ->
  NoDup (map fst upd) ->
  (forall c v, (c, v) ∈ upd -> watermark st' c = Some v)
  /\ (forall c, c ∉ map fst upd -> watermark st' c = watermark st c).
Proof.
  revert st. induction upd as [|[c0 v0] upd IH]; intros st H Hnd;
    cbn [update_chat_states] in H.
  - injection H as _ <-. split; [|reflexivity]. intros c v Hin. inversion Hin.
  - apply bind_inv in H as [(u & st1 & Hu & H)|(e & _ & ?)]; [|discriminate].
    apply update_last_message_id_ok in Hu as [Hset Hframe].
    cbn [map fst] in Hnd. apply NoDup_cons in Hnd as [Hnotin Hnd].
    destruct (IH _ H Hnd) as [IHset IHframe]. split.
    + intros c v Hin. apply elem_of_cons in Hin as [Heq|Hin].
      * injection Heq as -> ->. rewrite IHframe by exact Hnotin. exact Hset.
      * apply IHset, Hin.
    + intros c Hc. cbn [map fst] in Hc. apply not_elem_of_cons in Hc as [Hne Hc].
      rewrite IHframe by exact Hc. apply Hframe, Hne.
Qed.

Lemma max_message_id_fold (l : list ParsedMessage) (a : Z) :
  a <= fold_left (fun acc x => Z.max acc (message_id x)) l a
  /\ (forall m, m ∈ l ->
        message_id m <= fold_left (fun acc x => Z.max acc (message_id x)) l a)
  /\ (fold_left (fun acc x => Z.max acc (message_id x)) l a = a
      \/ exists m, m ∈ l
           /\ fold_left (fun acc x => Z.max acc (message_id x)) l a = message_id m).
Proof.
  revert a. induction l as [|x l IH]; intros a; cbn [fold_left].
  - split; [lia|]. split; [|left; reflexivity]. intros m Hm. inversion Hm.
  - destruct (IH (Z.max a (message_id x))) as (Hle & Hall & Hex).
    split; [lia|]. split.
    + intros m Hm. apply elem_of_cons in Hm as [->|Hm]; [lia | apply Hall, Hm].
    + destruct Hex as [Heq|(m & Hm & Heq)].
      * destruct (Z.max_spec a (message_id x)) as [[_ Hmax]|[_ Hmax]].
        -- right. exists x. split; [apply elem_of_cons; left; reflexivity|].
           rewrite Heq. exact Hmax.
        -- left. rewrite Heq. exact Hmax.
      * right. exists m. split; [apply elem_of_cons; right; exact Hm | exact Heq].
Qed.

(** [max_message_id] is the greatest message id of a non-empty list. *)
Lemma max_message_id_spec (l : list ParsedMessage) :
  l <> [] ->
  (forall m, m ∈ l -> message_id m <= max_message_id l)
  /\ exists m, m ∈ l /\ max_message_id l = message_id m.
Proof.
  destruct l as [|x l]; [contradiction|]. intros _. unfold max_message_id.
  destruct (max_message_id_fold l (message_id x)) as (Hle & Hall & Hex). split.
  - intros m Hm. apply elem_of_cons in Hm as [->|Hm]; [exact Hle | apply Hall, Hm].
  - destruct Hex as [Heq|(m & Hm & Heq)].
    + exists x. split; [apply elem_of_cons; left; reflexivity | exact Heq].
    + exists m. split; [apply elem_of_cons; right; exact Hm | exact Heq].
Qed.

Lemma updates_of_keys (st : St) (peers : list peer) :
  sublist (map fst (updates_of w st peers)) (chat_ids peers).
Proof.
  induction peers as [|p peers IH]; [constructor|].
  rewrite updates_of_cons. unfold chat_ids. cbn [map].
  destruct (fetched w st p); cbn [app map fst]; constructor; exact IH.
Qed.

Lemma updates_of_elem (st : St) (peers : list peer) (p : peer) :
  p ∈ peers -> fetched w st p <> [] ->
  (UserBot.peer_chat_id p, max_message_id (fetched w st p)) ∈ updates_of w st peers.
Proof.
  intros Hp Hne. induction peers as [|p0 peers IH]; [inversion Hp|].
  rewrite updates_of_cons. apply elem_of_app.
  apply elem_of_cons in Hp as [<-|Hp].
  - left. destruct (fetched w st p); [contradiction|].
    apply elem_of_cons. left. reflexivity.
  - right. apply IH, Hp.
Qed.

End Commit.

(** ** What a fetch returns *)

Section Fetch.
Import UserBot.

Variable w : World.

Lemma parse_message_ids (c : Z) (e : Entity) (raw : RawMessage) (m : ParsedMessage) :
  parse_message c e raw = Some m -> message_id m = raw_id raw /\ chat_id m = c.
Proof.
  unfold parse_message.
  destruct (negb (truthy_str (raw_text raw)) || negb (truthy_Z (raw_sender_id raw)));
    [discriminate|].
  destruct (raw_sender raw); [|discriminate].
  destruct (raw_text raw); [|discriminate].
  intros H. injection H as <-. split; reflexivity.
Qed.

(** Every message of a fetch comes from one of the at most 100 newest
    messages above [min_id], and carries the chat id of the peer. *)
Lemma get_new_messages_elem (p : peer) (min_id : Z) (m : ParsedMessage) :
  m ∈ get_new_messages w p (Some min_id) ->
  chat_id m = peer_chat_id p
  /\ min_id < message_id m
  /\ exists raw, raw ∈ iter_messages (history (chat_of w p)) min_id 100
                 /\ raw_id raw = message_id m.
Proof.
  unfold get_new_messages. destruct (entity (chat_of w p)) as [e|x].
  2: { intros H. inversion H. }
  intros H. apply list_elem_of_omap in H as (raw & Hraw & Hparse).
  apply parse_message_ids in Hparse as [Hid Hchat].
  assert (Hin : raw ∈ iter_messages (history (chat_of w p)) min_id 100).
  { destruct (interrupted (chat_of w p)) as [k|]; [|exact Hraw].
    eapply elem_of_sublist; [exact Hraw | apply sublist_take]. }
  split; [exact Hchat|]. split.
  - rewrite Hid. unfold iter_messages in Hin.
    assert (Hf : raw ∈ List.filter (fun m => min_id <? raw_id m)
                        (history (chat_of w p))).
    { eapply elem_of_sublist; [exact Hin | apply sublist_take]. }
    apply list_elem_of_In, List.filter_In in Hf as [_ Hf].
    apply Z.ltb_lt in Hf. exact Hf.
  - exists raw. split; [exact Hin | symmetry; exact Hid].
Qed.

Lemma omap_length_le {A B : Type} (f : A -> option B) (l : list A) :
  (length (omap f l) <= length l)%nat.
Proof.
  induction l as [|a l IH]; [reflexivity|].
  change (omap f (a :: l))
    with (match f a with Some y => y :: omap f l | None => omap f l end).
  destruct (f a); cbn [length]; lia.
Qed.

Lemma get_new_messages_length (p : peer) (min_id : option Z) :
  (length (get_new_messages w p min_id) <= 100)%nat.
Proof.
  unfold get_new_messages. destruct (entity (chat_of w p)); [|simpl; lia].
  etransitivity; [apply omap_length_le|].
  unfold iter_messages. destruct (interrupted (chat_of w p)).
  - rewrite !length_take. lia.
  - rewrite length_take. lia.
Qed.

Lemma descending_sorted (l : list RawMessage) :
  descending l = true -> StronglySorted (fun a b => raw_id b < raw_id a) l.
Proof.
  intros H. apply Sorted_StronglySorted.
  - intros a b c Hab Hbc. lia.
  - induction l as [|a l IH]; [constructor|].
    destruct l as [|b l]; [repeat constructor|].
    cbn [descending] in H. apply andb_true_iff in H as [Hab Hrest].
    constructor; [apply IH, Hrest|]. constructor. apply Z.ltb_lt, Hab.
Qed.

Lemma filter_sorted {A : Type} (R : A -> A -> Prop) (f : A -> bool) (l : list A) :
  StronglySorted R l -> StronglySorted R (List.filter f l).
Proof.
  induction 1 as [|a l Hs IH Hall]; simpl; [constructor|].
  destruct (f a); [|exact IH].
  constructor; [exact IH|].
  apply Forall_forall. intros x Hx.
  apply list_elem_of_In, List.filter_In in Hx as [Hx _].
  rewrite Forall_forall in Hall. apply Hall, list_elem_of_In, Hx.
Qed.

(** In a history that is newest first, a message above [min_id] that is not
    among the [limit] newest is older than each of these. *)
Lemma beyond_limit_older (history : list RawMessage) (min_id : Z) (limit : nat)
    (r x : RawMessage) :
  descending history = true ->
  r ∈ history -> min_id < raw_id r ->
  r ∉ iter_messages history min_id limit ->
  x ∈ iter_messages history min_id limit ->
  raw_id r < raw_id x.
Proof.
  intros Hd Hr Hmin Hnot Hx. unfold iter_messages in *.
  set (F := List.filter (fun m => min_id <? raw_id m) history) in *.
  assert (HF : StronglySorted (fun a b => raw_id b < raw_id a) F)
    by (apply filter_sorted, descending_sorted, Hd).
  assert (HrF : r ∈ F).
  { apply list_elem_of_In, List.filter_In.
    split; [apply list_elem_of_In, Hr | apply Z.ltb_lt, Hmin]. }
  rewrite <- (take_drop limit F) in HF, HrF.
  apply elem_of_app in HrF as [HrF|HrF]; [contradiction|].
  exact (StronglySorted_app_1_elem_of _ _ _ x r HF Hx HrF).
Qed.

End Fetch.

Section Bootstrap.
Import Main.

Variable w : World.

Lemma fetched_eq (st : St) (p : peer) :
  fetched w st p
  = UserBot.get_new_messages w p
      (Some (default 0 (watermark st (UserBot.peer_chat_id p)))).
Proof. unfold fetched. destruct (watermark st _); reflexivity. Qed.

Lemma chat_ids_inj (peers : list peer) (p p' : peer) :
  NoDup (chat_ids peers) -> p ∈ peers -> p' ∈ peers ->
  UserBot.peer_chat_id p = UserBot.peer_chat_id p' -> p = p'.
Proof.
  unfold chat_ids. induction peers as [|a peers IH]; intros Hnd Hp Hp' Heq.
  - inversion Hp.
  - cbn [map] in Hnd. apply NoDup_cons in Hnd as [Hnotin Hnd].
    apply elem_of_cons in Hp as [->|Hp]; apply elem_of_cons in Hp' as [->|Hp'].
    + reflexivity.
    + exfalso. apply Hnotin. rewrite Heq.
      apply list_elem_of_In, in_map, list_elem_of_In, Hp'.
    + exfalso. apply Hnotin. rewrite <- Heq.
      apply list_elem_of_In, in_map, list_elem_of_In, Hp.
    + apply IH; assumption.
Qed.

End Bootstrap.

(** ** Processed posts *)

Section ProcessedPosts.
Import Main.

Variable w : World.

Lemma notify_stable {X : Type} (f : St -> X) (n : notification) :
  (forall st, f {| db := db st; db_calls := db_calls st;
                   clock_reads := clock_reads st; sent := sent st ++ [n] |} = f st) ->
  preserves (respects f) (notify n).
Proof. intros Hf st r st' H. injection H as <- <-. apply Hf. Qed.

(** Marking a post as processed a second time changes no record. *)
Lemma mark_processed_idempotent (post_id group_id : string) (st st1 st2 : St)
    (x y : unit) :
  Repository.mark_facebook_post_processed w post_id group_id st = (Ok x, st1) ->
  Repository.mark_facebook_post_processed w post_id group_id st1 = (Ok y, st2) ->
  facebook_processed_posts (db st2) = facebook_processed_posts (db st1)
  /\ is_Some (facebook_processed_posts (db st1) !! post_id).
Proof.
  unfold Repository.mark_facebook_post_processed, bind, db_call, get_db, now,
    put_db, ret.
  destruct (db_fails w (db_calls st)); [discriminate|]. cbn.
  intros H1.
  assert (Hin : is_Some (facebook_processed_posts (db st1) !! post_id)).
  { destruct (facebook_processed_posts (db st) !! post_id) eqn:E;
      cbn in H1; injection H1 as _ <-; cbn.
    - rewrite E. eauto.
    - rewrite lookup_insert_eq. eauto. }
  destruct (db_fails w (db_calls st1)); [discriminate|]. cbn.
  destruct Hin as [v Hv]. rewrite Hv. cbn. intros H2. injection H2 as _ <-.
  split; [reflexivity | eauto].
Qed.

End ProcessedPosts.

(** * Further properties *)

(** ** Batches and waves *)

Section Partition.
Import Analyzer.
Context {A : Type}.

Lemma chunks_go_partition (fuel n : nat) (l : list A) :
  (0 < n)%nat -> (length l <= fuel)%nat ->
  concat (chunks_go fuel n l) = l
  /\ Forall (fun c => (0 < length c <= n)%nat) (chunks_go fuel n l).
Proof.
  intros Hn. revert l.
  induction fuel as [|fuel IH]; intros l Hlen.
  - destruct l; [split; [reflexivity | constructor] | simpl in Hlen; lia].
  - destruct l as [|x l]; [split; [reflexivity | constructor]|].
    cbn [chunks_go concat].
    destruct (IH (skipn n (x :: l))) as [Hcat Hall].
    { rewrite length_skipn. simpl in *. lia. }
    split.
    + rewrite Hcat. apply firstn_skipn.
    + constructor; [|exact Hall].
      rewrite length_firstn. simpl length. lia.
Qed.

(** The batches are consecutive pieces of the input, in order: joined they
    give the input back, and each holds between 1 and [batch_size] items. *)
Theorem chunks_partition (n : nat) (l : list A) :
  (0 < n)%nat ->
  concat (chunks n l) = l
  /\ Forall (fun c => (0 < length c <= n)%nat) (chunks n l).
Proof. intros Hn. apply chunks_go_partition; [exact Hn | lia]. Qed.

End Partition.

Lemma chunks_partition_witness :
  concat (Analyzer.chunks 2 [1; 2; 3; 4; 5]) = [1; 2; 3; 4; 5].
Proof. apply (chunks_partition 2 [1; 2; 3; 4; 5]). lia. Defined.

Section ResultKeys.
Import Analyzer.

Variable prompt_of : string -> string.
Variable provider : nat -> nat -> string -> Result string.

Lemma dict_set_inv (k k0 : pykey) (v : verdict) (d : pydict) :
  is_Some (dict_lookup k (dict_set k0 v d)) -> k = k0 \/ is_Some (dict_lookup k d).
Proof.
  destruct (decide (k = k0)) as [->|Hne]; [left; reflexivity|].
  rewrite dict_lookup_set_ne by exact Hne. right. assumption.
Qed.

Lemma dict_update_inv (k : pykey) (other d : pydict) :
  is_Some (dict_lookup k (dict_update d other)) ->
  is_Some (dict_lookup k d) \/ is_Some (dict_lookup k other).
Proof.
  unfold dict_update. revert d.
  induction other as [|[k0 v0] other IH]; intros d H; cbn [fold_left] in H.
  - left. exact H.
  - cbn [dict_lookup]. destruct (IH _ H) as [Hd|Ho].
    + cbn [fst snd] in Hd. apply dict_set_inv in Hd as [->|Hd].
      * right. rewrite decide_True by reflexivity. eauto.
      * left. exact Hd.
    + right. destruct (decide (k = k0)); [eauto | exact Ho].
Qed.

Lemma merge_inv (k : pykey) (results : list (Result pydict)) (d : pydict) :
  is_Some (dict_lookup k (merge d results)) ->
  is_Some (dict_lookup k d)
  \/ exists other, In (Ok other) results /\ is_Some (dict_lookup k other).
Proof.
  unfold merge. revert d.
  induction results as [|r results IH]; intros d H; cbn [fold_left] in H.
  - left. exact H.
  - destruct (IH _ H) as [Hd|(other & Hin & Ho)].
    + destruct r as [o|e].
      * apply dict_update_inv in Hd as [Hd|Hd]; [left; exact Hd|].
        right. exists o. split; [left; reflexivity | exact Hd].
      * left. exact Hd.
    + right. exists other. split; [right; exact Hin | exact Ho].
Qed.

Lemma gather_inv (group : list (list item)) (num : nat) (r : Result pydict) :
  In r (gather prompt_of provider group num) ->
  exists idx batch, group !! idx = Some batch
    /\ r = analyze_batch prompt_of (provider (num + idx)%nat) batch 3.
Proof.
  revert num. induction group as [|b group IH]; intros num H; [contradiction|].
  cbn [gather] in H. destruct H as [<-|H].
  - exists O, b. split; [reflexivity|]. do 2 f_equal. lia.
  - apply IH in H as (idx & batch & Hl & ->).
    exists (S idx), batch. split; [exact Hl|]. do 2 f_equal. lia.
Qed.

Lemma waves_inv (k : pykey) (max_parallel : nat)
    (groups : list (list (list item))) (start : nat) (d : pydict) :
  is_Some (dict_lookup k (waves prompt_of provider groups start max_parallel d)) ->
  is_Some (dict_lookup k d)
  \/ exists g idx group batch other,
       groups !! g = Some group /\ group !! idx = Some batch
       /\ analyze_batch prompt_of (provider (start + g * max_parallel + idx)%nat)
            batch 3 = Ok other
       /\ is_Some (dict_lookup k other).
Proof.
  revert start d.
  induction groups as [|g0 groups IH]; intros start d H; cbn [waves] in H.
  - left. exact H.
  - destruct (IH _ _ H) as [Hd|(g & idx & group & batch & other & Hg & Hi & Hr & Hk)].
    + apply merge_inv in Hd as [Hd|(other & Hin & Ho)]; [left; exact Hd|].
      apply gather_inv in Hin as (idx & batch & Hl & Hr).
      right. exists O, idx, g0, batch, other.
      split; [reflexivity|]. split; [exact Hl|]. split; [|exact Ho].
      rewrite Hr. do 2 f_equal. lia.
    + right. exists (S g), idx, group, batch, other.
      split; [exact Hg|]. split; [exact Hi|]. split; [|exact Hk].
      rewrite <- Hr. do 2 f_equal. lia.
Qed.

(** The dictionary the call returns holds exactly the keys of the batches
    that succeeded: each key of a successful batch is in it, and each of its
    keys comes from a batch that succeeded. *)
Theorem result_keys_of_successful_batches (texts : list item)
    (batch_size max_parallel : nat) (k : pykey) :
  (0 < max_parallel)%nat ->
  is_Some (dict_lookup k
             (fst (analyze_messages_batch prompt_of provider texts
                     batch_size max_parallel)))
  <-> exists i batch d,
        chunks batch_size texts !! i = Some batch
        /\ analyze_batch prompt_of (provider i) batch 3 = Ok d
        /\ is_Some (dict_lookup k d).
Proof.
  intros Hmp. split.
  - unfold analyze_messages_batch. cbn [fst]. intros H.
    apply waves_inv in H as [H|(g & idx & group & batch & other & Hg & Hi & Hr & Hk)].
    { destruct H as [x Hx]. discriminate. }
    apply chunks_lookup in Hg as [Hlt ->]; [|exact Hmp].
    apply lookup_take_Some in Hi as [Hi Hidx]. rewrite lookup_drop in Hi.
    exists (g * max_parallel + idx)%nat, batch, other.
    split; [exact Hi|]. split; [|exact Hk]. exact Hr.
  - intros (i & batch & d & Hb & Hr & Hk).
    eapply successful_batch_kept; eassumption.
Qed.

End ResultKeys.

Lemma result_keys_of_successful_batches_witness :
  is_Some (Analyzer.dict_lookup (Analyzer.KInt 2)
             (fst (Analyzer.analyze_messages_batch (BATCH_PROMPT Sample.cfg)
                     Sample.second_fails Sample.three_items 1 3))).
Proof.
  apply (result_keys_of_successful_batches (BATCH_PROMPT Sample.cfg)
           Sample.second_fails Sample.three_items 1 3 (Analyzer.KInt 2));
    [lia|].
  exists 2%nat, [Analyzer.Item2 2 "house for sale"],
    [(Analyzer.KInt 2,
      (true, Json.JStr "", Json.JFloat 5 (-1), Json.JStr "property"))].
  split; [reflexivity|]. split; [vm_compute; reflexivity|].
  vm_compute. eauto.
Defined.

(** ** Attempts and retries *)

Section Retries.
Import Analyzer.

Variable prompt_of : string -> string.
Variable call_llm : nat -> string -> Result string.

Lemma attempts_step (prompt : string) (max_retries k attempt : nat) :
  attempts call_llm prompt max_retries (S k) attempt
  = match attempt_outcome call_llm prompt attempt with
    | Ok d => Ok d
    | Raise e =>
        if rate_limited (exn_str e) && (attempt <? max_retries - 1)%nat
        then attempts call_llm prompt max_retries k (S attempt)
        else Raise (Exn "AnalysisError" ("Failed to analyze batch: " ++ exn_str e))
    end.
Proof. reflexivity. Qed.

Lemma attempts_decisive (prompt : string) (max_retries remaining attempt k : nat) :
  (attempt + remaining = max_retries)%nat ->
  (attempt <= k < max_retries)%nat ->
  (forall j, (attempt <= j < k)%nat -> throttled call_llm prompt j = true) ->
  throttled call_llm prompt k = false ->
  attempts call_llm prompt max_retries remaining attempt
  = match attempt_outcome call_llm prompt k with
    | Ok d => Ok d
    | Raise e => Raise (Exn "AnalysisError" ("Failed to analyze batch: " ++ exn_str e))
    end.
Proof.
  revert attempt. induction remaining as [|r IH]; intros attempt Hsum Hk Hbefore Hat.
  - lia.
  - rewrite attempts_step. destruct (decide (attempt = k)) as [->|Hne].
    + unfold throttled in Hat.
      destruct (attempt_outcome call_llm prompt k) as [d|e]; [reflexivity|].
      rewrite Hat. reflexivity.
    + pose proof (Hbefore attempt ltac:(lia)) as Hthr. unfold throttled in Hthr.
      destruct (attempt_outcome call_llm prompt attempt) as [d|e]; [discriminate|].
      rewrite Hthr. replace (attempt <? max_retries - 1)%nat with true
        by (symmetry; apply Nat.ltb_lt; lia).
      cbn [andb]. apply IH; [lia | lia | | exact Hat].
      intros j Hj. apply Hbefore. lia.
Qed.

Lemma attempts_exhausted (prompt : string) (max_retries remaining attempt : nat)
    (e : exn) :
  (attempt + remaining = max_retries)%nat ->
  (0 < remaining)%nat ->
  (forall j, (attempt <= j < max_retries)%nat -> throttled call_llm prompt j = true) ->
  attempt_outcome call_llm prompt (max_retries - 1) = Raise e ->
  attempts call_llm prompt max_retries remaining attempt
  = Raise (Exn "AnalysisError" ("Failed to analyze batch: " ++ exn_str e)).
Proof.
  revert attempt. induction remaining as [|r IH]; intros attempt Hsum Hpos Hall Hlast.
  - lia.
  - rewrite attempts_step.
    pose proof (Hall attempt ltac:(lia)) as Hthr. unfold throttled in Hthr.
    destruct (attempt_outcome call_llm prompt attempt) as [d|e0] eqn:Hout;
      [discriminate|].
    rewrite Hthr. cbn [andb].
    destruct (attempt <? max_retries - 1)%nat eqn:Hlt.
    + apply Nat.ltb_lt in Hlt. apply IH; [lia | lia | | exact Hlast].
      intros j Hj. apply Hall. lia.
    + apply Nat.ltb_ge in Hlt.
      replace (max_retries - 1)%nat with attempt in Hlast by lia.
      rewrite Hout in Hlast. injection Hlast as ->. reflexivity.
Qed.

(** The first attempt that does not end in a rate-limit error decides the
    batch: the attempts before it are retried, and none after it is made.
    Its verdicts are returned, or its error fails the batch. *)
Theorem analyze_batch_decided_by_first_unthrottled (messages : list item)
    (max_retries k : nat) :
  messages <> [] ->
  (k < max_retries)%nat ->
  (forall j, (j < k)%nat ->
     throttled call_llm (prompt_for prompt_of messages) j = true) ->
  throttled call_llm (prompt_for prompt_of messages) k = false ->
  analyze_batch prompt_of call_llm messages max_retries
  = match attempt_outcome call_llm (prompt_for prompt_of messages) k with
    | Ok d => Ok d
    | Raise e => Raise (Exn "AnalysisError" ("Failed to analyze batch: " ++ exn_str e))
    end.
Proof.
  intros Hne Hk Hbefore Hat. unfold analyze_batch.
  destruct messages as [|m ms]; [contradiction|].
  apply attempts_decisive; [lia | lia | | exact Hat].
  intros j Hj. apply Hbefore. lia.
Qed.

(** When every one of the [max_retries] attempts ends in a rate-limit error,
    the batch fails with the error of the last attempt. *)
Theorem analyze_batch_gives_up_after_max_retries (messages : list item)
    (max_retries : nat) (e : exn) :
  messages <> [] ->
  (0 < max_retries)%nat ->
  (forall j, (j < max_retries)%nat ->
     throttled call_llm (prompt_for prompt_of messages) j = true) ->
  attempt_outcome call_llm (prompt_for prompt_of messages) (max_retries - 1)
    = Raise e ->
  analyze_batch prompt_of call_llm messages max_retries
  = Raise (Exn "AnalysisError" ("Failed to analyze batch: " ++ exn_str e)).
Proof.
  intros Hne Hpos Hall Hlast. unfold analyze_batch.
  destruct messages as [|m ms]; [contradiction|].
  apply attempts_exhausted; [lia | lia | | exact Hlast].
  intros j Hj. apply Hall. lia.
Qed.

End Retries.

Lemma analyze_batch_decided_by_first_unthrottled_witness :
  Analyzer.analyze_batch (BATCH_PROMPT Sample.cfg) (Provider.throttled_until 2)
    Provider.one_item 3 = Ok [].
Proof.
  apply (analyze_batch_decided_by_first_unthrottled (BATCH_PROMPT Sample.cfg)
           (Provider.throttled_until 2) Provider.one_item 3 2).
  - discriminate.
  - lia.
  - intros j Hj. destruct j as [|[|j]]; [reflexivity | reflexivity | lia].
  - reflexivity.
Defined.

Lemma analyze_batch_gives_up_after_max_retries_witness :
  Analyzer.analyze_batch (BATCH_PROMPT Sample.cfg) (Provider.throttled_until 3)
    Provider.one_item 3
  = Raise (Exn "AnalysisError"
             "Failed to analyze batch: 429 Too Many Requests, retry in 20s").
Proof.
  apply (analyze_batch_gives_up_after_max_retries (BATCH_PROMPT Sample.cfg)
           (Provider.throttled_until 3) Provider.one_item 3
           (Exn "ResourceExhausted" "429 Too Many Requests, retry in 20s")).
  - discriminate.
  - lia.
  - intros j Hj. destruct j as [|[|[|j]]]; [reflexivity | reflexivity | reflexivity | lia].
  - reflexivity.
Defined.

(** ** Verdicts *)

Section Verdicts.
Import Analyzer.

Lemma all_leads_set (k : pykey) (v : verdict) (d : pydict) :
  verdict_is_lead v = true -> all_leads d -> all_leads (dict_set k v d).
Proof.
  intros Hv. unfold all_leads.
  induction d as [|[k' v'] d IH]; intros Hd; cbn [dict_set].
  - constructor; [exact Hv | constructor].
  - apply Forall_cons in Hd as [Hhd Htl].
    destruct (decide (k = k')); constructor; auto.
Qed.

Lemma all_leads_lookup (k : pykey) (v : verdict) (d : pydict) :
  all_leads d -> dict_lookup k d = Some v -> verdict_is_lead v = true.
Proof.
  unfold all_leads. induction d as [|[k' v'] d IH]; [discriminate|].
  intros Hd. apply Forall_cons in Hd as [Hhd Htl]. cbn [dict_lookup].
  destruct (decide (k = k')).
  - intros H. injection H as <-. exact Hhd.
  - apply IH, Htl.
Qed.

Lemma all_leads_comprehension (rs : list Json.json) (acc d : pydict) :
  all_leads acc -> comprehension rs acc = Ok d -> all_leads d.
Proof.
  revert acc. induction rs as [|r rs IH]; intros acc Hacc H; cbn in H.
  - injection H as <-. exact Hacc.
  - destruct (py_index r "id") as [id|e]; [|discriminate].
    destruct (key_of id) as [k|e]; [|discriminate].
    destruct (py_get r "reason" (Json.JStr "")) as [reason|e]; [|discriminate].
    destruct (py_get r "confidence" (Json.JFloat 5 (-1))) as [c|e]; [|discriminate].
    destruct (py_get r "type" (Json.JStr "property")) as [t|e]; [|discriminate].
    eapply IH; [|exact H]. apply all_leads_set; [reflexivity | exact Hacc].
Qed.

Lemma all_leads_response (result_text : string) (d : pydict) :
  leads_of_response result_text = Ok d -> all_leads d.
Proof.
  unfold leads_of_response.
  destruct (py_iter (parse_response result_text)) as [rs|e]; [|discriminate].
  destruct (log_leads rs); [|discriminate].
  intros H. eapply all_leads_comprehension; [constructor | exact H].
Qed.

Lemma all_leads_attempts (call_llm : nat -> string -> Result string)
    (prompt : string) (max_retries remaining attempt : nat) (d : pydict) :
  attempts call_llm prompt max_retries remaining attempt = Ok d -> all_leads d.
Proof.
  revert attempt. induction remaining as [|k IH]; intros attempt H; [discriminate|].
  rewrite attempts_step in H. unfold attempt_outcome in H.
  destruct (call_llm attempt prompt) as [t|e].
  - destruct (leads_of_response t) as [d0|e] eqn:Ht.
    + injection H as <-. eapply all_leads_response, Ht.
    + destruct (rate_limited (exn_str e) && (attempt <? max_retries - 1)%nat);
        [eapply IH, H | discriminate].
  - destruct (rate_limited (exn_str e) && (attempt <? max_retries - 1)%nat);
      [eapply IH, H | discriminate].
Qed.

Lemma all_leads_batch (prompt_of : string -> string)
    (call_llm : nat -> string -> Result string) (messages : list item)
    (max_retries : nat) (d : pydict) :
  analyze_batch prompt_of call_llm messages max_retries = Ok d -> all_leads d.
Proof.
  unfold analyze_batch. destruct messages.
  - intros H. injection H as <-. constructor.
  - apply all_leads_attempts.
Qed.

Lemma all_leads_update (d other : pydict) :
  all_leads d -> all_leads other -> all_leads (dict_update d other).
Proof.
  unfold dict_update. revert d.
  induction other as [|[k0 v0] other IH]; intros d Hd Ho; [exact Hd|].
  apply Forall_cons in Ho as [Hv Ho]. cbn [fold_left fst snd].
  apply IH; [apply all_leads_set; assumption | exact Ho].
Qed.

Lemma all_leads_merge (prompt_of : string -> string)
    (provider : nat -> nat -> string -> Result string)
    (group : list (list item)) (num : nat) (d : pydict) :
  all_leads d -> all_leads (merge d (gather prompt_of provider group num)).
Proof.
  unfold merge. revert num d.
  induction group as [|b group IH]; intros num d Hd; [exact Hd|].
  cbn [gather fold_left]. apply IH.
  destruct (analyze_batch prompt_of (provider num) b 3) as [o|e] eqn:Hb;
    [|exact Hd].
  apply all_leads_update; [exact Hd | eapply all_leads_batch, Hb].
Qed.

Lemma all_leads_waves (prompt_of : string -> string)
    (provider : nat -> nat -> string -> Result string)
    (groups : list (list (list item))) (start max_parallel : nat) (d : pydict) :
  all_leads d -> all_leads (waves prompt_of provider groups start max_parallel d).
Proof.
  revert start d. induction groups as [|g groups IH]; intros start d Hd; [exact Hd|].
  cbn [waves]. apply IH, all_leads_merge, Hd.
Qed.

(** Every verdict the analyzer returns has its lead flag set: the analyzer
    never reports an item as not being a lead. *)
Theorem analyzer_reports_only_leads (prompt_of : string -> string)
    (provider : nat -> nat -> string -> Result string) (texts : list item)
    (batch_size max_parallel : nat) (i : Z) (v : verdict) :
  dict_get (fst (analyze_messages_batch prompt_of provider texts
                   batch_size max_parallel)) i = Some v ->
  verdict_is_lead v = true.
Proof.
  unfold dict_get, analyze_messages_batch. cbn [fst].
  apply all_leads_lookup, all_leads_waves. constructor.
Qed.

End Verdicts.

Lemma analyzer_reports_only_leads_witness :
  verdict_is_lead (true, Json.JStr "", Json.JFloat 5 (-1), Json.JStr "property")
  = true.
Proof.
  apply (analyzer_reports_only_leads (BATCH_PROMPT Sample.cfg) Sample.second_fails
           Sample.three_items 1 3 2).
  vm_compute. reflexivity.
Defined.

(** ** Prose around the array *)

Section Prose.
Import Json Analyzer.

Lemma append_nil_l (s : string) : "" ++ s = s.
Proof. reflexivity. Qed.

Lemma append_cons (c : ascii) (a b : string) : String c a ++ b = String c (a ++ b).
Proof. reflexivity. Qed.

Lemma append_assoc (a b c : string) : (a ++ b) ++ c = a ++ (b ++ c).
Proof.
  induction a as [|x a IH]; [reflexivity|].
  rewrite !append_cons, IH. reflexivity.
Qed.

Lemma length_append (a b : string) :
  String.length (a ++ b) = (String.length a + String.length b)%nat.
Proof.
  induction a as [|x a IH]; [reflexivity|].
  rewrite append_cons. cbn [String.length]. rewrite IH. reflexivity.
Qed.

Lemma drop_append (a b : string) : PyStr.drop (String.length a) (a ++ b) = b.
Proof.
  induction a as [|x a IH]; [rewrite append_nil_l; destruct b; reflexivity|].
  rewrite append_cons. exact IH.
Qed.

Lemma take_append (a b : string) : PyStr.take (String.length a) (a ++ b) = a.
Proof.
  induction a as [|x a IH]; [rewrite append_nil_l; destruct b; reflexivity|].
  rewrite append_cons. cbn [String.length PyStr.take]. rewrite IH. reflexivity.
Qed.

Lemma startswith_single (c x : ascii) (s : string) :
  PyStr.startswith (String c EmptyString) (String x s) = Ascii.eqb c x.
Proof. cbn [PyStr.startswith]. destruct (Ascii.eqb c x); reflexivity. Qed.

Lemma find_from_none (sub s : string) (i j : nat) :
  PyStr.find_from sub s i = None -> PyStr.find_from sub s j = None.
Proof.
  revert i j. induction s as [|x s IH]; intros i j; cbn [PyStr.find_from];
    destruct (PyStr.startswith sub _); try discriminate; [reflexivity|].
  apply IH.
Qed.

Lemma contains_single_cons (c x : ascii) (s : string) :
  PyStr.contains (String c EmptyString) (String x s) = false ->
  Ascii.eqb c x = false /\ PyStr.contains (String c EmptyString) s = false.
Proof.
  unfold PyStr.contains, PyStr.find. cbn [PyStr.find_from].
  rewrite startswith_single. destruct (Ascii.eqb c x); [discriminate|].
  intros H. split; [reflexivity|].
  destruct (PyStr.find_from _ s 1) eqn:E; [discriminate|].
  rewrite (find_from_none _ _ _ 0%nat E). reflexivity.
Qed.

Lemma find_from_single (c : ascii) (a b : string) (i : nat) :
  PyStr.contains (String c EmptyString) a = false ->
  PyStr.find_from (String c EmptyString) (a ++ String c b) i
  = Some (i + String.length a)%nat.
Proof.
  revert i. induction a as [|x a IH]; intros i Ha.
  - rewrite append_nil_l. cbn [PyStr.find_from String.length].
    rewrite startswith_single, Ascii.eqb_refl. f_equal. lia.
  - apply contains_single_cons in Ha as [Hx Ha].
    rewrite append_cons. cbn [PyStr.find_from].
    rewrite startswith_single, Hx, IH by exact Ha.
    f_equal. cbn [String.length]. lia.
Qed.

Lemma rfind_single_none (c : ascii) (s : string) :
  PyStr.contains (String c EmptyString) s = false ->
  PyStr.rfind (String c EmptyString) s = None.
Proof.
  induction s as [|x s IH]; intros Hs; [reflexivity|].
  apply contains_single_cons in Hs as [Hx Hs].
  cbn [PyStr.rfind]. rewrite (IH Hs), startswith_single, Hx. reflexivity.
Qed.

Lemma rfind_single (c : ascii) (a b : string) :
  PyStr.contains (String c EmptyString) b = false ->
  PyStr.rfind (String c EmptyString) (a ++ String c b)
  = Some (String.length a).
Proof.
  intros Hb. induction a as [|x a IH].
  - rewrite append_nil_l. cbn [PyStr.rfind String.length].
    rewrite (rfind_single_none c b Hb), startswith_single, Ascii.eqb_refl.
    reflexivity.
  - rewrite append_cons. cbn [PyStr.rfind String.length]. rewrite IH. reflexivity.
Qed.

(** When the stripped answer has no code fence, the text before its first
    opening bracket and after its last closing bracket is ignored: the
    result is what [json.loads] makes of the bracketed part, and the empty
    list when that is not JSON. *)
Theorem parse_response_ignores_prose (result_text before body after : string) :
  PyStr.strip result_text = before ++ "[" ++ body ++ "]" ++ after ->
  PyStr.contains "```" (PyStr.strip result_text) = false ->
  PyStr.contains "[" before = false ->
  PyStr.contains "]" after = false ->
  parse_response result_text
  = match loads ("[" ++ body ++ "]") with
    | Some v => v
    | None => JList []
    end.
Proof.
  intros Htext Hfence Hbefore Hafter. unfold parse_response.
  rewrite Hfence, Htext.
  destruct (String.eqb (before ++ "[" ++ body ++ "]" ++ after) "") eqn:Hempty.
  { apply String.eqb_eq in Hempty. apply (f_equal String.length) in Hempty.
    rewrite length_append, append_cons in Hempty.
    cbn [String.length] in Hempty. lia. }
  assert (Hfind : PyStr.find "[" (before ++ "[" ++ body ++ "]" ++ after)
                  = Some (String.length before)).
  { unfold PyStr.find. exact (find_from_single "[" before _ 0 Hbefore). }
  assert (Hrfind : PyStr.rfind "]" (before ++ "[" ++ body ++ "]" ++ after)
                   = Some (String.length before + S (String.length body))%nat).
  { replace (before ++ "[" ++ body ++ "]" ++ after)
      with ((before ++ "[" ++ body) ++ String "]" after)
      by (rewrite !append_assoc; reflexivity).
    rewrite (rfind_single "]" _ after Hafter), length_append. reflexivity. }
  rewrite Hfind, Hrfind.
  replace (String.length before <? String.length before + S (String.length body))%nat
    with true by (symmetry; apply Nat.ltb_lt; lia).
  assert (Hslice : PyStr.slice (String.length before)
                     (String.length before + S (String.length body) + 1)
                     (before ++ "[" ++ body ++ "]" ++ after)
                   = "[" ++ body ++ "]").
  { unfold PyStr.slice. rewrite drop_append.
    replace (String.length before + S (String.length body) + 1
             - String.length before)%nat
      with (String.length ("[" ++ body ++ "]"))
      by (rewrite !length_append; cbn [String.length]; lia).
    replace ("[" ++ body ++ "]" ++ after) with (("[" ++ body ++ "]") ++ after)
      by (rewrite !append_assoc; reflexivity).
    apply take_append. }
  rewrite Hslice. reflexivity.
Qed.

End Prose.

Lemma parse_response_ignores_prose_witness :
  Analyzer.parse_response " Here are the leads: [1, 2] - that is all
" = Json.JList [Json.JInt 1; Json.JInt 2].
Proof.
  apply (parse_response_ignores_prose _ "Here are the leads: " "1, 2"
           " - that is all"); reflexivity.
Defined.

(** ** The exclusion words *)

Section Exclusion.
Import Filter.

Lemma startswith_prefix (p s : string) :
  PyStr.startswith p s = true <-> exists b, s = p ++ b.
Proof.
  revert s. induction p as [|a p IH]; intros s; cbn [PyStr.startswith].
  - split; [intros _; exists s; reflexivity | reflexivity].
  - destruct s as [|b s].
    + split; [discriminate|]. intros [x Hx]. rewrite append_cons in Hx.
      discriminate.
    + destruct (Ascii.eqb a b) eqn:E.
      * apply Ascii.eqb_eq in E as ->. rewrite IH.
        split; intros [x Hx]; exists x.
        -- rewrite append_cons, Hx. reflexivity.
        -- rewrite append_cons in Hx. injection Hx as Hx. exact Hx.
      * split; [discriminate|]. intros [x Hx]. rewrite append_cons in Hx.
        injection Hx as Ha _. subst. rewrite Ascii.eqb_refl in E. discriminate.
Qed.

Lemma find_from_here (sub s : string) (i : nat) :
  PyStr.startswith sub s = true -> PyStr.find_from sub s i = Some i.
Proof. intros H. destruct s; cbn [PyStr.find_from]; rewrite H; reflexivity. Qed.

Lemma find_from_substring (sub s : string) (i j : nat) :
  PyStr.find_from sub s i = Some j -> exists a b, s = a ++ sub ++ b.
Proof.
  revert i. induction s as [|c s IH]; intros i; cbn [PyStr.find_from];
    destruct (PyStr.startswith sub _) eqn:E.
  - intros _. apply startswith_prefix in E as [b Hb]. exists "", b. exact Hb.
  - discriminate.
  - intros _. apply startswith_prefix in E as [b Hb]. exists "", b. exact Hb.
  - intros H. apply IH in H as (a & b & ->). exists (String c a), b.
    reflexivity.
Qed.

Lemma substring_find_from (sub a b : string) (i : nat) :
  is_Some (PyStr.find_from sub (a ++ sub ++ b) i).
Proof.
  revert i. induction a as [|c a IH]; intros i.
  - rewrite append_nil_l, find_from_here; [eauto|].
    apply startswith_prefix. eauto.
  - rewrite append_cons. cbn [PyStr.find_from].
    destruct (PyStr.startswith sub _); [eauto | apply IH].
Qed.

(** [sub in s] holds exactly when [sub] is a substring of [s]. *)
Lemma contains_substring (sub s : string) :
  PyStr.contains sub s = true <-> exists a b, s = a ++ sub ++ b.
Proof.
  unfold PyStr.contains, PyStr.find. split.
  - destruct (PyStr.find_from sub s 0) eqn:E; [|discriminate].
    intros _. eapply find_from_substring, E.
  - intros (a & b & ->).
    destruct (substring_find_from sub a b 0) as [j ->]. reflexivity.
Qed.

Lemma excluded_spec (words : list string) (text_lower : string) :
  excluded words text_lower = true
  <-> exists word, word ∈ words /\ PyStr.contains word text_lower = true.
Proof.
  induction words as [|x words IH]; cbn [excluded].
  - split; [discriminate|]. intros (word & Hin & _).
    apply elem_of_nil in Hin. contradiction.
  - destruct (PyStr.contains x text_lower) eqn:E.
    + split; [|reflexivity]. intros _. exists x.
      split; [apply elem_of_cons; left; reflexivity | exact E].
    + rewrite IH. split; intros (word & Hin & Hc).
      * exists word. split; [apply elem_of_cons; right; exact Hin | exact Hc].
      * apply elem_of_cons in Hin as [->|Hin]; [congruence|eauto].
Qed.

(** The content filter keeps the order of the messages and drops exactly
    those whose lower-cased text has an exclusion word as a substring. *)
Theorem filter_messages_drops_substring_matches (cfg : Config)
    (messages : list ParsedMessage) :
  sublist (filter_messages cfg messages) messages
  /\ forall msg,
       msg ∈ filter_messages cfg messages
       <-> msg ∈ messages
           /\ forall word a b,
                word ∈ exclude_words cfg ->
                PyStr.lower (text msg) <> a ++ word ++ b.
Proof.
  split; [apply filter_sublist|]. intros msg. unfold filter_messages.
  rewrite !list_elem_of_In, filter_In, negb_true_iff.
  split; intros [Hin Hex]; (split; [exact Hin|]).
  - intros word a b Hw Heq.
    assert (H : excluded (exclude_words cfg) (PyStr.lower (text msg)) = true);
      [|congruence].
    apply excluded_spec. exists word. split; [exact Hw|].
    apply contains_substring. eauto.
  - destruct (excluded _ _) eqn:E; [|reflexivity].
    apply excluded_spec in E as (word & Hw & Hc).
    apply contains_substring in Hc as (a & b & Hc).
    destruct (Hex word a b Hw Hc).
Qed.

(** An empty exclusion word is a substring of every text: with one in the
    configuration the filter drops every message. *)
Theorem empty_exclusion_word_drops_everything (cfg : Config)
    (messages : list ParsedMessage) :
  "" ∈ exclude_words cfg -> filter_messages cfg messages = [].
Proof.
  intros Hin. unfold filter_messages.
  induction messages as [|msg messages IH]; [reflexivity|].
  cbn [List.filter].
  assert (H : excluded (exclude_words cfg) (PyStr.lower (text msg)) = true).
  { apply excluded_spec. exists "". split; [exact Hin|].
    apply contains_substring. exists "", (PyStr.lower (text msg)). reflexivity. }
  rewrite H. exact IH.
Qed.

End Exclusion.

Lemma empty_exclusion_word_drops_everything_witness :
  Filter.filter_messages Exclusions.with_blank Sample.four_texts = [].
Proof.
  apply (empty_exclusion_word_drops_everything Exclusions.with_blank
           Sample.four_texts).
  apply elem_of_cons. right. apply elem_of_cons. left. reflexivity.
Defined.

(** ** Reading a chat *)

Section Parsing.
Import UserBot.

Lemma take_chars_prefix (n : nat) (s : string) :
  exists rest, s = take_chars n s ++ rest.
Proof.
  revert n. induction s as [|c s IH]; intros n; cbn [take_chars].
  - exists "". reflexivity.
  - destruct (_ && _).
    + destruct (IH n) as [rest Hr]. exists rest.
      rewrite append_cons, <- Hr. reflexivity.
    + destruct n as [|k].
      * exists (String c s). reflexivity.
      * destruct (IH k) as [rest Hr]. exists rest.
        rewrite append_cons, <- Hr. reflexivity.
Qed.

Lemma take_chars_length (n : nat) (s : string) :
  (char_length (take_chars n s) <= n)%nat.
Proof.
  revert n. induction s as [|c s IH]; intros n; cbn [take_chars].
  - cbn. lia.
  - destruct (_ && _) eqn:E.
    + cbn [char_length]. rewrite E. apply IH.
    + destruct n as [|k]; cbn [char_length]; [lia|]. rewrite E.
      specialize (IH k). lia.
Qed.

Lemma take_chars_all (n : nat) (s : string) :
  (char_length s <= n)%nat -> take_chars n s = s.
Proof.
  revert n. induction s as [|c s IH]; intros n H; cbn [take_chars];
    [reflexivity|].
  cbn [char_length] in H. destruct (_ && _).
  - f_equal. apply IH, H.
  - destruct n as [|k]; [lia|]. f_equal. apply IH. lia.
Qed.

Lemma take_chars_nonempty (n : nat) (s : string) :
  s <> "" -> take_chars (S n) s <> "".
Proof.
  destruct s as [|c s]; [congruence|]. intros _. cbn [take_chars].
  destruct (_ && _); discriminate.
Qed.

Lemma truthy_str_spec (o : option string) :
  truthy_str o = true <-> exists s, o = Some s /\ s <> "".
Proof.
  destruct o as [s|]; cbn [truthy_str].
  - rewrite negb_true_iff. split.
    + intros H. exists s. split; [reflexivity|]. intros ->. discriminate.
    + intros (s' & [= <-] & Hs). apply String.eqb_neq, Hs.
  - split; [discriminate | intros (s & [=] & _)].
Qed.

Lemma parse_message_fields (c : Z) (e : Entity) (msg : RawMessage)
    (m : ParsedMessage) :
  parse_message c e msg = Some m ->
  message_id m = raw_id msg /\ chat_id m = c /\ date m = raw_date msg
  /\ chat_title m = title e /\ chat_username m = entity_username e
  /\ raw_text msg = Some (text m) /\ text m <> ""
  /\ truthy_Z (raw_sender_id msg) = true
  /\ exists sender, raw_sender msg = Some sender
                    /\ user_id m = sender_user_id sender
                    /\ username m = sender_username sender
                    /\ first_name m = sender_first_name sender.
Proof.
  unfold parse_message.
  destruct (truthy_str (raw_text msg)) eqn:Et; [|discriminate].
  destruct (truthy_Z (raw_sender_id msg)) eqn:Es; [|discriminate].
  cbn [negb orb]. apply truthy_str_spec in Et as (s & Hs & Hne).
  rewrite Hs. destruct (raw_sender msg) as [sender|]; [|discriminate].
  intros [= <-]. cbn. repeat split; try assumption. eauto 10.
Qed.

(** The text of the message replied to is kept for chats that are no
    forums, cut after its first 200 characters: what is kept is a non-empty
    prefix of that text of at most 200 characters, and the whole text when
    it is no longer than that. *)
Theorem reply_text_truncated (c : Z) (e : Entity) (msg : RawMessage)
    (m : ParsedMessage) (t : string) :
  parse_message c e msg = Some m ->
  reply_to_text m = Some t ->
  forum e = false
  /\ exists r full,
       raw_reply_to msg = Some r /\ replied_text r = Some full
       /\ (exists rest, full = t ++ rest)
       /\ t <> ""
       /\ (char_length t <= 200)%nat
       /\ ((char_length full <= 200)%nat -> t = full).
Proof.
  unfold parse_message.
  destruct (negb _ || negb _); [discriminate|].
  destruct (raw_sender msg) as [sender|]; [|discriminate].
  destruct (raw_text msg) as [msg_text|]; [|discriminate].
  intros [= <-]. cbn [reply_to_text].
  destruct (raw_reply_to msg) as [r|]; [|discriminate].
  destruct (forum e); [discriminate|]. cbn [negb andb].
  destruct (truthy_Z (reply_to_msg_id r)); [|discriminate].
  destruct (truthy_str (replied_text r)) eqn:Et; [|discriminate].
  apply truthy_str_spec in Et as (full & Hfull & Hne). rewrite Hfull.
  intros [= <-]. split; [reflexivity|]. exists r, full.
  split; [reflexivity|]. split; [exact Hfull|].
  split; [apply take_chars_prefix|].
  split; [apply take_chars_nonempty, Hne|].
  split; [apply take_chars_length | apply take_chars_all].
Qed.

Lemma parse_message_topic_or_reply (c : Z) (e : Entity) (msg : RawMessage)
    (m : ParsedMessage) :
  parse_message c e msg = Some m ->
  (forum e = true -> reply_to_text m = None)
  /\ (forum e = false -> topic_id m = None).
Proof.
  unfold parse_message.
  destruct (negb _ || negb _); [discriminate|].
  destruct (raw_sender msg) as [sender|]; [|discriminate].
  destruct (raw_text msg) as [msg_text|]; [|discriminate].
  intros [= <-]. cbn [reply_to_text topic_id].
  destruct (raw_reply_to msg) as [r|]; [|split; reflexivity].
  destruct (forum e); cbn [negb andb]; split; try reflexivity; discriminate.
Qed.

Variable w : World.

Lemma handled_sublist (p : peer) (min_id : option Z) (e : Entity) :
  entity (chat_of w p) = Ok e ->
  exists handled,
    get_new_messages w p min_id = omap (parse_message (peer_chat_id p) e) handled
    /\ sublist handled
         (List.filter (fun m => default 0 min_id <? raw_id m)
            (history (chat_of w p))).
Proof.
  intros He. unfold get_new_messages. rewrite He.
  replace (match min_id with Some n => n | None => 0 end)
    with (default 0 min_id) by (destruct min_id; reflexivity).
  eexists. split; [reflexivity|]. unfold iter_messages.
  destruct (interrupted (chat_of w p)) as [k|].
  - etransitivity; apply sublist_take.
  - apply sublist_take.
Qed.

Lemma omap_ids_sublist (c : Z) (e : Entity) (l h : list RawMessage) :
  sublist l h ->
  sublist (map message_id (omap (parse_message c e) l)) (map raw_id h).
Proof.
  induction 1 as [|x l h _ IH|x l h _ IH]; [constructor| |].
  - change (omap (parse_message c e) (x :: l))
      with (match parse_message c e x with
            | Some y => y :: omap (parse_message c e) l
            | None => omap (parse_message c e) l
            end).
    destruct (parse_message c e x) as [m|] eqn:E; cbn [map].
    + apply parse_message_fields in E as [-> _]. constructor. exact IH.
    + constructor. exact IH.
  - cbn [map]. constructor. exact IH.
Qed.

(** Every message a fetch returns is made from a message of the history
    with an id above [min_id], a text that is not empty, a sender id and a
    sender, and carries its id, text and date and the chat id of the peer;
    the returned messages are in the order of the history. *)
Theorem get_new_messages_from_history (p : peer) (min_id : option Z) :
  sublist (map message_id (get_new_messages w p min_id))
    (map raw_id (history (chat_of w p)))
  /\ forall m, m ∈ get_new_messages w p min_id ->
       chat_id m = peer_chat_id p
       /\ text m <> ""
       /\ exists raw sender,
            raw ∈ history (chat_of w p)
            /\ default 0 min_id < raw_id raw
            /\ raw_id raw = message_id m
            /\ raw_text raw = Some (text m)
            /\ raw_date raw = date m
            /\ truthy_Z (raw_sender_id raw) = true
            /\ raw_sender raw = Some sender
            /\ sender_user_id sender = user_id m.
Proof.
  destruct (entity (chat_of w p)) as [e|x] eqn:He.
  2: { unfold get_new_messages. rewrite He. split; [apply sublist_nil_l|].
       intros m H. apply elem_of_nil in H. contradiction. }
  destruct (handled_sublist p min_id e He) as (handled & -> & Hsub).
  split.
  - apply omap_ids_sublist. etransitivity; [exact Hsub | apply filter_sublist].
  - intros m H. apply list_elem_of_omap in H as (raw & Hraw & Hparse).
    apply parse_message_fields in Hparse
      as (Hid & Hc & Hd & _ & _ & Ht & Hne & Hs & sender & Hsender & Hu & _).
    split; [exact Hc|]. split; [exact Hne|]. exists raw, sender.
    eapply elem_of_sublist in Hraw; [|exact Hsub].
    apply list_elem_of_In, List.filter_In in Hraw as [Hin Hlt].
    apply Z.ltb_lt in Hlt. apply list_elem_of_In in Hin.
    repeat split; congruence || assumption.
Qed.

(** A fetched message never carries both a topic and the text of a message
    replied to: in a forum no reply text is kept, elsewhere no topic. *)
Theorem topic_in_forums_reply_elsewhere (p : peer) (min_id : option Z)
    (e : Entity) (m : ParsedMessage) :
  entity (chat_of w p) = Ok e ->
  m ∈ get_new_messages w p min_id ->
  (forum e = true -> reply_to_text m = None)
  /\ (forum e = false -> topic_id m = None).
Proof.
  intros He H. destruct (handled_sublist p min_id e He) as (handled & Hg & _).
  rewrite Hg in H. apply list_elem_of_omap in H as (raw & _ & Hparse).
  eapply parse_message_topic_or_reply, Hparse.
Qed.

(** When nothing interrupts the reading and at most 100 messages of the
    history lie above [min_id], every one of them that has a text, a sender
    id and a sender is returned. *)
Theorem get_new_messages_complete (p : peer) (min_id : option Z) (e : Entity)
    (raw : RawMessage) (sender : Sender) :
  entity (chat_of w p) = Ok e ->
  interrupted (chat_of w p) = None ->
  (length (List.filter (fun m => (default 0 min_id <? raw_id m)%Z)
             (history (chat_of w p))) <= 100)%nat ->
  raw ∈ history (chat_of w p) ->
  default 0 min_id < raw_id raw ->
  truthy_str (raw_text raw) = true ->
  truthy_Z (raw_sender_id raw) = true ->
  raw_sender raw = Some sender ->
  exists m, m ∈ get_new_messages w p min_id
            /\ message_id m = raw_id raw /\ raw_text raw = Some (text m).
Proof.
  intros He Hi Hlen Hin Hlt Ht Hs Hsender.
  unfold get_new_messages. rewrite He, Hi.
  replace (match min_id with Some n => n | None => 0 end)
    with (default 0 min_id) by (destruct min_id; reflexivity).
  unfold iter_messages. rewrite firstn_all2 by exact Hlen.
  destruct (parse_message (peer_chat_id p) e raw) as [m|] eqn:E.
  - exists m. split.
    + apply list_elem_of_omap. exists raw. split; [|exact E].
      apply list_elem_of_In, List.filter_In.
      split; [apply list_elem_of_In, Hin | apply Z.ltb_lt, Hlt].
    + apply parse_message_fields in E as (Hid & _ & _ & _ & _ & Htext & _).
      split; assumption.
  - unfold parse_message in E. rewrite Ht, Hs, Hsender in E. cbn in E.
    apply truthy_str_spec in Ht as (s & Hs' & _). rewrite Hs' in E.
    discriminate.
Qed.

End Parsing.

Lemma reply_text_truncated_witness :
  forum Sample.flats = false
  /\ exists r full,
       raw_reply_to Replies.answer = Some r /\ replied_text r = Some full
       /\ (exists rest, full = "old flat" ++ rest)
       /\ "old flat" <> ""
       /\ (char_length "old flat" <= 200)%nat
       /\ ((char_length full <= 200)%nat -> "old flat" = full).
Proof.
  apply (reply_text_truncated 1 Sample.flats Replies.answer
           Replies.parsed_answer "old flat"); reflexivity.
Defined.

Lemma topic_in_forums_reply_elsewhere_witness :
  (forum Sample.flats = true -> reply_to_text Replies.parsed_answer = None)
  /\ (forum Sample.flats = false -> topic_id Replies.parsed_answer = None).
Proof.
  apply (topic_in_forums_reply_elsewhere Replies.world (PeerChannel 1) None
           Sample.flats Replies.parsed_answer); [reflexivity|].
  vm_compute. apply elem_of_cons. left. reflexivity.
Defined.

Lemma get_new_messages_complete_witness :
  exists m, m ∈ UserBot.get_new_messages Replies.world (PeerChannel 1) None
            /\ message_id m = raw_id Replies.answer
            /\ raw_text Replies.answer = Some (text m).
Proof.
  apply (get_new_messages_complete Replies.world (PeerChannel 1) None
           Sample.flats Replies.answer Sample.bob);
    try reflexivity.
  - vm_compute. lia.
  - vm_compute. apply elem_of_cons. left. reflexivity.
Defined.

(** ** The repository *)

Section Users.
Import Repository.

Variable w : World.

Lemma find_user_app_fresh (tid : Z) (us : list ProcessedUser) (u : ProcessedUser) :
  find_user tid us = None -> pu_telegram_user_id u = tid ->
  find_user tid (us ++ [u])%list = Some u.
Proof.
  unfold find_user. intros H Hu. induction us as [|x us IH]; cbn in *.
  - rewrite Hu, Z.eqb_refl. reflexivity.
  - destruct (pu_telegram_user_id x =? tid); [discriminate|]. apply IH, H.
Qed.

Lemma find_user_found (tid : Z) (us : list ProcessedUser) (u : ProcessedUser) :
  find_user tid us = Some u -> u ∈ us /\ pu_telegram_user_id u = tid.
Proof.
  unfold find_user. intros H. apply find_some in H as [Hin Hu].
  split; [apply list_elem_of_In, Hin | apply Z.eqb_eq, Hu].
Qed.

Lemma find_user_none (tid : Z) (us : list ProcessedUser) :
  find_user tid us = None -> tid ∉ map pu_telegram_user_id us.
Proof.
  unfold find_user. intros H Hin.
  apply list_elem_of_In, in_map_iff in Hin as (u & Hu & Hin).
  eapply find_none in H; [|exact Hin]. cbn in H. lia.
Qed.

Lemma get_or_create_user_ok (tid : Z) (n f : option string) (st st' : St)
    (u : ProcessedUser) :
  get_or_create_user w tid n f st = (Ok u, st') ->
  find_user tid (processed_users (db st')) = Some u
  /\ pu_telegram_user_id u = tid
  /\ db_calls st' = S (db_calls st)
  /\ (find_user tid (processed_users (db st)) = Some u /\ db st' = db st
      \/ find_user tid (processed_users (db st)) = None
         /\ pu_username u = n /\ pu_first_name u = f
         /\ db st' = set_processed_users (processed_users (db st) ++ [u]) (db st)).
Proof.
  unfold get_or_create_user, bind, db_call, get_db, put_db, ret.
  destruct (db_fails w (db_calls st)); [discriminate|]. cbn.
  destruct (find_user tid (processed_users (db st))) as [user|] eqn:E; cbn.
  - intros [= <- <-]. cbn. destruct (find_user_found _ _ _ E) as [_ Hu].
    split; [exact E|]. split; [exact Hu|]. split; [reflexivity|].
    left. split; reflexivity.
  - intros [= <- <-]. cbn.
    split; [apply find_user_app_fresh; [exact E | reflexivity]|].
    split; [reflexivity|]. split; [reflexivity|].
    right. repeat split; reflexivity.
Qed.

(** A user is stored once: a second call for the same Telegram id returns
    the stored row, with the names of the first call, and writes nothing. *)
Theorem get_or_create_user_first_wins (tid : Z) (n1 f1 n2 f2 : option string)
    (st st1 st2 : St) (u1 u2 : ProcessedUser) :
  get_or_create_user w tid n1 f1 st = (Ok u1, st1) ->
  get_or_create_user w tid n2 f2 st1 = (Ok u2, st2) ->
  u2 = u1 /\ db st2 = db st1 /\ pu_telegram_user_id u1 = tid.
Proof.
  intros H1 H2.
  apply get_or_create_user_ok in H1 as (Hfound & Htid & _).
  apply get_or_create_user_ok in H2 as (_ & _ & _ & [[Hf Hdb]|[Hf _]]);
    rewrite Hfound in Hf; [|discriminate].
  injection Hf as <-. repeat split; assumption.
Qed.

(** Recording a verdict changes nothing but the analysis of the rows with
    the given id: the rows keep their number, their order and their other
    fields, rows with another id are untouched, and a row with the id gets
    the verdict and the reading of the clock; an id without a row changes
    nothing at all. *)
Theorem update_message_lead_status_one_row (message_id : Z) (is_lead : bool)
    (confidence reason : Json.json) (st st' : St) (x : unit) :
  update_message_lead_status w message_id is_lead confidence reason st
  = (Ok x, st') ->
  map unanalysed (messages (db st')) = map unanalysed (messages (db st))
  /\ (forall i row', messages (db st') !! i = Some row' ->
        exists row, messages (db st) !! i = Some row
          /\ (msg_id row <> message_id -> row' = row)
          /\ (msg_id row = message_id ->
              msg_is_lead row' = Some is_lead
              /\ msg_confidence row' = Some confidence
              /\ msg_reason row' = Some reason
              /\ msg_analyzed_at row' = Some (clock w (clock_reads st))))
  /\ ((forall row, row ∈ messages (db st) -> msg_id row <> message_id) ->
      db st' = db st).
Proof.
  unfold update_message_lead_status, bind, db_call, get_db, put_db, now, ret.
  destruct (db_fails w (db_calls st)); [discriminate|]. cbn.
  destruct (existsb _ (messages (db st))) eqn:E; cbn; intros [= <- <-]; cbn.
  - split; [|split].
    + rewrite map_map. apply map_ext. intros m.
      destruct (msg_id m =? message_id); reflexivity.
    + intros i row' Hrow'.
      change (map ?f ?l) with (f <$> l) in Hrow'.
      rewrite list_lookup_fmap in Hrow'.
      destruct (messages (db st) !! i) as [row|]; [|discriminate].
      injection Hrow' as <-. exists row. split; [reflexivity|].
      destruct (msg_id row =? message_id) eqn:Eid.
      * apply Z.eqb_eq in Eid. split; [congruence|]. intros _.
        repeat split; reflexivity.
      * apply Z.eqb_neq in Eid. split; [reflexivity | congruence].
    + intros Hnone. apply existsb_exists in E as (row & Hin & Hid).
      apply Z.eqb_eq in Hid. destruct (Hnone row); [apply list_elem_of_In, Hin | exact Hid].
  - split; [reflexivity|]. split; [|reflexivity].
    intros i row' Hrow'. exists row'. split; [exact Hrow'|].
    split; [reflexivity|]. intros Hid.
    assert (Hex : existsb (fun m => msg_id m =? message_id) (messages (db st)) = true).
    { apply existsb_exists. exists row'.
      split; [eapply list_elem_of_In, list_elem_of_lookup_2, Hrow' | apply Z.eqb_eq, Hid]. }
    congruence.
Qed.

End Users.

Lemma get_or_create_user_first_wins_witness :
  fst Users.second = Ok Users.bob_row
  /\ db (snd Users.second) = db (snd Users.first).
Proof.
  destruct (get_or_create_user_first_wins Users.w 77 (Some "bob") None
              (Some "robert") (Some "Rob") Sample.st0 (snd Users.first)
              (snd Users.second) Users.bob_row Users.bob_row)
    as (_ & H & _); [reflexivity | reflexivity |].
  split; [reflexivity | exact H].
Defined.

Lemma update_message_lead_status_one_row_witness :
  map unanalysed (messages (db (snd Users.judged)))
  = map unanalysed (messages (db Users.saved)).
Proof.
  apply (update_message_lead_status_one_row Users.w 1 true (Json.JFloat 9 (-1))
           (Json.JStr "sells a car") Users.saved (snd Users.judged) tt).
  reflexivity.
Defined.

(** ** Processed posts *)

Section Posts.
Import Repository.

Variable w : World.

Lemma mark_all_lookup (t : Z) (posts : list (string * string))
    (ps : gmap string FacebookProcessedPost) (p : string) :
  mark_all t posts ps !! p
  = match ps !! p with
    | Some r => Some r
    | None =>
        (fun x => {| fp_group_id := snd x; fp_processed_at := t |})
          <$> List.find (fun x => String.eqb (fst x) p) posts
    end.
Proof.
  revert ps. induction posts as [|[post_id group_id] posts IH]; intros ps;
    cbn [mark_all List.find fst].
  - destruct (ps !! p); reflexivity.
  - destruct (String.eqb post_id p) eqn:E.
    + apply String.eqb_eq in E as ->.
      destruct (ps !! p) as [r|] eqn:Ep; rewrite IH.
      * rewrite Ep. reflexivity.
      * rewrite lookup_insert_eq. reflexivity.
    + apply String.eqb_neq in E.
      destruct (ps !! post_id) as [r|] eqn:Ep; rewrite IH; [reflexivity|].
      rewrite lookup_insert_ne by exact E. reflexivity.
Qed.

Lemma find_fst_is_Some (posts : list (string * string)) (p : string) :
  is_Some (List.find (fun x => String.eqb (fst x) p) posts) <-> p ∈ map fst posts.
Proof.
  induction posts as [|[a g] posts IH]; cbn [List.find map fst].
  - split; [intros [x Hx]; discriminate | intros H; apply elem_of_nil in H; contradiction].
  - rewrite elem_of_cons. destruct (String.eqb a p) eqn:E.
    + apply String.eqb_eq in E. split; [left; congruence | eauto].
    + apply String.eqb_neq in E. rewrite IH. split; [tauto|].
      intros [H|H]; [congruence | exact H].
Qed.

(** After a batch a post is processed exactly when it was before or is in
    the batch; a record that existed is left as it was, and a new record
    carries the group of the first entry of the batch for its post. *)
Theorem mark_facebook_posts_batch_spec (posts : list (string * string))
    (st st' : St) (x : unit) (p : string) :
  mark_facebook_posts_batch w posts st = (Ok x, st') ->
  (is_Some (facebook_processed_posts (db st') !! p)
   <-> is_Some (facebook_processed_posts (db st) !! p) \/ p ∈ map fst posts)
  /\ (forall r, facebook_processed_posts (db st) !! p = Some r ->
        facebook_processed_posts (db st') !! p = Some r)
  /\ (facebook_processed_posts (db st) !! p = None ->
      fp_group_id <$> facebook_processed_posts (db st') !! p
      = snd <$> List.find (fun x => String.eqb (fst x) p) posts).
Proof.
  unfold mark_facebook_posts_batch, bind, db_call, get_db, put_db, now, ret.
  destruct (db_fails w (db_calls st)); [discriminate|]. cbn.
  intros [= <- <-]. cbn. rewrite mark_all_lookup.
  destruct (facebook_processed_posts (db st) !! p) as [r|] eqn:E.
  - split; [split; eauto|]. split; [intros r' [= <-]; reflexivity | discriminate].
  - split; [|split; [discriminate|]].
    + rewrite fmap_is_Some, find_fst_is_Some. split; [eauto|].
      intros [[r Hr]|H]; [discriminate | exact H].
    + intros _. destruct (List.find _ posts); reflexivity.
Qed.

Lemma mark_facebook_post_processed_groups (post_id group_id : string)
    (st st' : St) (x : unit) :
  mark_facebook_post_processed w post_id group_id st = (Ok x, st') ->
  groups_of st'
  = match groups_of st !! post_id with
    | Some _ => groups_of st
    | None => <[post_id := group_id]> (groups_of st)
    end.
Proof.
  unfold mark_facebook_post_processed, bind, db_call, get_db, put_db, now, ret,
    groups_of.
  destruct (db_fails w (db_calls st)); [discriminate|]. cbn.
  rewrite lookup_fmap.
  destruct (facebook_processed_posts (db st) !! post_id) eqn:E; cbn;
    intros [= <- <-]; cbn; [reflexivity|].
  rewrite fmap_insert. reflexivity.
Qed.

Lemma mark_all_groups (t : Z) (posts : list (string * string))
    (ps : gmap string FacebookProcessedPost) :
  fp_group_id <$> mark_all t posts ps
  = fold_left
      (fun gs x => match gs !! fst x with
                   | Some _ => gs
                   | None => <[fst x := snd x]> gs
                   end)
      posts (fp_group_id <$> ps).
Proof.
  revert ps. induction posts as [|[post_id group_id] posts IH]; intros ps;
    cbn [mark_all fold_left fst snd]; [reflexivity|].
  rewrite lookup_fmap.
  destruct (ps !! post_id) eqn:E; cbn; rewrite IH; [reflexivity|].
  rewrite fmap_insert. reflexivity.
Qed.

Lemma mark_each_groups (posts : list (string * string)) (st st' : St) (x : unit) :
  mark_each w posts st = (Ok x, st') ->
  groups_of st'
  = fold_left
      (fun gs x => match gs !! fst x with
                   | Some _ => gs
                   | None => <[fst x := snd x]> gs
                   end)
      posts (groups_of st).
Proof.
  revert st. induction posts as [|[post_id group_id] posts IH]; intros st;
    cbn [mark_each fold_left fst snd].
  - intros [= <- <-]. reflexivity.
  - intros H. apply bind_inv in H as [(u & st1 & H1 & H2)|(e & _ & ?)];
      [|discriminate].
    apply mark_facebook_post_processed_groups in H1.
    apply IH in H2. rewrite H2, H1. reflexivity.
Qed.

(** Marking a list of posts in one batch files the same posts under the
    same groups as marking them one call at a time. *)
Theorem batch_marks_as_single_marks (posts : list (string * string))
    (st st1 st2 : St) (x y : unit) :
  mark_facebook_posts_batch w posts st = (Ok x, st1) ->
  mark_each w posts st = (Ok y, st2) ->
  groups_of st1 = groups_of st2.
Proof.
  intros H1 H2. apply mark_each_groups in H2. rewrite H2.
  unfold mark_facebook_posts_batch, bind, db_call, get_db, put_db, now, ret in H1.
  destruct (db_fails w (db_calls st)); [discriminate|]. cbn in H1.
  injection H1 as _ <-. unfold groups_of. cbn. apply mark_all_groups.
Qed.

End Posts.

Lemma mark_facebook_posts_batch_spec_witness :
  (is_Some (facebook_processed_posts (db (snd Posts.batch)) !! "p1")
   <-> is_Some (facebook_processed_posts (db Sample.st0) !! "p1")
       \/ "p1" ∈ map fst Posts.listed)
  /\ (forall r, facebook_processed_posts (db Sample.st0) !! "p1" = Some r ->
        facebook_processed_posts (db (snd Posts.batch)) !! "p1" = Some r)
  /\ (facebook_processed_posts (db Sample.st0) !! "p1" = None ->
      fp_group_id <$> facebook_processed_posts (db (snd Posts.batch)) !! "p1"
      = snd <$> List.find (fun x => String.eqb (fst x) "p1") Posts.listed).
Proof.
  apply (mark_facebook_posts_batch_spec Users.w Posts.listed Sample.st0
           (snd Posts.batch) tt "p1").
  reflexivity.
Defined.

Lemma batch_marks_as_single_marks_witness :
  groups_of (snd Posts.batch) = groups_of (snd Posts.each).
Proof.
  apply (batch_marks_as_single_marks Users.w Posts.listed Sample.st0
           (snd Posts.batch) (snd Posts.each) tt tt); reflexivity.
Defined.

Lemma mark_processed_idempotent_witness :
  facebook_processed_posts (db (snd Posts.twice))
  = facebook_processed_posts (db (snd Posts.once))
  /\ is_Some (facebook_processed_posts (db (snd Posts.once)) !! "p1").
Proof.
  apply (mark_processed_idempotent Users.w "p1" "g1" Sample.st0
           (snd Posts.once) (snd Posts.twice) tt tt); reflexivity.
Defined.

(** ** The Telegram cycle with the call of the analyzer as written *)

Lemma extends_refl (st : St) : extends st st.
Proof. repeat split; [reflexivity | reflexivity | tauto]. Qed.

Lemma extends_trans (a b c : St) : extends a b -> extends b c -> extends a c.
Proof.
  intros (Hu & Hm & Hn) (Hu' & Hm' & Hn').
  repeat split; [etransitivity; eassumption | etransitivity; eassumption | tauto].
Qed.

Lemma extends_same_db (st st' : St) : db st' = db st -> extends st st'.
Proof.
  intros H. unfold extends, telegram_ids. rewrite H.
  repeat split; [reflexivity | reflexivity | tauto].
Qed.

Ltac extend :=
  repeat lazymatch goal with
    | |- preserves extends (ret _) => apply preserves_ret, extends_refl
    | |- preserves extends (raise _) => apply preserves_raise, extends_refl
    | |- preserves extends (Main.raise_of _) =>
        apply preserves_raise_of, extends_refl
    | |- preserves extends (bind _ _) =>
        apply preserves_bind; [apply extends_trans | | intros ?]
    end.

Lemma bind_ok {A B : Type} (c : M A) (k : A -> M B) (st st1 : St) (a : A) :
  c st = (Ok a, st1) -> bind c k st = k a st1.
Proof. unfold bind. intros ->. reflexivity. Qed.

Lemma raise_of_state {A : Type} (r : Result A) (st : St) (r' : Result A)
    (st' : St) :
  Main.raise_of r st = (r', st') -> r = r' /\ st' = st.
Proof. destruct r; cbn; intros [= <- <-]; split; reflexivity. Qed.

Lemma stable_chat_state : stable (fun st => chat_state (db st)).
Proof. intros st d n k H _. exact H. Qed.

Section Rows.
Import Analyzer Main.

Variable w : World.

Lemma same_db_extends {A : Type} (c : M A) :
  preserves (respects db) c -> preserves extends c.
Proof. intros H st r st' E. apply extends_same_db. exact (H _ _ _ E). Qed.

Lemma db_call_extends : preserves extends (db_call w).
Proof. apply same_db_extends, db_call_frame. reflexivity. Qed.

Lemma notify_extends (n : notification) : preserves extends (notify n).
Proof. apply same_db_extends, notify_stable. reflexivity. Qed.

Lemma get_or_create_user_extends (u : Z) (n fn : option string) :
  preserves extends (Repository.get_or_create_user w u n fn).
Proof.
  unfold Repository.get_or_create_user.
  apply preserves_bind; [apply extends_trans | apply db_call_extends | intros _].
  intros st r st' H. unfold bind, get_db in H.
  destruct (Repository.find_user u (processed_users (db st))) eqn:E.
  - injection H as <- <-. apply extends_refl.
  - cbn in H. injection H as <- <-. unfold extends, telegram_ids. cbn.
    split; [apply prefix_app_r; reflexivity|]. split; [reflexivity|].
    intros Hn. rewrite map_app. apply NoDup_app. split; [exact Hn|].
    split; [|apply NoDup_singleton].
    intros x Hx Hx'. apply list_elem_of_singleton in Hx'. cbn in Hx'. subst x.
    exact (find_user_none _ _ E Hx).
Qed.

Lemma save_message_extends (i c : Z) (t u : option string) (user : ProcessedUser)
    (x : string) (d : Z) (s : string) :
  preserves extends (Repository.save_message w i c t u user x d s).
Proof.
  unfold Repository.save_message.
  apply preserves_bind; [apply extends_trans | apply db_call_extends | intros _].
  intros st r st' H. cbn in H. injection H as <- <-.
  unfold extends, telegram_ids. cbn.
  split; [reflexivity|]. split; [|tauto].
  apply prefix_app_r. reflexivity.
Qed.

Lemma collect_extends (peers : list peer) (all : list ParsedMessage)
    (upd : list (Z * Z)) :
  preserves extends (collect w peers all upd).
Proof.
  intros st r st' H. apply collect_spec in H as [H _].
  apply extends_same_db, H.
Qed.

Lemma save_all_extends (filtered : list ParsedMessage) :
  preserves extends (save_all w filtered).
Proof.
  induction filtered as [|m filtered IH]; cbn [save_all]; extend.
  - apply get_or_create_user_extends.
  - apply save_message_extends.
  - apply IH.
Qed.

Lemma telegram_body_extends : preserves extends (Telegram.cycle_body w).
Proof.
  unfold Telegram.cycle_body. extend. destruct a as [|p peers].
  - extend. apply notify_extends.
  - extend; [apply collect_extends|].
    destruct a as [[|m all] upd].
    + extend. apply notify_extends.
    + extend; [apply save_all_extends|].
      destruct a as [|x fm]; [extend; apply notify_extends|].
      apply preserves_raise, extends_refl.
Qed.

Lemma telegram_body_stable {X : Type} (f : St -> X) :
  stable f ->
  (forall st n, f {| db := db st; db_calls := db_calls st;
                     clock_reads := clock_reads st; sent := sent st ++ [n] |}
                = f st) ->
  preserves (respects f) (Telegram.cycle_body w).
Proof.
  intros Hf Hn. unfold Telegram.cycle_body. preserve. destruct a as [|p peers].
  - preserve. apply notify_stable. intros st. apply Hn.
  - preserve; [apply collect_stable, Hf|].
    destruct a as [[|m all] upd].
    + preserve. apply notify_stable. intros st. apply Hn.
    + preserve; [apply save_all_stable, Hf|].
      destruct a as [|x fm].
      * preserve. apply notify_stable. intros st. apply Hn.
      * apply preserves_raise, respects_refl.
Qed.

(** With the call of the analyzer as written no cycle commits anything:
    whatever its outcome, every watermark and every processed post is as
    before it, so the next cycle fetches from the same watermarks again. *)
Theorem telegram_cycle_commits_nothing (st : St) :
  chat_state (db (snd (Telegram.process_cycle w st))) = chat_state (db st)
  /\ facebook_processed_posts (db (snd (Telegram.process_cycle w st)))
     = facebook_processed_posts (db st).
Proof.
  unfold Telegram.process_cycle.
  destruct (Telegram.cycle_body w st) as [[o|e] st'] eqn:E; cbn [snd]; split.
  - exact (telegram_body_stable _ stable_chat_state (fun _ _ => eq_refl) _ _ _ E).
  - exact (telegram_body_stable _ stable_processed_posts (fun _ _ => eq_refl) _ _ _ E).
  - exact (telegram_body_stable _ stable_chat_state (fun _ _ => eq_refl) _ _ _ E).
  - exact (telegram_body_stable _ stable_processed_posts (fun _ _ => eq_refl) _ _ _ E).
Qed.

(** Whatever its outcome, the cycle only adds rows: the users and the
    messages stored before are the first rows after it, unchanged and in the
    same order. *)
Theorem telegram_cycle_only_appends_rows (st : St) :
  processed_users (db st)
    `prefix_of` processed_users (db (snd (Telegram.process_cycle w st)))
  /\ messages (db st)
       `prefix_of` messages (db (snd (Telegram.process_cycle w st))).
Proof.
  unfold Telegram.process_cycle.
  destruct (Telegram.cycle_body w st) as [[o|e] st'] eqn:E; cbn [snd];
    destruct (telegram_body_extends _ _ _ E) as (Hu & Hm & _); split; assumption.
Qed.

(** When no two stored users share a Telegram id, none do after a cycle. *)
Theorem telegram_cycle_keeps_users_unique (st : St) :
  NoDup (telegram_ids st) ->
  NoDup (telegram_ids (snd (Telegram.process_cycle w st))).
Proof.
  unfold Telegram.process_cycle.
  destruct (Telegram.cycle_body w st) as [[o|e] st'] eqn:E; cbn [snd];
    destruct (telegram_body_extends _ _ _ E) as (_ & _ & H); exact H.
Qed.

Lemma telegram_body_emits (st : St) (r : Result outcome) (st' : St) :
  Telegram.cycle_body w st = (r, st') ->
  match r with
  | Raise _ => sent st' = sent st
  | Ok NoChats | Ok NoMessages =>
      sent st' = (sent st ++ [SendStats 0 0 0 0 "telegram"])%list
  | Ok NothingToAnalyze =>
      exists total,
        0 < total
        /\ sent st' = (sent st ++ [SendStats total 0 0 0 "telegram"])%list
  | Ok _ => False
  end.
Proof.
  unfold Telegram.cycle_body. intros H.
  apply bind_inv in H as [(peers & st0 & Hp & H)|(e & Hp & ->)];
    apply raise_of_state in Hp as [_ ->]; [|reflexivity].
  destruct peers as [|p peers].
  { apply bind_inv in H as [(? & st1 & Hs & H)|(e & Hs & ?)]; [|discriminate].
    injection H as <- <-. apply notify_sent in Hs as [_ Hs]. exact Hs. }
  apply bind_inv in H as [([all upd] & st1 & Hc & H)|(e & Hc & ->)];
    apply (collect_stable w sent stable_sent) in Hc; [|exact Hc].
  destruct all as [|m all].
  { apply bind_inv in H as [(? & st2 & Hs & H)|(e & Hs & ?)]; [|discriminate].
    injection H as <- <-. apply notify_sent in Hs as [_ Hs].
    rewrite Hs, Hc. reflexivity. }
  apply bind_inv in H as [(fm & st2 & Hsv & H)|(e & Hsv & ->)];
    apply (save_all_stable w sent stable_sent) in Hsv;
    [|rewrite Hsv; exact Hc].
  destruct fm as [|x fm].
  - apply bind_inv in H as [(? & st3 & Hs & H)|(e & Hs & ?)]; [|discriminate].
    injection H as <- <-. apply notify_sent in Hs as [_ Hs].
    exists (len (m :: all)).
    split; [unfold len; cbn [length]; lia | rewrite Hs, Hsv, Hc; reflexivity].
  - injection H as <- <-. rewrite Hsv. exact Hc.
Qed.

(** With the call of the analyzer as written the cycle never reports a
    message as filtered or analysed, nor a lead.  What it sends follows from
    how it ends: nothing when it fails, one all-zero summary when the folder
    has no chat or nothing was fetched, and one summary that counts the
    fetched messages, followed by three zeros, when every fetched message
    was filtered out.  It never ends past the analysis. *)
Theorem telegram_cycle_reports_only_totals (st : St) :
  exists new,
    sent (snd (Telegram.process_cycle w st)) = (sent st ++ new)%list
    /\ match fst (Telegram.process_cycle w st) with
       | Failed _ => new = []
       | NoChats | NoMessages => new = [SendStats 0 0 0 0 "telegram"]
       | NothingToAnalyze =>
           exists total, 0 < total /\ new = [SendStats total 0 0 0 "telegram"]
       | AnalysisIncomplete | Complete => False
       end.
Proof.
  unfold Telegram.process_cycle.
  destruct (Telegram.cycle_body w st) as [[o|e] st'] eqn:E;
    apply telegram_body_emits in E; cbn [fst snd].
  - destruct o; try contradiction.
    + eexists. split; [exact E | reflexivity].
    + eexists. split; [exact E | reflexivity].
    + destruct E as (total & Ht & E). eexists. split; [exact E|].
      exists total. split; [exact Ht | reflexivity].
  - exists []. rewrite app_nil_r. split; [exact E | reflexivity].
Qed.

Lemma save_all_length (filtered : list ParsedMessage) (st : St)
    (fm : list (ParsedMessage * Message * ProcessedUser)) (st' : St) :
  save_all w filtered st = (Ok fm, st') -> length fm = length filtered.
Proof.
  revert st fm st'. induction filtered as [|m filtered IH]; intros st fm st';
    cbn [save_all].
  - intros [= <- _]. reflexivity.
  - intros H.
    apply bind_inv in H as [(u & st1 & _ & H)|(e & _ & ?)]; [|discriminate].
    apply bind_inv in H as [(dm & st2 & _ & H)|(e & _ & ?)]; [|discriminate].
    apply bind_inv in H as [(saved & st3 & Hs & H)|(e & _ & ?)]; [|discriminate].
    injection H as <- _. cbn [length]. f_equal. eapply IH, Hs.
Qed.

Hypothesis db_works : forall n, db_fails w n = false.

Lemma get_or_create_user_runs (tid : Z) (n f : option string) (st : St) :
  exists u st',
    Repository.get_or_create_user w tid n f st = (Ok u, st')
    /\ messages (db st') = messages (db st).
Proof.
  unfold Repository.get_or_create_user, bind, db_call, get_db, put_db, ret.
  rewrite db_works. cbn.
  destruct (Repository.find_user _ _); cbn; eexists _, _; split; reflexivity.
Qed.

Lemma save_message_runs (i c : Z) (t u : option string) (user : ProcessedUser)
    (x : string) (d : Z) (s : string) (st : St) :
  exists dm st',
    Repository.save_message w i c t u user x d s st = (Ok dm, st')
    /\ length (messages (db st')) = S (length (messages (db st))).
Proof.
  unfold Repository.save_message, bind, db_call, get_db, put_db, ret.
  rewrite db_works. cbn. eexists _, _. split; [reflexivity|].
  cbn. rewrite length_app. cbn [length]. lia.
Qed.

Lemma save_all_ok (filtered : list ParsedMessage) (st : St) :
  exists fm st',
    save_all w filtered st = (Ok fm, st')
    /\ length (messages (db st'))
       = (length (messages (db st)) + length filtered)%nat.
Proof.
  revert st. induction filtered as [|m filtered IH]; intros st; cbn [save_all].
  - exists [], st. split; [reflexivity | cbn; lia].
  - destruct (get_or_create_user_runs (user_id m) (username m) (first_name m) st)
      as (u & st1 & Hu & Hm1).
    rewrite (bind_ok _ _ _ _ _ Hu).
    destruct (save_message_runs (message_id m) (chat_id m) (chat_title m)
                (chat_username m) u (text m) (date m) "telegram" st1)
      as (dm & st2 & Hs & Hm2).
    rewrite (bind_ok _ _ _ _ _ Hs).
    destruct (IH st2) as (fm & st3 & Hsv & Hrows).
    rewrite (bind_ok _ _ _ _ _ Hsv).
    eexists _, st3. split; [reflexivity|].
    rewrite Hrows, Hm2, Hm1. cbn [length]. lia.
Qed.

(** With the call of the analyzer as written, a cycle that has a message to
    analyse ends in the [TypeError] of that call: the messages that passed
    the filter are saved, nothing is sent, and no watermark moves. *)
Theorem telegram_message_to_analyse_fails_cycle (st : St) (peers : list peer)
    (all : list ParsedMessage) (upd : list (Z * Z)) (st1 : St) :
  folder_chats w = Ok peers ->
  collect w peers [] [] st = (Ok (all, upd), st1) ->
  filter_stage (config w) all <> [] ->
  fst (Telegram.process_cycle w st)
  = Failed (Exn "TypeError"
              "analyze_messages_batch() got an unexpected keyword argument 'prompt_type'")
  /\ sent (snd (Telegram.process_cycle w st)) = sent st
  /\ chat_state (db (snd (Telegram.process_cycle w st))) = chat_state (db st)
  /\ length (messages (db (snd (Telegram.process_cycle w st))))
     = (length (messages (db st)) + length (filter_stage (config w) all))%nat.
Proof.
  intros Hf Hc Hne.
  pose proof (collect_stable w sent stable_sent _ _ _ _ _ _ Hc) as Hsent1.
  pose proof (collect_spec w _ _ _ _ _ _ Hc) as [Hdb1 _].
  unfold Telegram.process_cycle, Telegram.cycle_body.
  rewrite (bind_ok _ _ st st peers) by (rewrite Hf; reflexivity).
  destruct peers as [|p peers].
  { cbn in Hc. injection Hc as <- _ _. contradiction. }
  rewrite (bind_ok _ _ _ _ _ Hc).
  destruct all as [|m all]; [contradiction|].
  destruct (save_all_ok (filter_stage (config w) (m :: all)) st1)
    as (fm & st2 & Hsv & Hrows).
  rewrite (bind_ok _ _ _ _ _ Hsv).
  pose proof (save_all_length _ _ _ _ Hsv) as Hlen.
  pose proof (save_all_stable w sent stable_sent _ _ _ _ Hsv) as Hsent2.
  pose proof (save_all_stable w _ stable_chat_state _ _ _ _ Hsv) as Hcs2.
  destruct fm as [|x fm].
  { destruct (filter_stage (config w) (m :: all)); [contradiction | discriminate]. }
  cbn. split; [reflexivity|]. split; [rewrite Hsent2; exact Hsent1|].
  split; [rewrite Hcs2, Hdb1; reflexivity|]. rewrite Hrows, Hdb1. reflexivity.
Qed.

End Rows.

Lemma telegram_cycle_keeps_users_unique_witness :
  NoDup (telegram_ids (snd (Telegram.process_cycle Users.w (snd Users.first)))).
Proof.
  apply (telegram_cycle_keeps_users_unique Users.w (snd Users.first)).
  vm_compute. apply NoDup_singleton.
Defined.

Lemma telegram_message_to_analyse_fails_cycle_witness :
  fst (Telegram.process_cycle Users.w Sample.st0)
  = Main.Failed
      (Exn "TypeError"
         "analyze_messages_batch() got an unexpected keyword argument 'prompt_type'")
  /\ sent (snd (Telegram.process_cycle Users.w Sample.st0)) = sent Sample.st0
  /\ chat_state (db (snd (Telegram.process_cycle Users.w Sample.st0)))
     = chat_state (db Sample.st0)
  /\ length (messages (db (snd (Telegram.process_cycle Users.w Sample.st0))))
     = (length (messages (db Sample.st0))
        + length (Main.filter_stage (config Users.w)
                    (fst (Users.collected))))%nat.
Proof.
  apply (telegram_message_to_analyse_fails_cycle Users.w (fun n => eq_refl)
           Sample.st0 [PeerChannel 1] (fst Users.collected)
           (snd Users.collected) Users.after_collect).
  - reflexivity.
  - reflexivity.
  - vm_compute. discriminate.
Defined.

(** ** The commit, the summary and the watermarks of the Telegram cycle *)

Section CycleClaims.
Import Analyzer Main.

Variable w : World.





Lemma telegram_cycle_chat_state (st : St) :
  chat_state (db (snd (Telegram.process_cycle w st))) = chat_state (db st).
Proof.
  unfold Telegram.process_cycle.
  destruct (Telegram.cycle_body w st) as [[o|e] st'] eqn:E; cbn [snd];
    exact (telegram_body_stable w _ stable_chat_state (fun _ _ => eq_refl) _ _ _ E).
Qed.

(** C4 (amended).  A cycle that ends without an unhandled error sends exactly
    one stats summary, all zero when the folder has no chat or nothing was
    fetched; a cycle that ends in an unhandled error sends none. *)
Theorem one_stats_summary_unless_error (st : St) :
  exists new,
    sent (snd (Telegram.process_cycle w st)) = (sent st ++ new)%list
    /\ match fst (Telegram.process_cycle w st) with
       | Failed _ => stats_count new = 0%nat
       | NoChats | NoMessages => new = [SendStats 0 0 0 0 "telegram"]
       | _ => stats_count new = 1%nat
       end.
Proof.
  unfold Telegram.process_cycle.
  destruct (Telegram.cycle_body w st) as [[o|e] st'] eqn:E;
    apply telegram_body_emits in E; cbn [fst snd].
  - destruct o; try contradiction.
    + eexists. split; [exact E | reflexivity].
    + eexists. split; [exact E | reflexivity].
    + destruct E as (total & _ & E). eexists. split; [exact E | reflexivity].
  - exists []. rewrite app_nil_r. split; [exact E | reflexivity].
Qed.

(** C7 (defect).  The bootstrap of a new chat.  For a chat without a
    watermark the fetch stage files the greatest message id of everything
    fetched from it as the update to commit, and passes on to the filter and
    the analyzer only fetched messages that are less than 24 hours older
    than a reading of the clock.  The update is never committed: after the
    cycle, whatever its outcome, the chat still has no watermark. *)
Theorem new_chat_watermark_never_committed (st : St) (peers : list peer)
    (p : peer) :
  folder_chats w = Ok peers ->
  NoDup (chat_ids peers) ->
  p ∈ peers ->
  watermark st (UserBot.peer_chat_id p) = None ->
  UserBot.get_new_messages w p (Some 0) <> [] ->
  (forall all upd st1,
      collect w peers [] [] st = (Ok (all, upd), st1) ->
      (UserBot.peer_chat_id p,
       max_message_id (UserBot.get_new_messages w p (Some 0))) ∈ upd
      /\ forall m, m ∈ filter_stage (config w) all ->
           chat_id m = UserBot.peer_chat_id p ->
           m ∈ UserBot.get_new_messages w p (Some 0)
           /\ exists n, clock w n - day < date m)
  /\ (forall m, m ∈ UserBot.get_new_messages w p (Some 0) ->
        message_id m <= max_message_id (UserBot.get_new_messages w p (Some 0)))
  /\ (exists m, m ∈ UserBot.get_new_messages w p (Some 0)
                /\ max_message_id (UserBot.get_new_messages w p (Some 0))
                   = message_id m)
  /\ watermark (snd (Telegram.process_cycle w st)) (UserBot.peer_chat_id p) = None.
Proof.
  intros Hpeers Hnd Hp Hnew Hne.
  assert (Hf : fetched w st p = UserBot.get_new_messages w p (Some 0)).
  { unfold fetched. rewrite Hnew. reflexivity. }
  split; [|split; [|split]].
  - intros all upd st1 Hc. apply collect_spec in Hc as [_ Hc].
    destruct (Hc _ _ eq_refl) as [-> Hall]. split.
    + rewrite <- Hf. apply updates_of_elem; [exact Hp | rewrite Hf; exact Hne].
    + intros m Hm Hchat.
      assert (Hin : m ∈ all).
      { eapply elem_of_sublist; [exact Hm|]. unfold filter_stage.
        etransitivity; [apply deduplicate_sublist | apply filter_sublist]. }
      destruct (Hall m Hin) as [Hnil|(p' & Hp' & Hm' & Hwin)]; [inversion Hnil|].
      assert (p' = p) as ->.
      { apply (chat_ids_inj peers); [assumption..|].
        rewrite fetched_eq in Hm'.
        apply get_new_messages_elem in Hm' as [Hc' _]. congruence. }
      rewrite Hf in Hm'. split; [exact Hm' | exact (Hwin Hnew)].
  - apply max_message_id_spec, Hne.
  - apply max_message_id_spec, Hne.
  - unfold watermark in *. rewrite telegram_cycle_chat_state. exact Hnew.
Qed.

(** C10 (defect).  A fetch returns at most 100 messages.  In a history that
    is newest first, a message above the watermark whose id is not among the
    100 newest is not fetched and is older than every fetched message.  The
    watermark is not advanced to the greatest fetched id: after the cycle,
    whatever its outcome, it is as before, and the next fetch from the same
    history returns the same messages again. *)
Theorem fetch_limit_watermark_never_advances (st : St) (p : peer)
    (r : RawMessage) :
  descending (history (chat_of w p)) = true ->
  r ∈ history (chat_of w p) ->
  default 0 (watermark st (UserBot.peer_chat_id p)) < raw_id r ->
  raw_id r ∉ map raw_id
    (UserBot.iter_messages (history (chat_of w p))
       (default 0 (watermark st (UserBot.peer_chat_id p))) 100) ->
  (length (fetched w st p) <= 100)%nat
  /\ (forall m, m ∈ fetched w st p -> raw_id r < message_id m)
  /\ (raw_id r ∉ map message_id (fetched w st p))
  /\ watermark (snd (Telegram.process_cycle w st)) (UserBot.peer_chat_id p)
     = watermark st (UserBot.peer_chat_id p)
  /\ fetched w (snd (Telegram.process_cycle w st)) p = fetched w st p.
Proof.
  intros Hdesc Hr Hmin Hnot.
  assert (Holder : forall m, m ∈ fetched w st p -> raw_id r < message_id m).
  { intros m Hm. rewrite fetched_eq in Hm.
    apply get_new_messages_elem in Hm as (_ & _ & x & Hx & <-).
    eapply beyond_limit_older; [exact Hdesc | exact Hr | exact Hmin | | exact Hx].
    intros Hin. apply Hnot, list_elem_of_In, in_map, list_elem_of_In, Hin. }
  assert (Hsame : watermark (snd (Telegram.process_cycle w st)) (UserBot.peer_chat_id p)
                  = watermark st (UserBot.peer_chat_id p)).
  { unfold watermark. rewrite telegram_cycle_chat_state. reflexivity. }
  split; [rewrite fetched_eq; apply get_new_messages_length|].
  split; [exact Holder|]. split; [|split; [exact Hsame|]].
  - intros Hin. apply list_elem_of_In, in_map_iff in Hin as (m & Hid & Hm).
    apply list_elem_of_In, Holder in Hm. lia.
  - unfold fetched. rewrite Hsame. reflexivity.
Qed.

End CycleClaims.


(** C4 (as stated) fails: when Telegram cannot be reached the cycle ends in
    its exception handler and no stats summary is sent. *)
Lemma failed_cycle_sends_no_stats :
  fst (Telegram.process_cycle Sample.offline Sample.st0)
  = Main.Failed (Exn "ConnectionError" "Cannot send requests while disconnected")
  /\ sent (snd (Telegram.process_cycle Sample.offline Sample.st0)) = []
  /\ stats_count (sent (snd (Telegram.process_cycle Sample.offline Sample.st0)))
     <> 1%nat.
Proof.
  split; [reflexivity|]. split; [reflexivity|]. vm_compute. discriminate.
Qed.

Lemma new_chat_watermark_never_committed_witness :
  watermark Sample.st0 1 = None
  /\ map (fun m => (message_id m, text m))
       (UserBot.get_new_messages Users.w (PeerChannel 1) (Some 0))
     = [(12, "Selling car"); (11, "old flat")]
  /\ Main.collect Users.w [PeerChannel 1] [] [] Sample.st0
     = (Ok Users.collected, Users.after_collect)
  /\ fst (Telegram.process_cycle Users.w Sample.st0)
     = Main.Failed
         (Exn "TypeError"
            "analyze_messages_batch() got an unexpected keyword argument 'prompt_type'")
  /\ watermark (snd (Telegram.process_cycle Users.w Sample.st0)) 1 = None.
Proof.
  split; [reflexivity|]. split; [vm_compute; reflexivity|].
  split; [vm_compute; reflexivity|]. split; [vm_compute; reflexivity|].
  apply (new_chat_watermark_never_committed Users.w Sample.st0 [PeerChannel 1]
           (PeerChannel 1)).
  - reflexivity.
  - apply NoDup_singleton.
  - apply elem_of_cons. left. reflexivity.
  - reflexivity.
  - discriminate.
Defined.

Lemma fetch_limit_watermark_never_advances_witness :
  length (fetched Sample.busy Sample.st0 (PeerChannel 1)) = 100%nat
  /\ (forall m, m ∈ fetched Sample.busy Sample.st0 (PeerChannel 1) ->
        50 < message_id m)
  /\ fst (Telegram.process_cycle Sample.busy Sample.st0)
     = Main.Failed
         (Exn "TypeError"
            "analyze_messages_batch() got an unexpected keyword argument 'prompt_type'")
  /\ watermark (snd (Telegram.process_cycle Sample.busy Sample.st0)) 1 = None
  /\ fetched Sample.busy (snd (Telegram.process_cycle Sample.busy Sample.st0))
       (PeerChannel 1)
     = fetched Sample.busy Sample.st0 (PeerChannel 1).
Proof.
  destruct (fetch_limit_watermark_never_advances Sample.busy Sample.st0
              (PeerChannel 1) (Sample.raw 50 "Selling car" (Sample.noon - 5)))
    as (_ & Holder & _ & Hsame & Hagain).
  - vm_compute. reflexivity.
  - apply (list_elem_of_lookup_2 _ 100%nat). vm_compute. reflexivity.
  - vm_compute. reflexivity.
  - apply (bool_decide_unpack _). vm_compute. exact I.
  - split; [vm_compute; reflexivity|]. split; [exact Holder|].
    split; [vm_compute; reflexivity|]. split; [exact Hsame | exact Hagain].
Defined.

(** ** The steps after the analysis *)

Section Completion.
Import Analyzer Main.

Variable w : World.

Lemma process_results_count (i : Z)
    (fm : list (ParsedMessage * Message * ProcessedUser)) (res : pydict)
    (leads_list : list lead) (found : Z) (st : St) (leads' : list lead)
    (found' : Z) (st' : St) :
  process_results w i fm res leads_list found st = (Ok (leads', found'), st') ->
  found' - len leads' = found - len leads_list.
Proof.
  revert i leads_list found st.
  induction fm as [|[[m dm] u] fm IH]; intros i leads_list found st;
    cbn [process_results].
  - intros [= <- <- _]. reflexivity.
  - destruct (dict_get res i) as [[[[is_lead reason] confidence] lt]|]; [|apply IH].
    intros H.
    apply bind_inv in H as [(? & st1 & _ & H)|(e & _ & ?)]; [|discriminate].
    destruct is_lead; [|eapply IH, H].
    apply bind_inv in H as [(? & st2 & _ & H)|(e & _ & ?)]; [|discriminate].
    apply IH in H. unfold len in *. rewrite length_app in H. cbn [length] in H.
    lia.
Qed.

(** The steps after the analysis complete only when no verdict says lead:
    the summary they send, the only call of the bot, counts no lead.
    (With a lead in the results they end in the missing
    [send_leads_batch], before the watermarks are stored.) *)
Theorem analysis_completes_without_lead (total : Z)
    (fm : list (ParsedMessage * Message * ProcessedUser)) (upd : list (Z * Z))
    (res : pydict) (st st' : St) :
  after_analysis w total fm upd (res, true) st = (Ok Complete, st') ->
  sent st'
  = (sent st ++ [SendStats total (len fm) (len fm) 0 "telegram"])%list.
Proof.
  unfold after_analysis. cbn [negb]. intros H.
  apply bind_inv in H as [([leads found] & st3 & Hpr & H)|(e & _ & ?)];
    [|discriminate].
  pose proof (process_results_count _ _ _ _ _ _ _ _ _ Hpr) as Hcount.
  apply (process_results_stable w sent stable_sent) in Hpr.
  apply bind_inv in H as [(? & st4 & Hl & H)|(e & _ & ?)]; [|discriminate].
  destruct leads as [|l leads].
  2: { unfold Bot.send_leads_batch, Bot.getattr in Hl.
       destruct (existsb _ _) eqn:E; [vm_compute in E|]; discriminate. }
  injection Hl as _ <-.
  apply bind_inv in H as [(? & st5 & Hu & H)|(e & _ & ?)]; [|discriminate].
  apply update_chat_states_sent in Hu.
  apply bind_inv in H as [(? & st6 & Hs & H)|(e & _ & ?)]; [|discriminate].
  injection H as <-. apply notify_sent in Hs as [_ Hs].
  unfold len in Hcount. cbn [length] in Hcount.
  replace found with 0 in Hs by lia.
  rewrite Hs, Hu, Hpr. reflexivity.
Qed.

End Completion.

Lemma analysis_completes_without_lead_witness :
  sent (snd (Main.after_analysis Users.w 2 Users.saved_rows [(1, 12)]
               (Users.no_lead, true) Users.saved))
  = (sent Users.saved ++ [SendStats 2 1 1 0 "telegram"])%list.
Proof.
  apply (analysis_completes_without_lead Users.w 2 Users.saved_rows [(1, 12)]
           Users.no_lead Users.saved
           (snd (Main.after_analysis Users.w 2 Users.saved_rows [(1, 12)]
                   (Users.no_lead, true) Users.saved))).
  reflexivity.
Defined.

(** ** Escaping Markdown *)

Section Escaping.
Import Bot.

Lemma existsb_eqb_elem (c : ascii) (cs : list ascii) :
  existsb (Ascii.eqb c) cs = true <-> c ∈ cs.
Proof.
  rewrite existsb_exists. split.
  - intros (x & Hin & Hx). apply Ascii.eqb_eq in Hx as ->.
    apply list_elem_of_In, Hin.
  - intros H. exists c. split; [apply list_elem_of_In, H | apply Ascii.eqb_refl].
Qed.

Lemma existsb_eqb_app (c x : ascii) (ds : list ascii) :
  existsb (Ascii.eqb x) (ds ++ [c])
  = existsb (Ascii.eqb x) ds || Ascii.eqb x c.
Proof. rewrite existsb_app. cbn. rewrite orb_false_r. reflexivity. Qed.

Lemma replace_backslash (s : string) :
  PyStr.replace_char Json.backslash
    (String Json.backslash EmptyString ++ String Json.backslash EmptyString) s
  = escape_chars [Json.backslash] s.
Proof.
  induction s as [|x s IH]; [reflexivity|].
  cbn [PyStr.replace_char escape_chars existsb]. rewrite orb_false_r, IH.
  destruct (Ascii.eqb x Json.backslash) eqn:E; [|reflexivity].
  apply Ascii.eqb_eq in E as ->. rewrite !append_cons, append_nil_l.
  reflexivity.
Qed.

Lemma replace_escaped (c : ascii) (ds : list ascii) (s : string) :
  c ∉ ds -> Json.backslash ∈ ds ->
  PyStr.replace_char c
    (String Json.backslash EmptyString ++ String c EmptyString)
    (escape_chars ds s)
  = escape_chars (ds ++ [c]) s.
Proof.
  intros Hc Hb.
  assert (Hbc : Ascii.eqb Json.backslash c = false).
  { apply Ascii.eqb_neq. intros <-. exact (Hc Hb). }
  induction s as [|x s IH]; [reflexivity|].
  cbn [escape_chars]. rewrite existsb_eqb_app.
  destruct (existsb (Ascii.eqb x) ds) eqn:Ex; cbn [orb].
  - cbn [PyStr.replace_char]. rewrite Hbc.
    assert (Hxc : Ascii.eqb x c = false).
    { apply Ascii.eqb_neq. intros ->. apply existsb_eqb_elem in Ex.
      exact (Hc Ex). }
    rewrite Hxc, IH. reflexivity.
  - cbn [PyStr.replace_char]. rewrite IH.
    destruct (Ascii.eqb x c) eqn:Exc; [|reflexivity].
    apply Ascii.eqb_eq in Exc as ->. rewrite !append_cons, append_nil_l.
    reflexivity.
Qed.

Lemma replace_all_escaped (cs ds : list ascii) (s : string) :
  NoDup cs -> (forall c, c ∈ cs -> c ∉ ds) -> Json.backslash ∈ ds ->
  fold_left
    (fun t c => PyStr.replace_char c
                  (String Json.backslash EmptyString ++ String c EmptyString) t)
    cs (escape_chars ds s)
  = escape_chars (ds ++ cs) s.
Proof.
  revert ds. induction cs as [|c cs IH]; intros ds Hnd Hfresh Hb; cbn [fold_left].
  - rewrite app_nil_r. reflexivity.
  - apply NoDup_cons in Hnd as [Hc Hnd].
    rewrite replace_escaped;
      [|apply Hfresh, elem_of_cons; left; reflexivity | exact Hb].
    rewrite IH; [rewrite <- app_assoc; reflexivity | exact Hnd | |].
    + intros x Hx Hin. apply elem_of_app in Hin as [Hin|Hin].
      * exact (Hfresh x (proj2 (elem_of_cons _ _ _) (or_intror Hx)) Hin).
      * apply list_elem_of_singleton in Hin as ->. exact (Hc Hx).
    + apply elem_of_app. left. exact Hb.
Qed.

Lemma special_distinct :
  NoDup special /\ forall c, c ∈ special -> c ∉ [Json.backslash].
Proof.
  split.
  - apply (@bool_decide_unpack (NoDup special) _). vm_compute. exact I.
  - intros c Hc Hb. apply list_elem_of_singleton in Hb as ->.
    revert Hc. apply (@bool_decide_unpack (Json.backslash ∉ special) _).
    vm_compute. exact I.
Qed.

(** The chained replacements escape each character once: the result is the
    text with a backslash put before every backslash and every special
    character, and nothing else changed. *)
Theorem escape_markdown_single_pass (text : string) :
  escape_markdown text = escape_chars (Json.backslash :: special) text.
Proof.
  unfold escape_markdown. destruct (String.eqb text "") eqn:E.
  - apply String.eqb_eq in E as ->. reflexivity.
  - rewrite replace_backslash.
    destruct special_distinct as [Hnd Hfresh].
    rewrite replace_all_escaped;
      [reflexivity | exact Hnd | exact Hfresh |].
    apply list_elem_of_singleton. reflexivity.
Qed.

Lemma unescape_escape_chars (cs : list ascii) (s : string) :
  Json.backslash ∈ cs -> unescape (escape_chars cs s) = s.
Proof.
  intros Hb. induction s as [|x s IH]; [reflexivity|].
  cbn [escape_chars]. destruct (existsb (Ascii.eqb x) cs) eqn:Ex.
  - cbn [unescape]. rewrite Ascii.eqb_refl, IH. reflexivity.
  - assert (Hx : Ascii.eqb x Json.backslash = false).
    { apply Ascii.eqb_neq. intros ->. apply existsb_eqb_elem in Hb. congruence. }
    destruct (escape_chars cs s) as [|b rest] eqn:Es; cbn [unescape].
    + cbn [unescape] in IH. rewrite <- IH. reflexivity.
    + rewrite Hx. f_equal. exact IH.
Qed.

Lemma unescape_escape_markdown (text : string) :
  unescape (escape_markdown text) = text.
Proof.
  unfold escape_markdown. destruct (String.eqb text "") eqn:E.
  - apply String.eqb_eq in E as ->. reflexivity.
  - rewrite replace_backslash.
    destruct special_distinct as [Hnd Hfresh].
    rewrite replace_all_escaped;
      [|exact Hnd | exact Hfresh | apply list_elem_of_singleton; reflexivity].
    apply unescape_escape_chars, elem_of_app. left.
    apply list_elem_of_singleton. reflexivity.
Qed.

(** Escaping loses nothing: texts with the same escaped form are equal. *)
Theorem escape_markdown_injective (a b : string) :
  escape_markdown a = escape_markdown b -> a = b.
Proof.
  intros H. apply (f_equal unescape) in H.
  rewrite !unescape_escape_markdown in H. exact H.
Qed.

End Escaping.

Lemma escape_markdown_injective_witness : "a_b*" = "a_b*".
Proof. apply (escape_markdown_injective "a_b*" "a_b*"). reflexivity. Defined.

(** ** The Facebook cycle *)

Lemma quiet_refl (st : St) : quiet st st.
Proof. split; reflexivity. Qed.

Lemma quiet_trans (a b c : St) : quiet a b -> quiet b c -> quiet a c.
Proof. unfold quiet. intros [-> ->] [-> ->]. split; reflexivity. Qed.

Section FacebookCycle.
Import Facebook.

Variable w : World.
Variable fb : Scraper.

Lemma db_call_quiet : preserves quiet (db_call w).
Proof.
  intros st r st' H. unfold db_call in H.
  destruct (db_fails w (db_calls st)); injection H as _ <-; split; reflexivity.
Qed.

Lemma is_processed_quiet (p : string) :
  preserves quiet (Repository.is_facebook_post_processed w p).
Proof.
  unfold Repository.is_facebook_post_processed.
  apply preserves_bind; [apply quiet_trans | apply db_call_quiet | intros _].
  intros st r st' [= _ <-]. apply quiet_refl.
Qed.

Lemma load_processed_ids_quiet : preserves quiet (load_processed_ids w).
Proof.
  intros st r st' H. unfold load_processed_ids, try_except, bind in H.
  destruct (db_call w st) as [[u|e] st1] eqn:E; apply db_call_quiet in E;
    cbn in H; injection H as _ <-; exact E.
Qed.

Lemma select_new_quiet (all_posts : list ParsedPost) :
  preserves quiet (select_new w all_posts).
Proof.
  induction all_posts as [|post rest IH]; cbn [select_new].
  - apply preserves_ret, quiet_refl.
  - apply preserves_bind; [apply quiet_trans | apply is_processed_quiet | intros b].
    apply preserves_bind; [apply quiet_trans | apply IH | intros news].
    apply preserves_ret, quiet_refl.
Qed.

Lemma select_new_sublist (all_posts : list ParsedPost) (st : St)
    (new_posts : list ParsedPost) (st' : St) :
  select_new w all_posts st = (Ok new_posts, st') ->
  sublist new_posts all_posts
  /\ forall post, post ∈ new_posts ->
       facebook_processed_posts (db st) !! post_id post = None.
Proof.
  revert st new_posts st'.
  induction all_posts as [|post rest IH]; intros st new_posts st';
    cbn [select_new].
  - intros [= <- _]. split; [constructor|].
    intros post H. apply elem_of_nil in H. contradiction.
  - intros H.
    apply bind_inv in H as [(b & st1 & Hb & H)|(e & _ & ?)]; [|discriminate].
    apply bind_inv in H as [(news & st2 & Hn & H)|(e & _ & ?)]; [|discriminate].
    injection H as <- _.
    pose proof (is_processed_quiet _ _ _ _ Hb) as [_ Hdb].
    apply IH in Hn as [Hsub Hnew]. rewrite Hdb in Hnew.
    unfold Repository.is_facebook_post_processed, bind, db_call, get_db, ret in Hb.
    destruct (db_fails w (db_calls st)); [discriminate|]. cbn in Hb.
    injection Hb as <- _. case_bool_decide as Hp.
    + split; [constructor; exact Hsub | exact Hnew].
    + split; [constructor; exact Hsub|].
      intros p Hin. apply elem_of_cons in Hin as [->|Hin]; [|apply Hnew, Hin].
      apply eq_None_not_Some, Hp.
Qed.

Lemma mark_batch_sent (posts : list (string * string)) (st : St)
    (r : Result unit) (st' : St) :
  Repository.mark_facebook_posts_batch w posts st = (r, st') ->
  sent st' = sent st
  /\ chat_state (db st') = chat_state (db st)
  /\ messages (db st') = messages (db st)
  /\ processed_users (db st') = processed_users (db st)
  /\ (forall e, r = Raise e -> db st' = db st).
Proof.
  unfold Repository.mark_facebook_posts_batch, bind, db_call, get_db, now,
    put_db, ret.
  destruct (db_fails w (db_calls st)); cbn; intros [= <- <-]; cbn;
    repeat split; intros; discriminate || reflexivity.
Qed.

(** What a run of the body leaves: the tables of the Telegram cycle are
    untouched, and the summary and the processed posts depend on where the
    run ends. *)
Lemma facebook_body_spec (st : St) (r : Result outcome) (st' : St) :
  cycle_body w fb st = (r, st') ->
  chat_state (db st') = chat_state (db st)
  /\ messages (db st') = messages (db st)
  /\ processed_users (db st') = processed_users (db st)
  /\ match r with
     | Raise _ | Ok (Failed _) => quiet st st'
     | Ok NoGroups | Ok NoPosts =>
         db st' = db st
         /\ sent st' = (sent st ++ [SendStats 0 0 0 0 "facebook"])%list
     | Ok NothingNew =>
         db st' = db st
         /\ exists total,
              0 < total
              /\ sent st' = (sent st ++ [SendStats total 0 0 0 "facebook"])%list
     | Ok AllExcluded =>
         exists total,
           0 < total
           /\ sent st' = (sent st ++ [SendStats total 0 0 0 "facebook"])%list
     end.
Proof.
  assert (Hq : forall a b : St, quiet a b ->
            chat_state (db b) = chat_state (db a)
            /\ messages (db b) = messages (db a)
            /\ processed_users (db b) = processed_users (db a)).
  { intros a b [_ ->]. repeat split; reflexivity. }
  assert (Hstats : forall t a x b, send_stats t 0 0 0 a = (Ok x, b) ->
            db b = db a /\ sent b = (sent a ++ [SendStats t 0 0 0 "facebook"])%list).
  { intros t a x b [= _ <-]. split; reflexivity. }
  unfold cycle_body. intros H.
  apply bind_inv in H as [(groups & st0 & Hg & H)|(e & Hg & ->)];
    apply raise_of_state in Hg as [Hg ->];
    [|split; [reflexivity|]; split; [reflexivity|]; split; [reflexivity|];
      apply quiet_refl].
  destruct groups as [|g groups].
  { apply bind_inv in H as [(? & st1 & Hs & H)|(e & Hs & ?)]; [|discriminate].
    injection H as <- <-. apply Hstats in Hs as [Hdb Hs]. rewrite Hdb.
    repeat split; try reflexivity; exact Hs. }
  apply bind_inv in H as [(ids & st1 & Hi & H)|(e & Hi & ->)];
    apply load_processed_ids_quiet in Hi;
    [|split; [apply Hq, Hi|]; split; [apply Hq, Hi|]; split; [apply Hq, Hi|];
      exact Hi].
  apply bind_inv in H as [(all_posts & st2 & Hp & H)|(e & Hp & ->)];
    apply raise_of_state in Hp as [Hp ->];
    [|split; [apply Hq, Hi|]; split; [apply Hq, Hi|]; split; [apply Hq, Hi|];
      exact Hi].
  destruct all_posts as [|post all_posts].
  { apply bind_inv in H as [(? & st3 & Hs & H)|(e & Hs & ?)]; [|discriminate].
    injection H as <- <-. apply Hstats in Hs as [Hdb Hs].
    destruct Hi as [Hi1 Hi2]. rewrite Hdb, Hi2, Hs, Hi1.
    repeat split; reflexivity. }
  assert (Htotal : 0 < Main.len (post :: all_posts))
    by (unfold Main.len; cbn [length]; lia).
  apply bind_inv in H as [(new_posts & st3 & Hn & H)|(e & Hn & ->)];
    apply select_new_quiet in Hn; pose proof (quiet_trans _ _ _ Hi Hn) as Hin;
    [|split; [apply Hq, Hin|]; split; [apply Hq, Hin|]; split; [apply Hq, Hin|];
      exact Hin].
  destruct new_posts as [|new_post new_posts].
  { apply bind_inv in H as [(? & st4 & Hs & H)|(e & Hs & ?)]; [|discriminate].
    injection H as <- <-. apply Hstats in Hs as [Hdb Hs].
    destruct Hin as [Hin1 Hin2]. rewrite Hdb, Hin2, Hs, Hin1.
    repeat split; try reflexivity. eexists. split; [exact Htotal | reflexivity]. }
  destruct (filter_posts (config w) (new_post :: new_posts)).
  2: { injection H as <- <-.
       split; [apply Hq, Hin|]; split; [apply Hq, Hin|]; split; [apply Hq, Hin|].
       exact Hin. }
  apply bind_inv in H as [(? & st4 & Hm & H)|(e & Hm & ->)];
    apply mark_batch_sent in Hm as (Hm1 & Hm2 & Hm3 & Hm4 & Hm5);
    destruct Hin as [Hin1 Hin2].
  2: { rewrite Hm2, Hm3, Hm4, Hin2. repeat split; try reflexivity.
       - congruence.
       - rewrite (Hm5 e eq_refl). exact Hin2. }
  apply bind_inv in H as [(? & st5 & Hs & H)|(e & Hs & ?)]; [|discriminate].
  injection H as <- <-. apply Hstats in Hs as [Hdb Hs].
  rewrite Hdb, Hm2, Hm3, Hm4, Hin2. repeat split; try reflexivity.
  eexists. split; [exact Htotal|]. rewrite Hs, Hm1, Hin1. reflexivity.
Qed.

Lemma facebook_cycle_spec (st : St) :
  chat_state (db (snd (process_facebook_cycle w fb st))) = chat_state (db st)
  /\ messages (db (snd (process_facebook_cycle w fb st))) = messages (db st)
  /\ processed_users (db (snd (process_facebook_cycle w fb st)))
     = processed_users (db st)
  /\ match fst (process_facebook_cycle w fb st) with
     | Failed _ =>
         sent (snd (process_facebook_cycle w fb st)) = sent st
         /\ db (snd (process_facebook_cycle w fb st)) = db st
     | NoGroups | NoPosts =>
         db (snd (process_facebook_cycle w fb st)) = db st
         /\ sent (snd (process_facebook_cycle w fb st))
            = (sent st ++ [SendStats 0 0 0 0 "facebook"])%list
     | NothingNew =>
         db (snd (process_facebook_cycle w fb st)) = db st
         /\ exists total,
              0 < total
              /\ sent (snd (process_facebook_cycle w fb st))
                 = (sent st ++ [SendStats total 0 0 0 "facebook"])%list
     | AllExcluded =>
         exists total,
           0 < total
           /\ sent (snd (process_facebook_cycle w fb st))
              = (sent st ++ [SendStats total 0 0 0 "facebook"])%list
     end.
Proof.
  unfold process_facebook_cycle.
  rewrite (bind_ok (now w) _ st _ _ eq_refl).
  destruct (cycle_body w fb _) as [[o|e] st'] eqn:E;
    apply facebook_body_spec in E as (H1 & H2 & H3 & H4); cbn [fst snd];
    (split; [exact H1|]; split; [exact H2|]; split; [exact H3|]).
  - destruct o; exact H4.
  - exact H4.
Qed.

(** A Facebook cycle never reports a post as filtered or analysed, nor a
    lead.  What it sends follows from how it ends: nothing when it fails,
    one all-zero summary when there is no group or no post, and one summary
    that counts the fetched posts, followed by three zeros, when no post is
    new or every new post is excluded. *)
Theorem facebook_cycle_reports_only_totals (st : St) :
  exists new,
    sent (snd (process_facebook_cycle w fb st)) = (sent st ++ new)%list
    /\ match fst (process_facebook_cycle w fb st) with
       | Failed _ => new = []
       | NoGroups | NoPosts => new = [SendStats 0 0 0 0 "facebook"]
       | NothingNew | AllExcluded =>
           exists total, 0 < total /\ new = [SendStats total 0 0 0 "facebook"]
       end.
Proof.
  destruct (facebook_cycle_spec st) as (_ & _ & _ & H).
  destruct (fst (process_facebook_cycle w fb st)).
  - destruct H as [_ H]. eexists. split; [exact H | reflexivity].
  - destruct H as [_ H]. eexists. split; [exact H | reflexivity].
  - destruct H as [_ (total & Ht & H)]. eexists. split; [exact H|].
    exists total. split; [exact Ht | reflexivity].
  - destruct H as (total & Ht & H). eexists. split; [exact H|].
    exists total. split; [exact Ht | reflexivity].
  - destruct H as [H _]. exists []. rewrite app_nil_r.
    split; [exact H | reflexivity].
Qed.

(** A Facebook cycle touches no table of the Telegram cycle, and it writes
    processed posts only when it ends with every new post excluded. *)
Theorem facebook_cycle_writes_only_excluded_posts (st : St) :
  chat_state (db (snd (process_facebook_cycle w fb st))) = chat_state (db st)
  /\ messages (db (snd (process_facebook_cycle w fb st))) = messages (db st)
  /\ processed_users (db (snd (process_facebook_cycle w fb st)))
     = processed_users (db st)
  /\ (fst (process_facebook_cycle w fb st) <> AllExcluded ->
      db (snd (process_facebook_cycle w fb st)) = db st).
Proof.
  destruct (facebook_cycle_spec st) as (H1 & H2 & H3 & H).
  split; [exact H1|]. split; [exact H2|]. split; [exact H3|].
  destruct (fst (process_facebook_cycle w fb st)); intros Hne;
    try contradiction; tauto.
Qed.

End FacebookCycle.

Section FacebookRuns.
Import Facebook.

Variable w : World.
Variable fb : Scraper.

Hypothesis db_works : forall n, db_fails w n = false.

Lemma load_processed_ids_ok (st : St) :
  exists st',
    load_processed_ids w st = (Ok (dom (facebook_processed_posts (db st))), st')
    /\ quiet st st'.
Proof.
  unfold load_processed_ids, try_except, bind, db_call, get_db, ret.
  rewrite db_works. eexists. split; [reflexivity | split; reflexivity].
Qed.

Lemma select_new_ok (all_posts : list ParsedPost) (st : St) :
  exists st',
    select_new w all_posts st
    = (Ok (List.filter
             (fun p => negb (bool_decide
                               (is_Some (facebook_processed_posts (db st)
                                           !! post_id p))))
             all_posts), st')
    /\ quiet st st'.
Proof.
  revert st. induction all_posts as [|post rest IH]; intros st;
    cbn [select_new List.filter].
  - eexists. split; [reflexivity | apply quiet_refl].
  - unfold Repository.is_facebook_post_processed at 1.
    unfold bind at 1 2 3. unfold db_call, get_db, ret. rewrite db_works.
    match goal with
    | |- context [bind (select_new w rest) _ ?s] =>
        destruct (IH s) as (st' & Hrest & Hq)
    end.
    rewrite (bind_ok _ _ _ _ _ Hrest). cbn [db] in *.
    exists st'. split; [|exact Hq].
    destruct (bool_decide _); reflexivity.
Qed.

Lemma filter_posts_nil (cfg : Config) (l : list ParsedPost) :
  (forall p, p ∈ l ->
     Filter.excluded (exclude_words cfg) (PyStr.lower (post_text p)) = true) ->
  filter_posts cfg l = [].
Proof.
  unfold filter_posts. induction l as [|x l IH]; intros H; [reflexivity|].
  cbn [List.filter]. rewrite (H x) by (apply elem_of_cons; left; reflexivity).
  cbn [negb]. apply IH. intros p Hp. apply H, elem_of_cons. right. exact Hp.
Qed.

(** The analyzer is out of reach of the Facebook cycle: when the scraper
    returns a post that is not processed yet and that no exclusion word
    drops, the cycle ends in the [TypeError] of its call of the analyzer;
    nothing is sent, and no post is marked as processed. *)
Theorem facebook_post_to_analyse_fails_cycle (st : St) (groups : list Group)
    (all_posts : list ParsedPost) (post : ParsedPost) :
  get_user_groups fb = Ok groups ->
  groups <> [] ->
  scraped fb st groups = Ok all_posts ->
  post ∈ all_posts ->
  facebook_processed_posts (db st) !! post_id post = None ->
  Filter.excluded (exclude_words (config w)) (PyStr.lower (post_text post)) = false ->
  fst (process_facebook_cycle w fb st)
  = Failed (Exn "TypeError"
              "analyze_messages_batch() got an unexpected keyword argument 'prompt_type'")
  /\ sent (snd (process_facebook_cycle w fb st)) = sent st
  /\ db (snd (process_facebook_cycle w fb st)) = db st.
Proof.
  intros Hg Hne Hs Hin Hnew Hkeep. unfold process_facebook_cycle.
  rewrite (bind_ok (now w) _ st _ _ eq_refl).
  match goal with |- context [cycle_body w fb ?s] => set (st1 := s) end.
  assert (Hq1 : quiet st st1) by (split; reflexivity).
  unfold cycle_body.
  rewrite (bind_ok _ _ st1 st1 groups) by (rewrite Hg; reflexivity).
  destruct groups as [|g groups]; [contradiction|].
  destruct (load_processed_ids_ok st1) as (st2 & Hl & Hq2).
  rewrite (bind_ok _ _ _ _ _ Hl).
  rewrite (bind_ok _ _ st2 st2 all_posts)
    by (unfold scraped in Hs; cbn [db st1]; rewrite Hs; reflexivity).
  destruct all_posts as [|p0 rest] eqn:Ea; [apply elem_of_nil in Hin; contradiction|].
  rewrite <- Ea in *. clear Ea.
  destruct (select_new_ok all_posts st2) as (st3 & Hn & Hq3).
  rewrite (bind_ok _ _ _ _ _ Hn).
  pose proof (quiet_trans _ _ _ Hq1 (quiet_trans _ _ _ Hq2 Hq3)) as [Hsent Hdb].
  destruct Hq2 as [_ Hdb2]. rewrite Hdb2. cbn [db st1].
  set (new_posts := List.filter _ all_posts).
  assert (Hin' : post ∈ new_posts).
  { apply list_elem_of_In, List.filter_In. split; [apply list_elem_of_In, Hin|].
    rewrite Hnew. apply negb_true_iff, bool_decide_eq_false.
    intros [x Hx]. discriminate. }
  destruct new_posts as [|n0 news] eqn:En; [apply elem_of_nil in Hin'; contradiction|].
  rewrite <- En in *. clear En.
  assert (Hin'' : post ∈ filter_posts (config w) new_posts).
  { apply list_elem_of_In, List.filter_In. split; [apply list_elem_of_In, Hin'|].
    rewrite Hkeep. reflexivity. }
  destruct (filter_posts (config w) new_posts) as [|f0 fs];
    [apply elem_of_nil in Hin''; contradiction|].
  cbn. split; [reflexivity|]. split; assumption.
Qed.

(** When every new post the scraper returns is dropped by an exclusion
    word, the cycle ends with all of them excluded, and every post it
    fetched is a processed post afterwards. *)
Theorem facebook_excluded_posts_are_marked (st : St) (groups : list Group)
    (all_posts : list ParsedPost) (post : ParsedPost) :
  get_user_groups fb = Ok groups ->
  groups <> [] ->
  scraped fb st groups = Ok all_posts ->
  post ∈ all_posts ->
  facebook_processed_posts (db st) !! post_id post = None ->
  (forall p, p ∈ all_posts ->
     facebook_processed_posts (db st) !! post_id p = None ->
     Filter.excluded (exclude_words (config w)) (PyStr.lower (post_text p)) = true) ->
  fst (process_facebook_cycle w fb st) = AllExcluded
  /\ forall p, p ∈ all_posts ->
       is_Some (facebook_processed_posts
                  (db (snd (process_facebook_cycle w fb st))) !! post_id p).
Proof.
  intros Hg Hne Hs Hin Hnew Hdrop. unfold process_facebook_cycle.
  rewrite (bind_ok (now w) _ st _ _ eq_refl).
  match goal with |- context [cycle_body w fb ?s] => set (st1 := s) end.
  unfold cycle_body.
  rewrite (bind_ok _ _ st1 st1 groups) by (rewrite Hg; reflexivity).
  destruct groups as [|g groups]; [contradiction|].
  destruct (load_processed_ids_ok st1) as (st2 & Hl & Hq2).
  rewrite (bind_ok _ _ _ _ _ Hl).
  rewrite (bind_ok _ _ st2 st2 all_posts)
    by (unfold scraped in Hs; cbn [db st1]; rewrite Hs; reflexivity).
  destruct all_posts as [|p0 rest] eqn:Ea; [apply elem_of_nil in Hin; contradiction|].
  rewrite <- Ea in *. clear Ea.
  destruct (select_new_ok all_posts st2) as (st3 & Hn & Hq3).
  rewrite (bind_ok _ _ _ _ _ Hn).
  destruct Hq2 as [_ Hdb2]. destruct Hq3 as [_ Hdb3].
  rewrite Hdb2. cbn [db st1].
  set (new_posts := List.filter _ all_posts).
  assert (Hnews : forall p, p ∈ new_posts <->
            p ∈ all_posts /\ facebook_processed_posts (db st) !! post_id p = None).
  { intros p. unfold new_posts.
    rewrite !list_elem_of_In, List.filter_In, negb_true_iff, bool_decide_eq_false.
    rewrite <- eq_None_not_Some. reflexivity. }
  assert (Hin' : post ∈ new_posts) by (apply Hnews; split; assumption).
  destruct new_posts as [|n0 news] eqn:En; [apply elem_of_nil in Hin'; contradiction|].
  rewrite <- En in *. clear En.
  assert (Hnone : filter_posts (config w) new_posts = []).
  { apply filter_posts_nil. intros p Hp. apply Hnews in Hp as [Hp1 Hp2].
    apply Hdrop; assumption. }
  rewrite Hnone.
  unfold Repository.mark_facebook_posts_batch.
  unfold bind, db_call, get_db, now, put_db, ret, send_stats, notify.
  rewrite db_works. cbn. split; [reflexivity|].
  intros p Hp. rewrite mark_all_lookup, Hdb3, Hdb2. cbn [db st1].
  destruct (facebook_processed_posts (db st) !! post_id p) eqn:E; [eauto|].
  apply fmap_is_Some, find_fst_is_Some.
  rewrite map_map. cbn [fst]. apply list_elem_of_In, in_map, list_elem_of_In.
  apply Hnews. split; assumption.
Qed.

End FacebookRuns.

Lemma facebook_post_to_analyse_fails_cycle_witness :
  fst (Facebook.process_facebook_cycle Groups.w Groups.fb Sample.st0)
  = Facebook.Failed
      (Exn "TypeError"
         "analyze_messages_batch() got an unexpected keyword argument 'prompt_type'")
  /\ sent (snd (Facebook.process_facebook_cycle Groups.w Groups.fb Sample.st0))
     = sent Sample.st0
  /\ db (snd (Facebook.process_facebook_cycle Groups.w Groups.fb Sample.st0))
     = db Sample.st0.
Proof.
  apply (facebook_post_to_analyse_fails_cycle Groups.w Groups.fb
           (fun n => eq_refl) Sample.st0 [Groups.flats]
           [Groups.post "p1" "PROMO: cheap loans";
            Groups.post "p2" "Selling my flat"]
           (Groups.post "p2" "Selling my flat")).
  - reflexivity.
  - discriminate.
  - reflexivity.
  - apply elem_of_cons. right. apply elem_of_cons. left. reflexivity.
  - reflexivity.
  - reflexivity.
Defined.

Lemma facebook_excluded_posts_are_marked_witness :
  fst (Facebook.process_facebook_cycle Groups.w Groups.fb_adverts Sample.st0)
  = Facebook.AllExcluded
  /\ forall p, p ∈ [Groups.post "p1" "PROMO: cheap loans"] ->
       is_Some (facebook_processed_posts
                  (db (snd (Facebook.process_facebook_cycle Groups.w
                              Groups.fb_adverts Sample.st0)))
                !! Facebook.post_id p).
Proof.
  apply (facebook_excluded_posts_are_marked Groups.w Groups.fb_adverts
           (fun n => eq_refl) Sample.st0 [Groups.flats]
           [Groups.post "p1" "PROMO: cheap loans"]
           (Groups.post "p1" "PROMO: cheap loans")).
  - reflexivity.
  - discriminate.
  - reflexivity.
  - apply elem_of_cons. left. reflexivity.
  - reflexivity.
  - intros p Hp _. apply list_elem_of_singleton in Hp. rewrite Hp. reflexivity.
Defined.
